(** * Live-reload manager of go-local-server: a shallow embedding

    This development embeds [internal/livereload/manager.go] in Rocq and
    verifies the properties its specification states about it.

    Layout:
    - [GoBytes]     Go strings as byte strings, slicing with bounds checks;
    - [GoUnicode]   the Unicode tables of the Go library the code reaches
                    through [strings.ToLower], [strings.TrimSpace] and
                    [strings.EqualFold], taken as a parameter;
    - [GoStrings]   [Index], [LastIndex], [Contains], [ToLower], ... ;
    - the injector  [isIgnoredPath], [ClientScript], [injectIntoHTML];
    - the runtime   channels, timers, watchers, the manager and its methods;
    - the theorems. *)

From Stdlib Require Import ZArith Ascii String List Lia Bool.
From Stdlib Require Import DecimalString.
From stdpp Require Import gmap strings list fin_maps sorting.

Set Default Proof Using "Type".
Set Warnings "-register-all".

(* ===================================================================== *)
(** * Go strings are byte strings                                         *)
(* ===================================================================== *)

Module GoBytes.
Local Open Scope Z_scope.

Definition byte_val (c : ascii) : Z := Z.of_N (N_of_ascii c).
Definition byte_of (z : Z) : ascii := ascii_of_N (Z.to_N z).

(** [len(s)] *)
Definition len (s : string) : Z := Z.of_nat (String.length s).

Fixpoint take (n : nat) (s : string) : string :=
  match n, s with
  | S k, String c s' => String c (take k s')
  | _, _ => EmptyString
  end.

Fixpoint drop (n : nat) (s : string) : string :=
  match n, s with
  | S k, String _ s' => drop k s'
  | _, _ => s
  end.

(** [s[:i]] and [s[i:]]: out of range is a run-time panic, here [None]. *)
Definition slice_to (s : string) (i : Z) : option string :=
  if (0 <=? i) && (i <=? len s) then Some (take (Z.to_nat i) s) else None.

Definition slice_from (s : string) (i : Z) : option string :=
  if (0 <=? i) && (i <=? len s) then Some (drop (Z.to_nat i) s) else None.

Fixpoint map_bytes (f : ascii -> ascii) (s : string) : string :=
  match s with
  | EmptyString => EmptyString
  | String c s' => String (f c) (map_bytes f s')
  end.

Fixpoint all_bytes (p : ascii -> bool) (s : string) : bool :=
  match s with
  | EmptyString => true
  | String c s' => p c && all_bytes p s'
  end.

Fixpoint rev_append (s acc : string) : string :=
  match s with
  | EmptyString => acc
  | String c s' => rev_append s' (String c acc)
  end.

Definition rev (s : string) : string := rev_append s EmptyString.
End GoBytes.

(* ===================================================================== *)
(** * UTF-8 as the Go library decodes and encodes it                      *)
(* ===================================================================== *)

Module Utf8.
Import GoBytes.
Local Open Scope Z_scope.

Definition RuneSelf : Z := 0x80.
Definition RuneError : Z := 0xFFFD.
Definition MaxRune : Z := 0x10FFFF.

Definition bytes_of (l : list Z) : string :=
  fold_right (fun z acc => String (byte_of z) acc) EmptyString l.

(** [utf8.AppendRune]: surrogates and values above [MaxRune] are written as
    [RuneError]. *)
Definition EncodeRune (r : Z) : string :=
  if (0 <=? r) && (r <=? 0x7F) then bytes_of [r]
  else if (0 <=? r) && (r <=? 0x7FF) then
    bytes_of [Z.lor 0xC0 (Z.shiftr r 6); Z.lor 0x80 (Z.land r 0x3F)]
  else if (r <? 0) || (MaxRune <? r) || ((0xD800 <=? r) && (r <=? 0xDFFF)) then
    bytes_of [0xEF; 0xBF; 0xBD]
  else if r <=? 0xFFFF then
    bytes_of [Z.lor 0xE0 (Z.shiftr r 12);
              Z.lor 0x80 (Z.land (Z.shiftr r 6) 0x3F);
              Z.lor 0x80 (Z.land r 0x3F)]
  else
    bytes_of [Z.lor 0xF0 (Z.shiftr r 18);
              Z.lor 0x80 (Z.land (Z.shiftr r 12) 0x3F);
              Z.lor 0x80 (Z.land (Z.shiftr r 6) 0x3F);
              Z.lor 0x80 (Z.land r 0x3F)].

Definition in_range (lo hi b : Z) : bool := (lo <=? b) && (b <=? hi).
Definition is_cont (b : Z) : bool := in_range 0x80 0xBF b.

(** The [first] table of package utf8: for a leading byte, the length of
    the sequence and the range accepted for its second byte. *)
Definition first (b0 : Z) : option (nat * Z * Z) :=
  if in_range 0xC2 0xDF b0 then Some (2%nat, 0x80, 0xBF)
  else if b0 =? 0xE0 then Some (3%nat, 0xA0, 0xBF)
  else if in_range 0xE1 0xEC b0 then Some (3%nat, 0x80, 0xBF)
  else if b0 =? 0xED then Some (3%nat, 0x80, 0x9F)
  else if in_range 0xEE 0xEF b0 then Some (3%nat, 0x80, 0xBF)
  else if b0 =? 0xF0 then Some (4%nat, 0x90, 0xBF)
  else if in_range 0xF1 0xF3 b0 then Some (4%nat, 0x80, 0xBF)
  else if b0 =? 0xF4 then Some (4%nat, 0x80, 0x8F)
  else None.

(** [utf8.DecodeRuneInString]: the rune and its width in bytes; an invalid
    or truncated sequence is [(RuneError, 1)], the empty string
    [(RuneError, 0)]. *)
Definition DecodeRuneInString (s : string) : Z * nat :=
  match s with
  | EmptyString => (RuneError, 0%nat)
  | String c0 s1 =>
    let b0 := byte_val c0 in
    if b0 <? RuneSelf then (b0, 1%nat)
    else
      match first b0 with
      | None => (RuneError, 1%nat)
      | Some (sz, lo, hi) =>
        match s1 with
        | EmptyString => (RuneError, 1%nat)
        | String c1 s2 =>
          let b1 := byte_val c1 in
          if negb (in_range lo hi b1) then (RuneError, 1%nat)
          else if (sz =? 2)%nat then
            (Z.lor (Z.shiftl (Z.land b0 0x1F) 6) (Z.land b1 0x3F), 2%nat)
          else
            match s2 with
            | EmptyString => (RuneError, 1%nat)
            | String c2 s3 =>
              let b2 := byte_val c2 in
              if negb (is_cont b2) then (RuneError, 1%nat)
              else if (sz =? 3)%nat then
                (Z.lor (Z.shiftl (Z.land b0 0x0F) 12)
                   (Z.lor (Z.shiftl (Z.land b1 0x3F) 6) (Z.land b2 0x3F)),
                 3%nat)
              else
                match s3 with
                | EmptyString => (RuneError, 1%nat)
                | String c3 _ =>
                  let b3 := byte_val c3 in
                  if negb (is_cont b3) then (RuneError, 1%nat)
                  else
                    (Z.lor (Z.shiftl (Z.land b0 0x07) 18)
                       (Z.lor (Z.shiftl (Z.land b1 0x3F) 12)
                          (Z.lor (Z.shiftl (Z.land b2 0x3F) 6)
                             (Z.land b3 0x3F))),
                     4%nat)
                end
            end
        end
      end
  end.

(** [strings.Map(mapping, s)]: every rune of [s] (as [for range] decodes
    them) is replaced by the encoding of its image; a negative image drops
    the rune.  [skip] counts the bytes of the current rune still to pass. *)
Fixpoint Map_from (mapping : Z -> Z) (skip : nat) (s : string) : string :=
  match s with
  | EmptyString => EmptyString
  | String _ s' =>
    match skip with
    | S k => Map_from mapping k s'
    | O =>
      let '(r, w) := DecodeRuneInString s in
      let r' := mapping r in
      (if 0 <=? r' then EncodeRune r' else EmptyString)
        +:+ Map_from mapping (Nat.pred w) s'
    end
  end.

Definition Map (mapping : Z -> Z) (s : string) : string :=
  Map_from mapping 0 s.
End Utf8.

(** The parts of the Go library that consult Unicode tables, which the
    repository does not contain.  The ASCII fast paths are embedded exactly
    below; these fields stand for what the library does past them. *)
Record GoUnicode : Type := {
  (** [unicode.To(unicode.LowerCase, r)] for a rune above [MaxASCII] *)
  unicode_lower_table : Z -> Z;
  (** [strings.TrimFunc(s, unicode.IsSpace)] *)
  TrimFunc_IsSpace : string -> string;
  (** [strings.TrimRightFunc(s, unicode.IsSpace)] *)
  TrimRightFunc_IsSpace : string -> string;
  (** the rune-by-rune tail of [strings.EqualFold] *)
  EqualFold_runes : string -> string -> bool
}.

(* ===================================================================== *)
(** * Package strings, path/filepath and fmt, as far as the code uses them *)
(* ===================================================================== *)

Module GoStrings.
Import GoBytes Utf8.
Local Open Scope Z_scope.

(** [strings.HasPrefix] *)
Fixpoint HasPrefix (s prefix : string) {struct prefix} : bool :=
  match prefix, s with
  | EmptyString, _ => true
  | String a p', String b s' => Ascii.eqb a b && HasPrefix s' p'
  | String _ _, EmptyString => false
  end.

(** [strings.Index]: the first byte offset at which [substr] occurs, or -1 *)
Fixpoint Index (s substr : string) : Z :=
  if HasPrefix s substr then 0
  else match s with
       | EmptyString => -1
       | String _ s' =>
         let r := Index s' substr in if r <? 0 then -1 else r + 1
       end.

(** [strings.LastIndex]: the last byte offset at which [substr] occurs *)
Fixpoint LastIndex (s substr : string) : Z :=
  match s with
  | EmptyString => if HasPrefix s substr then 0 else -1
  | String _ s' =>
    let r := LastIndex s' substr in
    if 0 <=? r then r + 1
    else if HasPrefix s substr then 0 else -1
  end.

(** [strings.Contains(s, substr)] is [Index(s, substr) >= 0] *)
Definition Contains (s substr : string) : bool := 0 <=? Index s substr.

Definition is_upper (c : ascii) : bool := in_range 65 90 (byte_val c).
Definition is_ascii (c : ascii) : bool := byte_val c <? RuneSelf.
Definition lower_byte (c : ascii) : ascii :=
  if is_upper c then byte_of (byte_val c + 32) else c.

(** the [asciiSpace] table of package strings *)
Definition asciiSpace (c : ascii) : bool :=
  let b := byte_val c in
  (b =? 9) || (b =? 10) || (b =? 11) || (b =? 12) || (b =? 13) || (b =? 32).

Fixpoint trimLeftASCII (s : string) : string :=
  match s with
  | EmptyString => EmptyString
  | String c s' => if asciiSpace c then trimLeftASCII s' else s
  end.

(** [filepath.Ext] scans backwards to the last dot of the last element;
    [r] is the path reversed, [acc] the bytes already passed. *)
Fixpoint ext_scan (r acc : string) : string :=
  match r with
  | EmptyString => EmptyString
  | String c r' =>
    if Ascii.eqb c "/" then EmptyString
    else if Ascii.eqb c "." then String c acc
    else ext_scan r' (String c acc)
  end.

Definition Ext (path : string) : string := ext_scan (rev path) EmptyString.

(** [%d] of package fmt *)
Definition itoa (n : Z) : string := NilZero.string_of_int (Z.to_int n).

Section WithUnicode.
Context (U : GoUnicode).

(** [unicode.ToLower] *)
Definition unicode_ToLower (r : Z) : Z :=
  if r <=? 0x7F then (if in_range 65 90 r then r + 32 else r)
  else unicode_lower_table U r.

(** [strings.ToLower]: bytewise when the string is ASCII, else
    [Map(unicode.ToLower, s)]. *)
Definition ToLower (s : string) : string :=
  if all_bytes is_ascii s then
    (if all_bytes (fun c => negb (is_upper c)) s then s
     else map_bytes lower_byte s)
  else Map unicode_ToLower s.

(** [strings.TrimSpace] *)
Definition TrimSpace (s : string) : string :=
  let rest := trimLeftASCII s in
  match rest with
  | EmptyString => EmptyString
  | String c _ =>
    if negb (is_ascii c) then TrimFunc_IsSpace U rest
    else
      let r := trimLeftASCII (rev rest) in
      match r with
      | EmptyString => EmptyString
      | String d _ =>
        if negb (is_ascii d) then TrimRightFunc_IsSpace U (rev r)
        else rev r
      end
  end.

(** [strings.EqualFold] *)
Fixpoint EqualFold (s t : string) : bool :=
  match s, t with
  | EmptyString, EmptyString => true
  | String a s', String b t' =>
    if negb (is_ascii a && is_ascii b) then EqualFold_runes U s t
    else if Ascii.eqb a b then EqualFold s' t'
    else
      let sr := Z.min (byte_val a) (byte_val b) in
      let tr := Z.max (byte_val a) (byte_val b) in
      if in_range 65 90 sr && (tr =? sr + 32) then EqualFold s' t'
      else false
  | _, _ => false
  end.
End WithUnicode.
End GoStrings.

(* ===================================================================== *)
(** * The file system seen by [os] and [path/filepath]                    *)
(* ===================================================================== *)

Module GoOS.
Import GoBytes.

(** A directory lists its entries in the order [os.ReadDir] returns them. *)
Inductive fsnode : Type :=
| FsFile (data : string)
| FsDir (entries : list (string * fsnode)).

Definition IsDir (n : fsnode) : bool :=
  match n with FsDir _ => true | FsFile _ => false end.

(** the elements of a slash-separated path; empty elements are dropped *)
Fixpoint split_from (s cur : string) : list string :=
  match s with
  | EmptyString => if String.eqb cur EmptyString then [] else [rev cur]
  | String c s' =>
    if Ascii.eqb c "/" then
      (if String.eqb cur EmptyString then [] else [rev cur])
        ++ split_from s' EmptyString
    else split_from s' (String c cur)
  end.

Definition split_path (path : string) : list string :=
  split_from path EmptyString.

Fixpoint entry_lookup (name : string) (es : list (string * fsnode))
  : option fsnode :=
  match es with
  | [] => None
  | (k, n) :: es' => if String.eqb k name then Some n else entry_lookup name es'
  end.

Fixpoint entry_remove (name : string) (es : list (string * fsnode))
  : list (string * fsnode) :=
  match es with
  | [] => []
  | (k, n) :: es' =>
    if String.eqb k name then es' else (k, n) :: entry_remove name es'
  end.

(** replace the entry called [name], or add it at its place by name *)
Fixpoint entry_put (name : string) (n : fsnode) (es : list (string * fsnode))
  : list (string * fsnode) :=
  match es with
  | [] => [(name, n)]
  | (k, m) :: es' =>
    if String.eqb k name then (name, n) :: es'
    else if String.ltb name k then (name, n) :: (k, m) :: es'
    else (k, m) :: entry_put name n es'
  end.

Fixpoint node_at (elems : list string) (n : fsnode) : option fsnode :=
  match elems with
  | [] => Some n
  | e :: rest =>
    match n with
    | FsDir es =>
      match entry_lookup e es with
      | Some child => node_at rest child
      | None => None
      end
    | FsFile _ => None
    end
  end.

(** rewrite the directory reached by [elems] with [f]; [None] when the
    walk down fails or [f] does *)
Fixpoint update_dir (elems : list string)
    (f : list (string * fsnode) -> option (list (string * fsnode)))
    (n : fsnode) : option fsnode :=
  match n with
  | FsFile _ => None
  | FsDir es =>
    match elems with
    | [] => FsDir <$> f es
    | e :: rest =>
      match entry_lookup e es with
      | Some child =>
        match update_dir rest f child with
        | Some child' => Some (FsDir (entry_put e child' es))
        | None => None
        end
      | None => None
      end
    end
  end.

Definition dir_and_base (path : string) : option (list string * string) :=
  match List.rev (split_path path) with
  | [] => None
  | base :: rdir => Some (List.rev rdir, base)
  end.

(** [os.Stat]: whether the path exists, and then whether it is a directory *)
Definition Stat (root : fsnode) (path : string) : option bool :=
  IsDir <$> node_at (split_path path) root.

(** [os.ReadFile] *)
Definition ReadFile (root : fsnode) (path : string) : option string :=
  match node_at (split_path path) root with
  | Some (FsFile data) => Some data
  | _ => None
  end.

(** [os.WriteFile]: creates or truncates; fails on a missing directory and
    on a path that is a directory *)
Definition WriteFile (root : fsnode) (path data : string) : option fsnode :=
  match dir_and_base path with
  | None => None
  | Some (dir, base) =>
    update_dir dir
      (fun es =>
         match entry_lookup base es with
         | Some (FsDir _) => None
         | _ => Some (entry_put base (FsFile data) es)
         end) root
  end.

Definition Remove (root : fsnode) (path : string) : option fsnode :=
  match dir_and_base path with
  | None => None
  | Some (dir, base) =>
    update_dir dir
      (fun es =>
         match entry_lookup base es with
         | Some _ => Some (entry_remove base es)
         | None => None
         end) root
  end.

(** [os.Rename] of a regular file over a path that is not a directory *)
Definition Rename (root : fsnode) (oldpath newpath : string)
  : option fsnode :=
  match ReadFile root oldpath with
  | None => None
  | Some data =>
    match Remove root oldpath with
    | None => None
    | Some root' => WriteFile root' newpath data
    end
  end.

(** [filepath.Join(dir, name)] for the one use [WalkDir] makes of it: a
    directory path and the name of one of its entries *)
Definition Join (dir name : string) : string :=
  match rev dir with
  | EmptyString => name
  | String c _ => if Ascii.eqb c "/" then dir +:+ name else dir +:+ "/" +:+ name
  end.
End GoOS.

(* ===================================================================== *)
(** * The run-time objects the manager holds                              *)
(* ===================================================================== *)

(** Heap addresses: every [chan], [*time.Timer], [*fsnotify.Watcher],
    [*http.Server] and [*projectState] of the program is an object in a
    store, so that two holders of one pointer see the same object. *)
Definition loc : Type := nat.

(** [chan struct{}]: only the number of buffered signals matters. *)
Record Chan : Type := mkChan {
  ch_len : nat;
  ch_cap : nat;
  ch_closed : bool
}.

Inductive TimerState : Type := TimerPending | TimerStopped | TimerFired.

(** A timer made by [time.AfterFunc(d, trigger)]; [trigger] is the closure
    of [watchLoop], which captures the project id. *)
Record Timer : Type := mkTimer {
  tm_when : Z;
  tm_project : string;
  tm_state : TimerState
}.

(** [*fsnotify.Watcher] *)
Record Watcher : Type := mkWatcher {
  w_closed : bool;
  w_dirs : list string
}.

(** [fsnotify.Event] and the bits of [fsnotify.Op] *)
Record Event : Type := mkEvent {
  Name : string;
  Op : Z
}.

Module fsnotify.
Definition Create : Z := 1.
Definition Write : Z := 2.
Definition Remove : Z := 4.
Definition Rename : Z := 8.
Definition Chmod : Z := 16.
End fsnotify.

(** [*http.Server] *)
Record Server : Type := mkServer {
  Addr : string;
  srv_shut : bool
}.

Record projectState : Type := mkProjectState {
  watcher : loc;
  clients : gmap string loc;
  debounce : option loc
}.

Record Manager : Type := mkManager {
  port : Z;
  projects : gmap string loc;
  srv : option loc
}.

(** [projects.Project], the fields the engine reads *)
Record Project : Type := mkProject {
  ID : string;
  Path : string;
  DocumentRoot : string
}.

(** Go's [error] *)
Inductive error : Type :=
| err_nil
| errorString (msg : string).

(** What the program does to the outside, in the order it does it. *)
Inductive Effect : Type :=
| EChanClose (c : loc)
| EChanSend (c : loc)
| ETimerArm (t : loc) (project : string) (when : Z)
| ETimerStop (t : loc)
| ETimerFire (t : loc) (project : string) (at_ : Z)
| EWatcherNew (w : loc)
| EWatcherAdd (w : loc) (dir : string)
| EWatcherClose (w : loc)
| EWalkDir (root : string)
| EListenAndServe (s : loc)
| EShutdown (s : loc)
| EGo_watchLoop (project : string) (st : loc).

Record World : Type := mkWorld {
  mgr : Manager;
  pstates : gmap loc projectState;
  chans : gmap loc Chan;
  timers : gmap loc Timer;
  watchers : gmap loc Watcher;
  servers : gmap loc Server;
  fsys : GoOS.fsnode;
  (** how many more watchers the system grants to [fsnotify.NewWatcher] *)
  watchers_left : nat;
  (** the clock, in milliseconds *)
  now : Z;
  trace : list Effect
}.

Definition with_mgr (f : Manager -> Manager) (w : World) : World :=
  mkWorld (f (mgr w)) (pstates w) (chans w) (timers w) (watchers w)
          (servers w) (fsys w) (watchers_left w) (now w) (trace w).
Definition with_pstates (f : gmap loc projectState -> gmap loc projectState)
    (w : World) : World :=
  mkWorld (mgr w) (f (pstates w)) (chans w) (timers w) (watchers w)
          (servers w) (fsys w) (watchers_left w) (now w) (trace w).
Definition with_chans (f : gmap loc Chan -> gmap loc Chan) (w : World) : World :=
  mkWorld (mgr w) (pstates w) (f (chans w)) (timers w) (watchers w)
          (servers w) (fsys w) (watchers_left w) (now w) (trace w).
Definition with_timers (f : gmap loc Timer -> gmap loc Timer) (w : World)
  : World :=
  mkWorld (mgr w) (pstates w) (chans w) (f (timers w)) (watchers w)
          (servers w) (fsys w) (watchers_left w) (now w) (trace w).
Definition with_watchers (f : gmap loc Watcher -> gmap loc Watcher)
    (w : World) : World :=
  mkWorld (mgr w) (pstates w) (chans w) (timers w) (f (watchers w))
          (servers w) (fsys w) (watchers_left w) (now w) (trace w).
Definition with_servers (f : gmap loc Server -> gmap loc Server) (w : World)
  : World :=
  mkWorld (mgr w) (pstates w) (chans w) (timers w) (watchers w)
          (f (servers w)) (fsys w) (watchers_left w) (now w) (trace w).
Definition with_fsys (f : GoOS.fsnode -> GoOS.fsnode) (w : World) : World :=
  mkWorld (mgr w) (pstates w) (chans w) (timers w) (watchers w)
          (servers w) (f (fsys w)) (watchers_left w) (now w) (trace w).
Definition with_watchers_left (f : nat -> nat) (w : World) : World :=
  mkWorld (mgr w) (pstates w) (chans w) (timers w) (watchers w)
          (servers w) (fsys w) (f (watchers_left w)) (now w) (trace w).
Definition with_now (f : Z -> Z) (w : World) : World :=
  mkWorld (mgr w) (pstates w) (chans w) (timers w) (watchers w)
          (servers w) (fsys w) (watchers_left w) (f (now w)) (trace w).
Definition with_trace (f : list Effect -> list Effect) (w : World) : World :=
  mkWorld (mgr w) (pstates w) (chans w) (timers w) (watchers w)
          (servers w) (fsys w) (watchers_left w) (now w) (f (trace w)).

(** ** A state monad with panics *)

Inductive Res (A : Type) : Type :=
| Ok (a : A) (w : World)
| Panic (w : World).
Arguments Ok {A} a w.
Arguments Panic {A} w.

Definition M (A : Type) : Type := World -> Res A.

Definition ret {A} (a : A) : M A := fun w => Ok a w.
Definition bind {A B} (m : M A) (k : A -> M B) : M B :=
  fun w => match m w with
           | Ok a w' => k a w'
           | Panic w' => Panic w'
           end.
Definition panic {A} : M A := fun w => Panic w.
Definition get : M World := fun w => Ok w w.
Definition modify (f : World -> World) : M unit := fun w => Ok tt (f w).
Definition emit (e : Effect) : M unit := modify (with_trace (fun t => t ++ [e])).

Declare Scope go_scope.
Delimit Scope go_scope with go.
Notation "'let*' x ':=' m 'in' k" := (bind m (fun x => k))
  (at level 10, x name, m at level 100, k at level 200) : go_scope.
Notation "m ';;' k" := (bind m (fun _ => k))
  (at level 100, k at level 200, right associativity) : go_scope.

Local Open Scope go_scope.

(** [for _, x := range l { body }] *)
Fixpoint for_each {A} (l : list A) (body : A -> M unit) : M unit :=
  match l with
  | [] => ret tt
  | x :: l' => body x ;; for_each l' body
  end.

(** the world a computation leaves behind, panic or not *)
Definition world_of {A} (r : Res A) : World :=
  match r with Ok _ w => w | Panic w => w end.

(** A new object goes to an address above every address in use. *)
Definition fresh_loc {A} (m : gmap loc A) : loc :=
  map_fold (fun k _ acc => Nat.max (S k) acc) O m.

(** ** Channels *)

(** [make(chan struct{}, n)] *)
Definition chan_make (n : nat) : M loc := fun w =>
  let c := fresh_loc (chans w) in
  Ok c (with_chans (insert c (mkChan 0 n false)) w).

(** [close(ch)]: closing a closed channel panics. *)
Definition chan_close (c : loc) : M unit := fun w =>
  match chans w !! c with
  | Some ch =>
    if ch_closed ch then Panic w
    else Ok tt (with_trace (fun t => t ++ [EChanClose c])
                 (with_chans (insert c (mkChan (ch_len ch) (ch_cap ch) true)) w))
  | None => Panic w
  end.

(** [select { case ch <- struct{}{}: default: }]: whether the signal went
    in.  Sending on a closed channel panics. *)
Definition chan_try_send (c : loc) : M bool := fun w =>
  match chans w !! c with
  | Some ch =>
    if ch_closed ch then Panic w
    else if (ch_len ch <? ch_cap ch)%nat then
      Ok true (with_trace (fun t => t ++ [EChanSend c])
                 (with_chans (insert c (mkChan (S (ch_len ch)) (ch_cap ch) false)) w))
    else Ok false w
  | None => Panic w
  end.

(** What [_, ok := <-ch] can do now: deliver a buffered signal, report the
    channel closed, or block. *)
Inductive RecvResult : Type := RecvOk | RecvClosed | RecvBlocked.

Definition chan_recv (c : loc) : M RecvResult := fun w =>
  match chans w !! c with
  | Some ch =>
    match ch_len ch with
    | S k => Ok RecvOk (with_chans (insert c (mkChan k (ch_cap ch) (ch_closed ch))) w)
    | O => if ch_closed ch then Ok RecvClosed w else Ok RecvBlocked w
    end
  | None => Ok RecvBlocked w
  end.

(** ** Timers *)

(** [time.AfterFunc(d, trigger)] *)
Definition AfterFunc (d : Z) (project : string) : M loc := fun w =>
  let t := fresh_loc (timers w) in
  let when := (now w + d)%Z in
  Ok t (with_trace (fun tr => tr ++ [ETimerArm t project when])
          (with_timers (insert t (mkTimer when project TimerPending)) w)).

(** [t.Stop()]: a pending timer will not fire; reports whether it was
    pending. *)
Definition timer_Stop (t : loc) : M bool := fun w =>
  match timers w !! t with
  | Some tm =>
    match tm_state tm with
    | TimerPending =>
      Ok true (with_trace (fun tr => tr ++ [ETimerStop t])
                 (with_timers (insert t (mkTimer (tm_when tm) (tm_project tm) TimerStopped)) w))
    | _ => Ok false w
    end
  | None => Panic w
  end.

(** ** Watchers *)

(** [fsnotify.NewWatcher()] *)
Definition NewWatcher : M (option loc) := fun w =>
  match watchers_left w with
  | O => Ok None w
  | S k =>
    let l := fresh_loc (watchers w) in
    Ok (Some l)
       (with_trace (fun tr => tr ++ [EWatcherNew l])
          (with_watchers_left (fun _ => k)
             (with_watchers (insert l (mkWatcher false [])) w)))
  end.

(** [w.Add(path)]: an error on a closed watcher *)
Definition watcher_Add (l : loc) (path : string) : M error := fun w =>
  match watchers w !! l with
  | Some wt =>
    if w_closed wt then Ok (errorString "fsnotify: watcher already closed") w
    else Ok err_nil (with_trace (fun tr => tr ++ [EWatcherAdd l path])
                   (with_watchers (insert l (mkWatcher false (w_dirs wt ++ [path]))) w))
  | None => Panic w
  end.

(** [w.Close()]: closing twice is allowed and returns nil *)
Definition watcher_Close (l : loc) : M error := fun w =>
  match watchers w !! l with
  | Some wt =>
    if w_closed wt then Ok err_nil w
    else Ok err_nil (with_trace (fun tr => tr ++ [EWatcherClose l])
                   (with_watchers_left S
                      (with_watchers (insert l (mkWatcher true (w_dirs wt))) w)))
  | None => Panic w
  end.

(** ** The HTTP server *)

(** [srv.Shutdown(ctx)]: [ctx_expires] says that the context's deadline
    passes before the open connections have drained. *)
Definition Shutdown (s : loc) (ctx_expires : bool) : M error := fun w =>
  match servers w !! s with
  | Some sv =>
    Ok (if ctx_expires then errorString "context deadline exceeded" else err_nil)
       (with_trace (fun tr => tr ++ [EShutdown s])
          (with_servers (insert s (mkServer (Addr sv) true)) w))
  | None => Panic w
  end.

(** dereferencing a [*projectState] *)
Definition load_state (l : loc) : M projectState := fun w =>
  match pstates w !! l with
  | Some st => Ok st w
  | None => Panic w
  end.

(** ** Requests and response writers *)

Record Request : Type := mkRequest {
  Method : string;
  (** the parsed query of [r.URL] *)
  Query : list (string * string)
}.

(** [url.Values.Get]: the first value of the key, or the empty string *)
Fixpoint Query_Get (q : list (string * string)) (key : string) : string :=
  match q with
  | [] => EmptyString
  | (k, v) :: q' => if String.eqb k key then v else Query_Get q' key
  end.

Record ResponseWriter : Type := mkResponseWriter {
  Header : gmap string string;
  (** the status line, once written *)
  status : option Z;
  (** the chunks written to the body, oldest first *)
  body : list string;
  flushes : nat;
  (** whether the writer implements [http.Flusher] *)
  is_Flusher : bool
}.

Definition Header_Set (k v : string) (rw : ResponseWriter) : ResponseWriter :=
  mkResponseWriter (<[k := v]> (Header rw)) (status rw) (body rw)
                   (flushes rw) (is_Flusher rw).

Definition Header_Del (k : string) (rw : ResponseWriter) : ResponseWriter :=
  mkResponseWriter (delete k (Header rw)) (status rw) (body rw)
                   (flushes rw) (is_Flusher rw).

(** [w.WriteHeader(code)]: only the first call counts *)
Definition WriteHeader (code : Z) (rw : ResponseWriter) : ResponseWriter :=
  match status rw with
  | Some _ => rw
  | None => mkResponseWriter (Header rw) (Some code) (body rw)
                             (flushes rw) (is_Flusher rw)
  end.

(** [w.Write]: writes the 200 status line first if none was written *)
Definition Write (data : string) (rw : ResponseWriter) : ResponseWriter :=
  let rw := WriteHeader 200 rw in
  mkResponseWriter (Header rw) (status rw) (body rw ++ [data])
                   (flushes rw) (is_Flusher rw).

Definition Flush (rw : ResponseWriter) : ResponseWriter :=
  let rw := WriteHeader 200 rw in
  mkResponseWriter (Header rw) (status rw) (body rw)
                   (S (flushes rw)) (is_Flusher rw).

Definition nl : string := String (ascii_of_nat 10) EmptyString.

(** [http.Error] *)
Definition http_Error (rw : ResponseWriter) (msg : string) (code : Z)
  : ResponseWriter :=
  let rw := Header_Del "Content-Length" rw in
  let rw := Header_Set "Content-Type" "text/plain; charset=utf-8" rw in
  let rw := Header_Set "X-Content-Type-Options" "nosniff" rw in
  let rw := WriteHeader code rw in
  Write (msg +:+ nl) rw.

Module http.
Definition MethodGet : string := "GET".
Definition MethodOptions : string := "OPTIONS".
Definition StatusNoContent : Z := 204.
Definition StatusBadRequest : Z := 400.
Definition StatusNotFound : Z := 404.
Definition StatusMethodNotAllowed : Z := 405.
Definition StatusInternalServerError : Z := 500.
End http.

(** [hex.EncodeToString] *)
Definition hex_digit (n : Z) : ascii :=
  if (n <? 10)%Z then GoBytes.byte_of (48 + n) else GoBytes.byte_of (87 + n).

Fixpoint hex_EncodeToString (b : list Z) : string :=
  match b with
  | [] => EmptyString
  | x :: b' =>
    String (hex_digit (Z.shiftr x 4))
      (String (hex_digit (Z.land x 15)) (hex_EncodeToString b'))
  end.

(** [randomID(nBytes)]; [random] is what [rand.Read] puts in the buffer. *)
Definition randomID (random : list Z) : string := hex_EncodeToString random.

(** A connection accepted by [handleEvents]: the locals [projectID],
    [clientID] and [ch] its loop and its deferred function keep. *)
Record Subscription : Type := mkSubscription {
  sub_project : string;
  sub_client : string;
  sub_chan : loc
}.

(** Which case of the [select] of the connection loop is taken next. *)
Inductive Select : Type := SelectDone | SelectRecv.

(** What the watch loop receives: from [st.watcher.Events] or from
    [st.watcher.Errors], with the [ok] of the receive. *)
Inductive WatchRecv : Type :=
| RecvEvent (ev : Event) (ok : bool)
| RecvError (ok : bool).

(* ===================================================================== *)
(** * internal/livereload/manager.go                                      *)
(* ===================================================================== *)

Definition DefaultPort : Z := 35730.

(** the quiet window of [debounced], in milliseconds *)
Definition quiet_window : Z := 250.

(** the buffer of a client channel, [make(chan struct{}, 10)] *)
Definition client_buffer : nat := 10.

Definition ignored : list string :=
  ["/.git/"; "/node_modules/"; "/vendor/"; "/.idea/"; "/.vscode/";
   "/storage/"; "/dist/"; "/bin/"].

Definition marker : string := "GoLocal LiveReload".

Definition NewManager (port0 : Z) : Manager :=
  let port1 := if (port0 =? 0)%Z then DefaultPort else port0 in
  mkManager port1 ∅ None.

Definition EndpointURL (m : Manager) (projectID : string) : string :=
  "http://127.0.0.1:" +:+ GoStrings.itoa (port m) +:+ "/events?project="
    +:+ projectID.

Definition ClientScript (m : Manager) (projectID : string) : string :=
  "<script>" +:+ nl +:+
  "(function(){" +:+ nl +:+
  "  try {" +:+ nl +:+
  "    var es = new EventSource('" +:+ EndpointURL m projectID +:+ "');" +:+ nl +:+
  "    es.onmessage = function(){ location.reload(); };" +:+ nl +:+
  "    es.onerror = function(){};" +:+ nl +:+
  "  } catch (e) {}" +:+ nl +:+
  "})();" +:+ nl +:+
  "</script>".

Definition set_projects (ps : gmap string loc) (m : Manager) : Manager :=
  mkManager (port m) ps (srv m).
Definition set_srv (s : option loc) (m : Manager) : Manager :=
  mkManager (port m) (projects m) s.

Definition Start : M error :=
  let* w := get in
  match srv (mgr w) with
  | Some _ => ret err_nil
  | None =>
    let s := fresh_loc (servers w) in
    let addr := "127.0.0.1:" +:+ GoStrings.itoa (port (mgr w)) in
    modify (with_servers (insert s (mkServer addr false))) ;;
    modify (with_mgr (set_srv (Some s))) ;;
    emit (EListenAndServe s) ;;
    ret err_nil
  end.

(** Go leaves the order of [range] over a map open; [map_to_list] is one
    such order, and no statement below depends on which. *)
Definition Disable (projectID : string) : M error :=
  let* w := get in
  let st := projects (mgr w) !! projectID in
  modify (with_mgr (set_projects (delete projectID (projects (mgr w))))) ;;
  match st with
  | None => ret err_nil
  | Some l =>
    let* s := load_state l in
    for_each (map_to_list (clients s)) (fun '(_, ch) => chan_close ch) ;;
    (match debounce s with
     | Some t => let* _ := timer_Stop t in ret tt
     | None => ret tt
     end) ;;
    watcher_Close (watcher s)
  end.

Definition Stop (ctx_expires : bool) : M error :=
  let* w := get in
  let srv0 := srv (mgr w) in
  modify (with_mgr (set_srv None)) ;;
  let projects0 := projects (mgr w) in
  modify (with_mgr (set_projects ∅)) ;;
  for_each (map_to_list projects0)
           (fun '(projectID, _) => let* _ := Disable projectID in ret tt) ;;
  match srv0 with
  | None => ret err_nil
  | Some s => Shutdown s ctx_expires
  end.

(** The broadcast of [watchLoop]'s [trigger] closure. *)
Definition trigger (projectID : string) : M unit :=
  let* w := get in
  match projects (mgr w) !! projectID with
  | None => ret tt
  | Some cur =>
    let* s := load_state cur in
    for_each (map_to_list (clients s))
             (fun '(_, ch) => let* _ := chan_try_send ch in ret tt)
  end.

Definition set_debounce (t : option loc) (s : projectState) : projectState :=
  mkProjectState (watcher s) (clients s) t.
Definition set_clients (c : gmap string loc) (s : projectState) : projectState :=
  mkProjectState (watcher s) c (debounce s).

(** [watchLoop]'s [debounced] closure *)
Definition debounced (projectID : string) (st : loc) : M unit :=
  let* s := load_state st in
  (match debounce s with
   | Some t => let* _ := timer_Stop t in ret tt
   | None => ret tt
   end) ;;
  let* t := AfterFunc quiet_window projectID in
  modify (with_pstates (insert st (set_debounce (Some t) s))).

(** ** Time: a pending timer fires when the clock reaches it *)

Definition is_due (t : Z) (tm : Timer) : bool :=
  match tm_state tm with
  | TimerPending => (tm_when tm <=? t)%Z
  | _ => false
  end.

Definition earlier (a b : loc * Timer) : Prop := (tm_when a.2 <= tm_when b.2)%Z.

#[local] Instance earlier_dec : RelDecision earlier.
Proof. intros a b. unfold earlier. apply Z_le_dec. Defined.

(** the timers to fire up to time [t], earliest first *)
Definition due (t : Z) (w : World) : list loc :=
  (merge_sort earlier
     (filter (fun lt => is_due t lt.2 = true) (map_to_list (timers w)))).*1.

(** the runtime runs the function of a timer that has come due *)
Definition fire (t : loc) : M unit :=
  let* w := get in
  match timers w !! t with
  | Some tm =>
    match tm_state tm with
    | TimerPending =>
      let at_ := Z.max (now w) (tm_when tm) in
      modify (with_now (fun _ => at_)) ;;
      modify (with_timers (insert t (mkTimer (tm_when tm) (tm_project tm) TimerFired))) ;;
      emit (ETimerFire t (tm_project tm) at_) ;;
      trigger (tm_project tm)
    | _ => ret tt
    end
  | None => ret tt
  end.

(** the clock moves to [t]; the timers due on the way fire *)
Definition advance_to (t : Z) : M unit :=
  let* w := get in
  for_each (due t w) fire ;;
  modify (with_now (Z.max t)).

(** ** The events route *)

(** [handleEvents] up to the first frame: answers with an error, or
    registers the connection and sends the ready frame.  [random] is the
    entropy [randomID] draws. *)
Definition handleEvents_open (rw : ResponseWriter) (r : Request)
    (random : list Z) : M (ResponseWriter * option Subscription) :=
  let rw := Header_Set "Access-Control-Allow-Origin" "*" rw in
  let rw := Header_Set "Access-Control-Allow-Methods" "GET, OPTIONS" rw in
  let rw := Header_Set "Access-Control-Allow-Headers" "Content-Type" rw in
  if String.eqb (Method r) http.MethodOptions then
    ret (WriteHeader http.StatusNoContent rw, None)
  else if negb (String.eqb (Method r) http.MethodGet) then
    ret (http_Error rw "method not allowed" http.StatusMethodNotAllowed, None)
  else
    let projectID := Query_Get (Query r) "project" in
    if String.eqb projectID "" then
      ret (http_Error rw "missing project" http.StatusBadRequest, None)
    else
      let* w := get in
      match projects (mgr w) !! projectID with
      | None =>
        ret (http_Error rw "live reload not enabled for this project"
                        http.StatusNotFound, None)
      | Some _ =>
        if negb (is_Flusher rw) then
          ret (http_Error rw "streaming not supported"
                          http.StatusInternalServerError, None)
        else
          let rw := Header_Set "Content-Type" "text/event-stream" rw in
          let rw := Header_Set "Cache-Control" "no-cache" rw in
          let rw := Header_Set "Connection" "keep-alive" rw in
          let rw := Header_Set "X-Accel-Buffering" "no" rw in
          let clientID := randomID random in
          let* ch := chan_make client_buffer in
          let* w2 := get in
          (* st may have been removed while we were building *)
          match projects (mgr w2) !! projectID with
          | None =>
            ret (http_Error rw "live reload not enabled"
                            http.StatusNotFound, None)
          | Some l2 =>
            let* st2 := load_state l2 in
            modify (with_pstates
                      (insert l2 (set_clients (<[clientID := ch]> (clients st2)) st2))) ;;
            (* Initial ping *)
            let rw := Write ("data: ready" +:+ nl +:+ nl) rw in
            let rw := Flush rw in
            ret (rw, Some (mkSubscription projectID clientID ch))
          end
      end.

(** The connection loop, driven by the cases its [select] takes; the
    boolean says whether the handler has returned. *)
Fixpoint handleEvents_loop (sub : Subscription) (sels : list Select)
    (rw : ResponseWriter) : M (ResponseWriter * bool) :=
  match sels with
  | [] => ret (rw, false)
  | SelectDone :: _ => ret (rw, true)
  | SelectRecv :: sels' =>
    let* r := chan_recv (sub_chan sub) in
    match r with
    | RecvOk =>
      let rw := Write ("data: reload" +:+ nl +:+ nl) rw in
      let rw := Flush rw in
      handleEvents_loop sub sels' rw
    | RecvClosed => ret (rw, true)
    | RecvBlocked => handleEvents_loop sub sels' rw
    end
  end.

(** the deferred function of [handleEvents] *)
Definition handleEvents_deferred (sub : Subscription) : M unit :=
  let* w := get in
  (match projects (mgr w) !! sub_project sub with
   | Some cur =>
     let* s := load_state cur in
     modify (with_pstates
               (insert cur (set_clients (delete (sub_client sub) (clients s)) s)))
   | None => ret tt
   end) ;;
  chan_close (sub_chan sub).

Definition handleEvents (rw : ResponseWriter) (r : Request) (random : list Z)
    (sels : list Select) : M (ResponseWriter * bool) :=
  let* opened := handleEvents_open rw r random in
  match opened with
  | (rw1, None) => ret (rw1, true)
  | (rw1, Some sub) =>
    let* looped := handleEvents_loop sub sels rw1 in
    match looped with
    | (rw2, true) => handleEvents_deferred sub ;; ret (rw2, true)
    | (rw2, false) => ret (rw2, false)
    end
  end.

(** ** The part of the manager that reads paths and file contents *)

Section WithUnicode.
Context (U : GoUnicode).
Import GoBytes GoStrings GoOS.

Fixpoint contains_any (p : string) (l : list string) : bool :=
  match l with
  | [] => false
  | ig :: l' => if Contains p ig then true else contains_any p l'
  end.

Definition isIgnoredPath (path : string) : bool :=
  let p := ToLower U path in
  contains_any p ignored.

(** The directories [addWatchRecursive]'s callback adds while
    [filepath.WalkDir] walks the tree [n] found at [path]. *)
Fixpoint walk_dirs (path : string) (n : fsnode) {struct n} : list string :=
  match n with
  | FsFile _ => []
  | FsDir es =>
    if isIgnoredPath path then []
    else path ::
      (fix children (es : list (string * fsnode)) : list string :=
         match es with
         | [] => []
         | (name, child) :: es' =>
           walk_dirs (Join path name) child ++ children es'
         end) es
  end.

Definition addWatchRecursive (w : loc) (root : string) : M error :=
  emit (EWalkDir root) ;;
  let* wd := get in
  match node_at (split_path root) (fsys wd) with
  | None => ret err_nil
  | Some n =>
    for_each (walk_dirs root n)
             (fun path => let* _ := watcher_Add w path in ret tt) ;;
    ret err_nil
  end.

Definition Enable (p : option Project) : M error :=
  match p with
  | None => ret (errorString "project is nil")
  | Some p =>
    let* err := Start in
    match err with
    | errorString _ => ret err
    | err_nil =>
      let* w := get in
      match projects (mgr w) !! ID p with
      | Some _ => ret err_nil
      | None =>
        let* made := NewWatcher in
        match made with
        | None => ret (errorString "too many open files")
        | Some watcher0 =>
          let* w1 := get in
          let st := fresh_loc (pstates w1) in
          modify (with_pstates (insert st (mkProjectState watcher0 ∅ None))) ;;
          (* Start watching directories *)
          let root := Path p in
          if String.eqb root "" then
            let* _ := watcher_Close watcher0 in
            ret (errorString "project path is empty")
          else
            let* err := addWatchRecursive watcher0 root in
            match err with
            | errorString _ =>
              let* _ := watcher_Close watcher0 in ret err
            | err_nil =>
              let* w2 := get in
              modify (with_mgr (set_projects (<[ID p := st]> (projects (mgr w2))))) ;;
              emit (EGo_watchLoop (ID p) st) ;;
              ret err_nil
            end
        end
      end
    end
  end.

Definition significant : Z :=
  Z.lor (Z.lor (Z.lor fsnotify.Write fsnotify.Create) fsnotify.Remove)
        fsnotify.Rename.

(** One turn of the [for { select { ... } }] of [watchLoop]; the boolean
    says whether the loop goes on. *)
Definition watchLoop_step (projectID : string) (st : loc) (r : WatchRecv)
  : M bool :=
  match r with
  | RecvEvent ev ok =>
    if negb ok then ret false
    else
      let* s := load_state st in
      (* If a new directory was created, add watch *)
      (if negb (Z.land (Op ev) fsnotify.Create =? 0)%Z then
         let* w := get in
         match Stat (fsys w) (Name ev) with
         | Some true => let* _ := addWatchRecursive (watcher s) (Name ev) in ret tt
         | _ => ret tt
         end
       else ret tt) ;;
      if isIgnoredPath (Name ev) then ret true
      else
        (* Only trigger on write/create/remove/rename *)
        if negb (Z.land (Op ev) significant =? 0)%Z then
          debounced projectID st ;; ret true
        else ret true
  | RecvError ok => ret ok
  end.

Definition watcher_is_closed (st : loc) (w : World) : bool :=
  match pstates w !! st with
  | Some s =>
    match watchers w !! watcher s with
    | Some wt => w_closed wt
    | None => true
    end
  | None => true
  end.

(** [watchLoop] over the events its watcher delivers, each with the time
    it arrives at; the event channel is closed once the watcher is. *)
Fixpoint watchLoop (projectID : string) (st : loc)
    (arrivals : list (Z * Event)) : M unit :=
  match arrivals with
  | [] => ret tt
  | (t, ev) :: rest =>
    advance_to t ;;
    let* w := get in
    let* go_on := watchLoop_step projectID st
                    (RecvEvent ev (negb (watcher_is_closed st w))) in
    if go_on then watchLoop projectID st rest else ret tt
  end.

Definition injectIntoHTML (filename src script marker0 : string)
  : option (string * bool) :=
  (* Add marker comment to avoid duplicates *)
  let injectBlock := nl +:+ "<!-- " +:+ marker0 +:+ " -->" +:+ nl +:+ script +:+ nl in
  let lower := ToLower U src in
  let idx := LastIndex lower "</body>" in
  if (0 <=? idx)%Z then
    match slice_to src idx, slice_from src idx with
    | Some before, Some after => Some (before +:+ injectBlock +:+ after, true)
    | _, _ => None
    end
  (* If it looks like an HTML/PHP page, append at end *)
  else if Contains lower "<html" || Contains lower "<!doctype"
          || Contains lower "<body" then
    Some (src +:+ injectBlock, true)
  (* PHP-safe fallback *)
  else if EqualFold U (Ext filename) ".php" then
    let trimmed := TrimSpace U src in
    let lastClose := LastIndex trimmed "?>" in
    let lastOpen := LastIndex trimmed "<?" in
    let endsInPHPMode := (lastClose <? lastOpen)%Z in
    if endsInPHPMode then
      (* Close PHP context first, then inject script in HTML context *)
      let phpMarker := nl +:+ nl +:+ "/* " +:+ marker0 +:+ " */" +:+ nl +:+ "?>" +:+ nl in
      Some (src +:+ phpMarker +:+ script +:+ nl, true)
    else
      (* just append the script *)
      Some (src +:+ nl +:+ script +:+ nl, true)
  (* Otherwise don't touch unknown files *)
  else Some (src, false).

(** The loop of [TryInjectScript] over its candidates. *)
Fixpoint inject_candidates (script : string) (entryCandidates : list string)
  : M error :=
  match entryCandidates with
  | [] => ret err_nil
  | f :: rest =>
    let* w := get in
    match ReadFile (fsys w) f with
    | None => inject_candidates script rest
    | Some data =>
      if Contains data marker then ret err_nil
      else
        match injectIntoHTML f data script marker with
        | None => panic
        | Some (_, false) => inject_candidates script rest
        | Some (updated, true) =>
          (* Write back atomically *)
          let tmp := f +:+ ".tmp" in
          match WriteFile (fsys w) tmp updated with
          | None => ret (errorString "open: cannot write")
          | Some fs1 =>
            modify (with_fsys (fun _ => fs1)) ;;
            match Rename fs1 tmp f with
            | None => ret (errorString "rename: cannot rename")
            | Some fs2 => modify (with_fsys (fun _ => fs2)) ;; ret err_nil
            end
          end
        end
    end
  end.

(** [TryInjectScript]; [entryCandidates] is the list the function has
    built when it reaches its loop (the conventional entry files, then
    the index files a bounded scan finds). *)
Definition TryInjectScript (p : option Project)
    (entryCandidates : list string) : M error :=
  match p with
  | None => ret err_nil
  | Some p =>
    let* w := get in
    let script := ClientScript (mgr w) (ID p) in
    inject_candidates script entryCandidates
  end.
End WithUnicode.

(* ===================================================================== *)
(** * Notions the statements use                                          *)
(* ===================================================================== *)

(** the directory names the ignore policy is about *)
Definition ignored_names : list string :=
  [".git"; "node_modules"; "vendor"; ".idea"; ".vscode"; "storage"; "dist"; "bin"].

(** the byte [c] does not occur in [s] *)
Definition no_byte (c : ascii) (s : string) : bool :=
  GoBytes.all_bytes (fun d => negb (Ascii.eqb d c)) s.

(** A project state whose pointers are live: its client channels are open
    channels, no two clients share one, its watcher and its timer exist. *)
Definition state_ok (w : World) (s : projectState) : Prop :=
  (forall cid c, clients s !! cid = Some c ->
     exists ch, chans w !! c = Some ch /\ ch_closed ch = false
                /\ ch_cap ch = client_buffer) /\
  (forall cid1 cid2 c,
     clients s !! cid1 = Some c -> clients s !! cid2 = Some c -> cid1 = cid2) /\
  is_Some (watchers w !! watcher s) /\
  (forall t, debounce s = Some t -> is_Some (timers w !! t)).

(** Every tracked project points to such a state. *)
Definition wf (w : World) : Prop :=
  forall pid l, projects (mgr w) !! pid = Some l ->
    exists s, pstates w !! l = Some s /\ state_ok w s.

(** the timers armed along a trace, with the project and the due time *)
Fixpoint arms (tr : list Effect) : list (string * Z) :=
  match tr with
  | [] => []
  | ETimerArm _ p when :: tr' => (p, when) :: arms tr'
  | _ :: tr' => arms tr'
  end.

(** the timers of a project that fired along a trace, with the time *)
Fixpoint fires (projectID : string) (tr : list Effect) : list (loc * Z) :=
  match tr with
  | [] => []
  | ETimerFire t p at_ :: tr' =>
    if String.eqb p projectID then (t, at_) :: fires projectID tr'
    else fires projectID tr'
  | _ :: tr' => fires projectID tr'
  end.

(** what [close] makes of a channel *)
Definition closed_chan (ch : Chan) : Chan :=
  mkChan (ch_len ch) (ch_cap ch) true.

(** what a send that does not wait makes of an open channel *)
Definition try_bump (ch : Chan) : Chan :=
  if (ch_len ch <? ch_cap ch)%nat
  then mkChan (S (ch_len ch)) (ch_cap ch) (ch_closed ch) else ch.

Definition close_all (cs : list loc) (m : gmap loc Chan) : gmap loc Chan :=
  foldl (fun m c => alter closed_chan c m) m cs.

Definition send_all (cs : list loc) (m : gmap loc Chan) : gmap loc Chan :=
  foldl (fun m c => alter try_bump c m) m cs.

(** A manager with one enabled project: one connected client, a pending
    debounce timer, an open watcher, and the server listening. *)
Definition demo_fs : GoOS.fsnode :=
  GoOS.FsDir [("site", GoOS.FsDir [("index.php", GoOS.FsFile "<?php echo 1; ?>")])].

Definition demo_world : World :=
  mkWorld (mkManager DefaultPort {["demo" := 0%nat]} (Some 0%nat))
          {[0%nat := mkProjectState 0 {["c1" := 0%nat]} (Some 0%nat)]}
          {[0%nat := mkChan 0 client_buffer false]}
          {[0%nat := mkTimer 250 "demo" TimerPending]}
          {[0%nat := mkWatcher false ["/site"]]}
          {[0%nat := mkServer "127.0.0.1:35730" false]}
          demo_fs 4 0 [].

Definition demo_project : Project := mkProject "demo" "/site" "".

(** An instance of the library's tables for running the code on concrete
    inputs: the entries for U+0130 and U+212A as Go has them, every other
    rune left as it is. *)
Definition sample_unicode : GoUnicode :=
  {| unicode_lower_table :=
       fun r => if (r =? 0x130)%Z then 0x69%Z
                else if (r =? 0x212A)%Z then 0x6B%Z else r;
     TrimFunc_IsSpace := fun s => s;
     TrimRightFunc_IsSpace := fun s => s;
     EqualFold_runes := fun _ _ => false |}.

(** The event is of a kind the loop reacts to. *)
Definition has_kind (k : Z) (ev : Event) : Prop := Z.land (Op ev) k <> 0%Z.

Definition qualifies (U : GoUnicode) (ev : Event) : Prop :=
  isIgnoredPath U (Name ev) = false /\
  (has_kind fsnotify.Write ev \/ has_kind fsnotify.Create ev \/
   has_kind fsnotify.Remove ev \/ has_kind fsnotify.Rename ev).

(** what [t.Stop()] makes of a timer *)
Definition stopped_timer (tm : Timer) : Timer :=
  match tm_state tm with
  | TimerPending => mkTimer (tm_when tm) (tm_project tm) TimerStopped
  | _ => tm
  end.

Definition stop_timer (t : option loc) (tms : gmap loc Timer)
  : gmap loc Timer :=
  match t with
  | Some t => alter stopped_timer t tms
  | None => tms
  end.

(** The state a watch loop works on is live and its watcher is open. *)
Definition loop_ready (w : World) (st : loc) : Prop :=
  exists s, pstates w !! st = Some s /\
    (exists wt, watchers w !! watcher s = Some wt /\ w_closed wt = false) /\
    (forall t, debounce s = Some t -> is_Some (timers w !! t)).

(** Every pending timer of the project is the debounce timer of the state
    [st] and is due at [d]. *)
Definition pending_only (projectID : string) (st : loc) (d : Z) (w : World)
  : Prop :=
  forall l tm,
    timers w !! l = Some tm -> tm_project tm = projectID ->
    tm_state tm = TimerPending ->
    (exists s, pstates w !! st = Some s /\ debounce s = Some l) /\ tm_when tm = d.

(** No timer of the project is pending. *)
Definition no_pending (projectID : string) (w : World) : Prop :=
  forall l tm,
    timers w !! l = Some tm -> tm_project tm = projectID ->
    tm_state tm <> TimerPending.

(** A burst: each event arrives less than the quiet window after the one
    before it. *)
Fixpoint within_window (prev : Z) (ts : list Z) : Prop :=
  match ts with
  | [] => True
  | t :: ts' => (prev <= t < prev + quiet_window)%Z /\ within_window t ts'
  end.

(** the arrival time of the last event, [t0] if there is none *)
Fixpoint last_time (t0 : Z) (ts : list Z) : Z :=
  match ts with
  | [] => t0
  | t :: ts' => last_time t ts'
  end.

(** a trace grows without arming or firing a timer *)
Definition quiet_ext (tr tr' : list Effect) : Prop :=
  arms tr' = arms tr /\ forall pid, fires pid tr' = fires pid tr.

(** watchers keep their state, new ones may appear *)
Definition same_watchers (ws ws' : gmap loc Watcher) : Prop :=
  forall k wt, ws !! k = Some wt ->
    exists wt', ws' !! k = Some wt' /\ w_closed wt' = w_closed wt.

(** the two frames of the event stream *)
Definition ready_frame : string := "data: ready" +:+ nl +:+ nl.
Definition reload_frame : string := "data: reload" +:+ nl +:+ nl.

(** a response writer as the server hands it to a handler *)
Definition fresh_writer (rw : ResponseWriter) : Prop :=
  status rw = None /\ body rw = [].

(** what firing makes of a timer *)
Definition fired_timer (tm : Timer) : Timer :=
  match tm_state tm with
  | TimerPending => mkTimer (tm_when tm) (tm_project tm) TimerFired
  | _ => tm
  end.

Definition fire_all (ls : list loc) (m : gmap loc Timer) : gmap loc Timer :=
  foldl (fun m l => alter fired_timer l m) m ls.

(** the clock after the timer [l] had its turn *)
Definition fire_time (w : World) (l : loc) : Z :=
  match timers w !! l with
  | Some tm =>
    match tm_state tm with
    | TimerPending => Z.max (now w) (tm_when tm)
    | _ => now w
    end
  | None => now w
  end.

(** the timer [l] is pending and belongs to the project *)
Definition pending_for (projectID : string) (w : World) (l : loc) : bool :=
  match timers w !! l with
  | Some tm =>
    match tm_state tm with
    | TimerPending => String.eqb (tm_project tm) projectID
    | _ => false
    end
  | None => false
  end.

(** channels keep their capacity and stay open or closed as they were *)
Definition same_chans (m m' : gmap loc Chan) : Prop :=
  forall c ch, m !! c = Some ch ->
    exists ch', m' !! c = Some ch' /\ ch_closed ch' = ch_closed ch
                /\ ch_cap ch' = ch_cap ch.

(** what the watch loop of [st] relies on between two events *)
Definition loop_inv (projectID : string) (st : loc) (d : Z) (w : World) : Prop :=
  wf w /\ loop_ready w st /\ pending_only projectID st d w.

(** the runes [strings.Map] meets in a string, read like [Utf8.Map_from] *)
Fixpoint runes_from (skip : nat) (s : string) : list Z :=
  match s with
  | EmptyString => []
  | String _ s' =>
    match skip with
    | S k => runes_from k s'
    | O =>
      let '(r, w) := Utf8.DecodeRuneInString s in
      r :: runes_from (Nat.pred w) s'
    end
  end.

(** two instances of the library's tables lower-case these runes alike *)
Definition lower_alike (U U' : GoUnicode) (rs : list Z) : Prop :=
  Forall (fun r => GoStrings.unicode_ToLower U r = GoStrings.unicode_ToLower U' r) rs.

(** A world with the project of [demo_world] enabled and nothing pending:
    no client connected, no timer armed. *)
Definition quiet_world : World :=
  mkWorld (mkManager DefaultPort {["demo" := 0%nat]} (Some 0%nat))
          {[0%nat := mkProjectState 0 ∅ None]}
          ∅ ∅
          {[0%nat := mkWatcher false ["/site"]]}
          {[0%nat := mkServer "127.0.0.1:35730" false]}
          demo_fs 4 0 [].

(** U+0130 and U+212A in UTF-8, and the byte 0xE9 (e acute in Latin-1) *)
Definition I_dot : string := Utf8.bytes_of [0xC4; 0xB0]%Z.
Definition Kelvin_sign : string := Utf8.bytes_of [0xE2; 0x84; 0xAA]%Z.
Definition e_acute_latin1 : string := Utf8.bytes_of [0xE9]%Z.

(** the directories [addWatchRecursive] adds for [root] in the file system *)
Definition dirs_under (U : GoUnicode) (fs : GoOS.fsnode) (root : string)
  : list string :=
  match GoOS.node_at (GoOS.split_path root) fs with
  | Some n => walk_dirs U root n
  | None => []
  end.

(** [n] broadcasts of the project in a row *)
Fixpoint trigger_times (n : nat) (projectID : string) : M unit :=
  match n with
  | O => ret tt
  | S k => trigger projectID ;; trigger_times k projectID
  end.

(** the three headers every answer of the events route carries *)
Definition cors_headers (rw : ResponseWriter) : Prop :=
  Header rw !! "Access-Control-Allow-Origin" = Some "*" /\
  Header rw !! "Access-Control-Allow-Methods" = Some "GET, OPTIONS" /\
  Header rw !! "Access-Control-Allow-Headers" = Some "Content-Type".

(** the path is not empty and does not end in a separator *)
Fixpoint ends_in_name (s : string) : bool :=
  match s with
  | EmptyString => false
  | String c s' =>
    match s' with
    | EmptyString => negb (Ascii.eqb c "/")
    | String _ _ => ends_in_name s'
    end
  end.

(* ===================================================================== *)
(** * The scan for index files and the candidates of [TryInjectScript]    *)
(* ===================================================================== *)

(** Package path/filepath on a system whose separator is the slash.
    Paths are resolved from the root directory of [GoOS.fsnode]: the model
    has no working directory, so it speaks about absolute paths. *)
Module filepath.

(** [strings.Join(elems, "/")] *)
Fixpoint join_sep (elems : list string) : string :=
  match elems with
  | [] => EmptyString
  | e :: rest =>
    match rest with
    | [] => e
    | _ :: _ => e +:+ "/" +:+ join_sep rest
    end
  end.

(** The elements [Clean] keeps: a dot and an empty element are dropped, two
    dots take back the element before them; at the start of a rooted path
    two dots are dropped, at the start of another path they are kept
    ([ups] counts them). *)
Fixpoint clean_elems (rooted : bool) (elems : list string) (ups : nat)
    (stack : list string) : nat * list string :=
  match elems with
  | [] => (ups, stack)
  | e :: rest =>
    if String.eqb e "." then clean_elems rooted rest ups stack
    else if String.eqb e ".." then
      match stack with
      | _ :: stack' => clean_elems rooted rest ups stack'
      | [] =>
        if rooted then clean_elems rooted rest ups []
        else clean_elems rooted rest (S ups) []
      end
    else clean_elems rooted rest ups (e :: stack)
  end.

(** [filepath.Clean] *)
Definition Clean (path : string) : string :=
  let rooted := GoStrings.HasPrefix path "/" in
  let '(ups, stack) := clean_elems rooted (GoOS.split_path path) 0 [] in
  let out := join_sep (repeat ".." ups ++ List.rev stack) in
  if rooted then "/" +:+ out
  else if String.eqb out "" then "." else out.

(** [filepath.Join]: the elements from the first one that is not empty on,
    joined by separators and cleaned *)
Fixpoint Join (elem : list string) : string :=
  match elem with
  | [] => EmptyString
  | e :: rest =>
    if String.eqb e "" then Join rest else Clean (join_sep (e :: rest))
  end.
End filepath.

(** [strings.Count(s, "/")] *)
Fixpoint count_slash (s : string) : Z :=
  match s with
  | EmptyString => 0
  | String c s' => (if Ascii.eqb c "/" then 1 else 0) + count_slash s'
  end.

(** the name [os.Lstat] reports for a path: its last element *)
Definition basename (path : string) : string :=
  match List.rev (GoOS.split_path path) with
  | e :: _ => e
  | [] => path
  end.

Section WithUnicode.
Context (U : GoUnicode).

(** The callback of [findIndexFiles] along [filepath.WalkDir]: the results
    so far go in, the results and whether the walk is over come out. *)
Fixpoint find_walk (rootDepth maxDepth : Z) (path name : string)
    (n : GoOS.fsnode) (results : list string) {struct n}
  : list string * bool :=
  match n with
  | GoOS.FsFile _ =>
    let name := GoStrings.ToLower U name in
    if negb (String.eqb name "index.php") && negb (String.eqb name "index.html")
    then (results, false)
    else if isIgnoredPath U path then (results, false)
    else
      let results := results ++ [path] in
      (* Cap to avoid scanning too many candidates *)
      if (20 <=? Z.of_nat (length results))%Z then (results, true)
      else (results, false)
  | GoOS.FsDir es =>
    if isIgnoredPath U path then (results, false)
    else
      let depth := (count_slash (filepath.Clean path) - rootDepth)%Z in
      if (0 <? maxDepth)%Z && (maxDepth <? depth)%Z then (results, false)
      else
        (fix children (es : list (string * GoOS.fsnode)) (results : list string)
           : list string * bool :=
           match es with
           | [] => (results, false)
           | (name1, child) :: es' =>
             let '(results, stop) :=
               find_walk rootDepth maxDepth (filepath.Join [path; name1])
                         name1 child results in
             if stop then (results, true) else children es' results
           end) es results
  end.

Definition findIndexFiles (fs : GoOS.fsnode) (root : string) (maxDepth : Z)
  : list string :=
  let rootClean := filepath.Clean root in
  let rootDepth := count_slash rootClean in
  match GoOS.node_at (GoOS.split_path rootClean) fs with
  | None => []
  | Some n =>
    (find_walk rootDepth maxDepth rootClean (basename rootClean) n []).1
  end.

(** The candidates [TryInjectScript] has built when it reaches its loop. *)
Definition entry_candidates (fs : GoOS.fsnode) (p : Project) : list string :=
  (* Prefer configured document root *)
  let configured :=
    if negb (String.eqb (GoStrings.TrimSpace U (DocumentRoot p)) "") then
      [filepath.Join [Path p; DocumentRoot p; "index.php"];
       filepath.Join [Path p; DocumentRoot p; "index.html"]]
    else [] in
  let entryCandidates :=
    configured ++
    [filepath.Join [Path p; "public"; "index.php"];
     filepath.Join [Path p; "public"; "index.html"];
     filepath.Join [Path p; "index.php"];
     filepath.Join [Path p; "index.html"]] in
  let foundExistingCandidate :=
    existsb (fun f => bool_decide (is_Some (GoOS.Stat fs f))) entryCandidates in
  if foundExistingCandidate then entryCandidates
  else entryCandidates ++ findIndexFiles fs (Path p) 3.

(** [TryInjectScript] from its first line *)
Definition TryInjectScript_whole (p : option Project) : M error :=
  match p with
  | None => ret err_nil
  | Some p0 =>
    let* w := get in
    TryInjectScript U p (entry_candidates (fsys w) p0)
  end.
End WithUnicode.

(** a name a directory can list: not empty, no separator, neither dot nor
    two dots *)
Definition plain_name (e : string) : bool :=
  negb (String.eqb e "") && no_byte "/" e
  && negb (String.eqb e ".") && negb (String.eqb e "..").

(** every directory of the tree lists such names only *)
Fixpoint plain_tree (n : GoOS.fsnode) : bool :=
  match n with
  | GoOS.FsFile _ => true
  | GoOS.FsDir es =>
    (fix all (es : list (string * GoOS.fsnode)) : bool :=
       match es with
       | [] => true
       | (k, c) :: es' => plain_name k && plain_tree c && all es'
       end) es
  end.

(** the absolute path with the elements [E] *)
Definition abs_path (E : list string) : string := "/" +:+ filepath.join_sep E.

(** the name lower-cases to one of the two index names *)
Definition index_name (U : GoUnicode) (name : string) : Prop :=
  GoStrings.ToLower U name = "index.php" \/ GoStrings.ToLower U name = "index.html".

(** A path the scan of the root [abs_path E] may return: a file with an
    index name, at most [maxDepth + 1] elements below the root when
    [maxDepth] is positive. *)
Definition scanned (U : GoUnicode) (E : list string) (maxDepth : Z)
    (r : string) : Prop :=
  exists q name,
    r = abs_path (E ++ q) /\ last (E ++ q) = Some name /\ index_name U name /\
    ((0 < maxDepth)%Z -> (Z.of_nat (length q) <= maxDepth + 1)%Z).

(** the entry files [TryInjectScript] tries before it scans: those of the
    configured document root, then of [public], then of the project path *)
Definition conventional (U : GoUnicode) (p : Project) : list string :=
  (if negb (String.eqb (GoStrings.TrimSpace U (DocumentRoot p)) "") then
     [filepath.Join [Path p; DocumentRoot p; "index.php"];
      filepath.Join [Path p; DocumentRoot p; "index.html"]]
   else [])
  ++ [filepath.Join [Path p; "public"; "index.php"];
      filepath.Join [Path p; "public"; "index.html"];
      filepath.Join [Path p; "index.php"];
      filepath.Join [Path p; "index.html"]].

(* ===================================================================== *)
(** * [TailFile]                                                          *)
(* ===================================================================== *)

Module bufio.
(** the largest token a [Scanner] holds *)
Definition MaxScanTokenSize : Z := 65536.

(** [dropCR] of [ScanLines]: one carriage return at the end is dropped *)
Definition dropCR (rline : string) : string :=
  match rline with
  | String c r => if Ascii.eqb c (ascii_of_nat 13) then GoBytes.rev r
                  else GoBytes.rev rline
  | EmptyString => EmptyString
  end.

(** A [Scanner] with [ScanLines] over the whole content: the tokens
    [Scan] yields, and whether it stopped with [ErrTooLong].  [rline]
    holds the bytes of the current line, last first, [n] is their number;
    a line that does not fit the buffer with its line feed, or by itself
    at the end of the input, stops the scanner. *)
Fixpoint scan_lines (data rline : string) (n : Z) : list string * bool :=
  match data with
  | EmptyString =>
    if (n =? 0)%Z then ([], false) else ([dropCR rline], false)
  | String c data' =>
    if Ascii.eqb c (ascii_of_nat 10) then
      let '(ls, e) := scan_lines data' EmptyString 0 in
      (dropCR rline :: ls, e)
    else if (MaxScanTokenSize <=? n + 1)%Z then ([], true)
    else scan_lines data' (String c rline) (n + 1)%Z
  end.
End bufio.

(** The loop of [TailFile] over the tokens the scanner yields. *)
Fixpoint TailFile_loop (tokens : list string) (maxLines : Z)
    (lines : list string) : list string :=
  match tokens with
  | [] => lines
  | t :: rest =>
    let lines := lines ++ [t] in
    let lines :=
      if (0 <? maxLines)%Z && (maxLines <? Z.of_nat (length lines))%Z
      then list.drop (Z.to_nat (Z.of_nat (length lines) - maxLines)) lines
      else lines in
    TailFile_loop rest maxLines lines
  end.

(** [TailFile]: the lines and the error.  A path that cannot be opened
    gives no line and the error of [os.Open]; a directory can be opened
    but not read. *)
Definition TailFile (fs : GoOS.fsnode) (path : string) (maxLines : Z)
  : list string * error :=
  match GoOS.node_at (GoOS.split_path path) fs with
  | None => ([], errorString "open: no such file or directory")
  | Some (GoOS.FsDir _) => ([], errorString "read: is a directory")
  | Some (GoOS.FsFile data) =>
    let '(tokens, too_long) := bufio.scan_lines data EmptyString 0 in
    (TailFile_loop tokens maxLines [],
     if too_long then errorString "bufio.Scanner: token too long" else err_nil)
  end.

(** a lower-case hexadecimal digit *)
Definition is_hex (c : ascii) : bool :=
  let b := GoBytes.byte_val c in
  Utf8.in_range 48 57 b || Utf8.in_range 97 102 b.

(* ===================================================================== *)
(** * Theorems                                                            *)
(* ===================================================================== *)

Import GoBytes GoStrings GoOS Utf8.
#[local] Arguments String.append !s1 s2 : simpl nomatch.

(** * Byte strings *)

Lemma append_nil_r (s : string) : s +:+ "" = s.
Proof. induction s as [|c s IH]; simpl; [done | by rewrite IH]. Qed.

Lemma append_assoc (a b c : string) : (a +:+ b) +:+ c = a +:+ (b +:+ c).
Proof. induction a as [|x a IH]; simpl; [done | by rewrite IH]. Qed.

Lemma map_bytes_append f (a b : string) :
  map_bytes f (a +:+ b) = map_bytes f a +:+ map_bytes f b.
Proof. induction a as [|x a IH]; simpl; [done | by rewrite IH]. Qed.

Lemma all_bytes_append p (a b : string) :
  all_bytes p (a +:+ b) = all_bytes p a && all_bytes p b.
Proof.
  induction a as [|x a IH]; simpl; [done |].
  rewrite IH. by rewrite andb_assoc.
Qed.

(** * Prefixes and occurrences *)

Lemma HasPrefix_true (s p : string) :
  HasPrefix s p = true <-> exists t, s = p +:+ t.
Proof.
  revert s. induction p as [|a p IH]; intros s; simpl.
  - split; [intros _; exists s; reflexivity | done].
  - destruct s as [|b s]; simpl.
    + split; [done | intros [t Ht]; discriminate].
    + rewrite andb_true_iff, IH, Ascii.eqb_eq. split.
      * intros [-> [t ->]]. by exists t.
      * intros [t Ht]. simpl in Ht. injection Ht as -> ->.
        split; [done | by exists t].
Qed.

(** [Contains] is the existence of an occurrence. *)
Lemma Contains_true (s sub : string) :
  Contains s sub = true <-> exists pre post, s = pre +:+ sub +:+ post.
Proof.
  unfold Contains. induction s as [|c s IH]; simpl.
  - destruct (HasPrefix "" sub) eqn:Hp.
    + split; [intros _ | done]. apply HasPrefix_true in Hp as [t Ht].
      exists "", t; simpl; congruence.
    + split; [done |]. intros (pre & post & H).
      destruct pre; [|discriminate]. simpl in H.
      assert (HasPrefix "" sub = true) by (apply HasPrefix_true; eauto).
      congruence.
  - destruct (HasPrefix (String c s) sub) eqn:Hp.
    + split; [intros _ | done]. apply HasPrefix_true in Hp as [t Ht].
      exists "", t; simpl; congruence.
    + destruct (Z.ltb_spec (Index s sub) 0) as [Hlt|Hge].
      * split; [done |]. intros (pre & post & H).
        destruct pre as [|x pre]; simpl in H.
        -- assert (HasPrefix (String c s) sub = true)
             by (apply HasPrefix_true; eauto). congruence.
        -- injection H as -> ->.
           assert ((0 <=? Index (pre +:+ sub +:+ post) sub)%Z = true) as H0
             by (apply IH; eauto).
           apply Z.leb_le in H0. lia.
      * split; [| intros _; apply Z.leb_le; lia].
        intros _. assert ((0 <=? Index s sub)%Z = true) as H0 by (apply Z.leb_le; lia).
        apply IH in H0 as (pre & post & ->). by exists (String c pre), post.
Qed.

Lemma HasPrefix_has_last (y g : string) (c : ascii) :
  HasPrefix y (g +:+ String c "") = true -> no_byte c y = false.
Proof.
  intros [t ->]%HasPrefix_true. unfold no_byte.
  rewrite !all_bytes_append. simpl. rewrite Ascii.eqb_refl. simpl.
  by rewrite andb_false_r.
Qed.

(** An occurrence that ends in a byte absent from [y] lies within [x]. *)
Lemma HasPrefix_app_left (x y g : string) (c : ascii) :
  no_byte c y = true ->
  HasPrefix (x +:+ y) (g +:+ String c "") = true ->
  HasPrefix x (g +:+ String c "") = true.
Proof.
  intros Hy. revert x. induction g as [|a g IH]; intros x; simpl.
  - destruct x as [|b x]; simpl; [| by rewrite !andb_true_r].
    intros H. assert (no_byte c y = false) by (by apply (HasPrefix_has_last y "")).
    congruence.
  - destruct x as [|b x]; simpl.
    + intros H. assert (no_byte c y = false)
        by (by apply (HasPrefix_has_last y (String a g))).
      congruence.
    + intros [-> H]%andb_true_iff. rewrite (IH x H). done.
Qed.

Lemma Contains_cons (c : ascii) (s sub : string) :
  Contains s sub = true -> Contains (String c s) sub = true.
Proof.
  rewrite !Contains_true. intros (pre & post & ->). by exists (String c pre), post.
Qed.

Lemma Contains_HasPrefix (s sub : string) :
  HasPrefix s sub = true -> Contains s sub = true.
Proof.
  intros [t ->]%HasPrefix_true. apply Contains_true. exists "", t; simpl; congruence.
Qed.

Lemma Contains_app_left (x y g : string) (c : ascii) :
  no_byte c y = true ->
  Contains (x +:+ y) (g +:+ String c "") = true ->
  Contains x (g +:+ String c "") = true.
Proof.
  intros Hy. induction x as [|b x IH]; simpl.
  - intros (pre & post & ->)%Contains_true. exfalso.
    unfold no_byte in Hy. rewrite !all_bytes_append in Hy. simpl in Hy.
    rewrite Ascii.eqb_refl in Hy. simpl in Hy.
    by rewrite !andb_false_r in Hy.
  - intros H. destruct (HasPrefix (String b (x +:+ y)) (g +:+ String c "")) eqn:Hp.
    + apply Contains_HasPrefix.
      by apply (HasPrefix_app_left (String b x) y g c).
    + apply Contains_cons, IH.
      unfold Contains in *. simpl in H. rewrite Hp in H.
      destruct (Z.ltb_spec (Index (x +:+ y) (g +:+ String c "")) 0);
        [done | apply Z.leb_le; lia].
Qed.

(** * Lower-casing *)

Lemma map_bytes_fix f p (s : string) :
  (forall c, p c = true -> f c = c) ->
  all_bytes p s = true -> map_bytes f s = s.
Proof.
  intros Hf. induction s as [|c s IH]; simpl; [done |].
  intros [Hc Hs]%andb_true_iff. by rewrite (Hf c Hc), IH.
Qed.

Section Lowering.
Context (U : GoUnicode).

Lemma ToLower_ascii (s : string) :
  all_bytes is_ascii s = true -> ToLower U s = map_bytes lower_byte s.
Proof.
  intros H. unfold ToLower. rewrite H.
  destruct (all_bytes (fun c => negb (is_upper c)) s) eqn:Hu; [| done].
  symmetry. apply (map_bytes_fix lower_byte _ s) in Hu; [done |].
  intros c Hc. unfold lower_byte. by destruct (is_upper c).
Qed.

Lemma ToLower_not_ascii (s : string) :
  all_bytes is_ascii s = false -> ToLower U s = Map (unicode_ToLower U) s.
Proof. intros H. unfold ToLower. by rewrite H. Qed.
End Lowering.

Lemma first_bounds (b0 : Z) sz lo hi :
  first b0 = Some (sz, lo, hi) ->
  (0x80 <= lo)%Z /\ (sz = 2 \/ sz = 3 \/ sz = 4)%nat.
Proof.
  unfold first. repeat case_match; intros [= <- <- <-]; lia.
Qed.

Lemma in_range_ascii lo hi (c : ascii) :
  is_ascii c = true -> (0x80 <= lo)%Z -> in_range lo hi (byte_val c) = false.
Proof.
  unfold is_ascii, RuneSelf, in_range. intros H%Z.ltb_lt Hlo.
  apply andb_false_iff. left. apply Z.leb_gt. lia.
Qed.

(** Decoding a rune never reads past an ASCII byte. *)
Lemma DecodeRuneInString_stops (x c : ascii) (a b : string) :
  is_ascii c = true ->
  DecodeRuneInString (String x (a +:+ String c b))
  = DecodeRuneInString (String x (a +:+ String c ""))
  /\ (Nat.pred (DecodeRuneInString (String x (a +:+ String c b))).2
      <= String.length a)%nat.
Proof.
  intros Hc. unfold DecodeRuneInString.
  destruct (byte_val x <? RuneSelf)%Z; [simpl; split; [done | lia] |].
  destruct (first (byte_val x)) as [[[sz lo] hi]|] eqn:Hf;
    [| simpl; split; [done | lia]].
  apply first_bounds in Hf as [Hlo Hsz].
  assert (is_cont (byte_val c) = false) as Hcont
    by (apply in_range_ascii; [done | lia]).
  destruct a as [|y a]; simpl.
  { rewrite (in_range_ascii lo hi c Hc Hlo). simpl. split; [done | lia]. }
  destruct (in_range lo hi (byte_val y)); simpl; [| split; [done | lia]].
  destruct (sz =? 2)%nat; [simpl; split; [done | lia] |].
  destruct a as [|z a]; simpl.
  { rewrite Hcont. simpl. split; [done | lia]. }
  destruct (is_cont (byte_val z)); simpl; [| split; [done | lia]].
  destruct (sz =? 3)%nat; [simpl; split; [done | lia] |].
  destruct a as [|u a]; simpl.
  { rewrite Hcont. simpl. split; [done | lia]. }
  destruct (is_cont (byte_val u)); simpl; split; (done || lia).
Qed.

Lemma DecodeRuneInString_ascii (c : ascii) (b : string) :
  is_ascii c = true -> DecodeRuneInString (String c b) = (byte_val c, 1%nat).
Proof. unfold is_ascii. intros H. simpl. by rewrite H. Qed.

(** [strings.Map] works through a string up to an ASCII byte as if the
    string ended after that byte. *)
Lemma Map_from_app (f : Z -> Z) (c : ascii) (b a : string) (k : nat) :
  is_ascii c = true ->
  (k <= String.length a)%nat ->
  Map_from f k (a +:+ String c b)
  = Map_from f k (a +:+ String c "") +:+ Map_from f 0 b.
Proof.
  intros Hc. revert k. induction a as [|x a IH]; intros k Hk.
  - simpl in Hk. assert (k = 0%nat) as -> by lia.
    change ("" +:+ String c b) with (String c b).
    change ("" +:+ String c "") with (String c "").
    cbn [Map_from]. rewrite !DecodeRuneInString_ascii by done.
    cbn [Nat.pred Map_from]. by rewrite append_nil_r.
  - change (String x a +:+ String c b) with (String x (a +:+ String c b)).
    change (String x a +:+ String c "") with (String x (a +:+ String c "")).
    destruct k as [|k]; cbn [Map_from].
    + destruct (DecodeRuneInString_stops x c a b Hc) as [-> Hw].
      destruct (DecodeRuneInString (String x (a +:+ String c ""))) as [r w] eqn:Hd.
      simpl in Hw. rewrite IH by lia. by rewrite append_assoc.
    + simpl in Hk. apply IH. lia.
Qed.

Lemma ignored_delimited :
  ignored = map (fun n => "/" +:+ n +:+ "/") ignored_names.
Proof. reflexivity. Qed.

Lemma contains_any_true (p : string) (l : list string) :
  contains_any p l = true <-> exists ig, In ig l /\ Contains p ig = true.
Proof.
  induction l as [|x l IH]; simpl.
  - split; [done | intros (ig & [] & _)].
  - destruct (Contains p x) eqn:Hx.
    + split; [intros _; exists x; auto | done].
    + rewrite IH. split.
      * intros (ig & Hin & Hc). exists ig. auto.
      * intros (ig & [<- | Hin] & Hc); [congruence | exists ig; auto].
Qed.

Lemma contains_any_false (p : string) (l : list string) :
  contains_any p l = false <-> forall ig, In ig l -> Contains p ig = false.
Proof.
  split.
  - intros H ig Hin. destruct (Contains p ig) eqn:Hc; [| done].
    assert (contains_any p l = true) by (apply contains_any_true; eauto).
    congruence.
  - intros H. destruct (contains_any p l) eqn:Hc; [| done].
    apply contains_any_true in Hc as (ig & Hin & Hc).
    rewrite (H ig Hin) in Hc. done.
Qed.

Section Ignore.
Context (U : GoUnicode).

(** The lower-cased form of [dir/name] is that of [dir/] followed by
    [name], for each of the eight names. *)
Lemma ToLower_dir_name (dir name : string) :
  In name ignored_names ->
  ToLower U (dir +:+ "/" +:+ name) = ToLower U (dir +:+ "/") +:+ name.
Proof.
  intros Hname.
  assert (all_bytes is_ascii name = true
          /\ map_bytes lower_byte name = name
          /\ Map_from (unicode_ToLower U) 0 name = name) as (Ha & Hl & Hm).
  { simpl in Hname.
    repeat (destruct Hname as [<- | Hname];
            [vm_compute; repeat split; reflexivity |]).
    destruct Hname. }
  destruct (all_bytes is_ascii dir) eqn:Hd.
  - rewrite !ToLower_ascii.
    + change (dir +:+ "/" +:+ name) with (dir +:+ ("/" +:+ name)).
      rewrite !map_bytes_append, Hl, append_assoc. reflexivity.
    + rewrite all_bytes_append, Hd. done.
    + rewrite all_bytes_append, Hd. simpl. exact Ha.
  - rewrite !ToLower_not_ascii.
    + unfold Utf8.Map.
      change (dir +:+ "/" +:+ name) with (dir +:+ String "/" name).
      rewrite (Map_from_app _ "/" name dir 0) by (done || lia).
      by rewrite Hm.
    + rewrite all_bytes_append, Hd. done.
    + rewrite all_bytes_append, Hd. done.
Qed.

Lemma isIgnoredPath_true (path : string) :
  isIgnoredPath U path = true
  <-> exists ig, In ig ignored /\ Contains (ToLower U path) ig = true.
Proof. unfold isIgnoredPath. apply contains_any_true. Qed.

(** A path that is an ignored directory itself, under a directory that is
    not ignored, is not ignored. *)
Lemma isIgnoredPath_dir_itself (dir name : string) :
  In name ignored_names ->
  isIgnoredPath U (dir +:+ "/") = false ->
  isIgnoredPath U (dir +:+ "/" +:+ name) = false.
Proof.
  intros Hname Hdir. unfold isIgnoredPath in *.
  rewrite ToLower_dir_name by done.
  rewrite contains_any_false in Hdir |- *.
  intros ig Hig. specialize (Hdir ig Hig).
  assert (no_byte "/" name = true) as Hno.
  { simpl in Hname.
    repeat (destruct Hname as [<- | Hname]; [reflexivity |]).
    destruct Hname. }
  assert (exists g, ig = g +:+ "/") as [g ->].
  { rewrite ignored_delimited in Hig.
    apply in_map_iff in Hig as (n & <- & _). by exists ("/" +:+ n). }
  destruct (Contains (ToLower U (dir +:+ "/") +:+ name) (g +:+ "/")) eqn:Hc;
    [| done].
  apply Contains_app_left in Hc; [congruence | done].
Qed.
End Ignore.

Local Open Scope go_scope.

(** * The store *)

Lemma fresh_loc_above {A} (m : gmap loc A) (k : loc) :
  is_Some (m !! k) -> (k < fresh_loc m)%nat.
Proof.
  unfold fresh_loc. revert k.
  apply (map_fold_weak_ind
           (fun r (m : gmap loc A) => forall k, is_Some (m !! k) -> (k < r)%nat)).
  - intros k [x Hx]. by rewrite lookup_empty in Hx.
  - intros i x m' r Hi IH k [y Hy].
    destruct (decide (i = k)) as [->|Hne]; [lia |].
    rewrite lookup_insert_ne in Hy by done.
    specialize (IH k (ex_intro _ y Hy)). lia.
Qed.

Lemma fresh_loc_fresh {A} (m : gmap loc A) : m !! fresh_loc m = None.
Proof.
  destruct (m !! fresh_loc m) eqn:H; [| done].
  assert (fresh_loc m < fresh_loc m)%nat by (apply fresh_loc_above; eauto).
  lia.
Qed.

(** * Running the monad *)

Lemma bind_Ok {A B} (m : M A) (k : A -> M B) w a w' :
  m w = Ok a w' -> bind m k w = k a w'.
Proof. unfold bind. by intros ->. Qed.

(** * Closing the client channels *)

Lemma for_each_close (l : list (string * loc)) (w : World) :
  NoDup l.*2 ->
  (forall c, c ∈ l.*2 -> exists ch, chans w !! c = Some ch /\ ch_closed ch = false) ->
  for_each l (fun '(_, ch) => chan_close ch) w
  = Ok tt (with_trace (fun t => t ++ map EChanClose l.*2)
             (with_chans (close_all l.*2) w)).
Proof.
  revert w. induction l as [|[cid c] l IH]; intros w Hnd Hopen; simpl.
  - unfold ret. f_equal. destruct w. unfold with_trace, with_chans. simpl.
    by rewrite app_nil_r.
  - apply NoDup_cons in Hnd as [Hc Hnd].
    destruct (Hopen c) as (ch & Hch & Ho); [simpl; left |].
    unfold bind, chan_close at 1. rewrite Hch, Ho.
    rewrite IH; [| done |].
    + f_equal. unfold with_trace, with_chans. simpl.
      rewrite <- app_assoc. simpl. do 2 f_equal.
      unfold close_all. simpl. f_equal.
      apply map_eq. intros i. destruct (decide (i = c)) as [->|Hne].
      * rewrite lookup_insert_eq, lookup_alter_eq, Hch. done.
      * rewrite lookup_insert_ne, lookup_alter_ne by done. done.
    + intros c' Hc'. simpl. rewrite lookup_insert_ne by (intros ->; done).
      apply Hopen. simpl. by right.
Qed.

Lemma close_all_other (cs : list loc) (m : gmap loc Chan) (c : loc) :
  c ∉ cs -> close_all cs m !! c = m !! c.
Proof.
  unfold close_all. revert m. induction cs as [|x cs IH]; intros m Hc; simpl.
  - done.
  - apply not_elem_of_cons in Hc as [Hne Hc].
    rewrite IH by done. by rewrite lookup_alter_ne.
Qed.

Lemma close_all_lookup (cs : list loc) (m : gmap loc Chan) (c : loc) :
  c ∈ cs ->
  close_all cs m !! c
  = closed_chan <$> m !! c.
Proof.
  revert m. induction cs as [|x cs IH]; intros m Hc.
  - by apply elem_of_nil in Hc.
  - change (close_all (x :: cs) m)
      with (close_all cs (alter closed_chan x m)).
    destruct (decide (c ∈ cs)) as [Hin|Hnin].
    + rewrite IH by done. destruct (decide (x = c)) as [->|Hne].
      * rewrite lookup_alter_eq. by destruct (m !! c).
      * by rewrite lookup_alter_ne.
    + rewrite close_all_other by done.
      apply elem_of_cons in Hc as [->|Hc]; [| done].
      apply lookup_alter_eq.
Qed.

Lemma clients_NoDup (w : World) (s : projectState) :
  state_ok w s -> NoDup (map_to_list (clients s)).*2.
Proof.
  intros (_ & Hinj & _). apply NoDup_fmap_2_strong; [| apply NoDup_map_to_list].
  intros [i1 c1] [i2 c2] H1%elem_of_map_to_list H2%elem_of_map_to_list Heq.
  simpl in Heq. subst c2. by rewrite (Hinj i1 i2 c1).
Qed.

Lemma clients_elem (s : projectState) (c : loc) :
  c ∈ (map_to_list (clients s)).*2 <-> exists cid, clients s !! cid = Some c.
Proof.
  rewrite list_elem_of_fmap. split.
  - intros ([cid c'] & -> & H%elem_of_map_to_list). by exists cid.
  - intros [cid H]. exists (cid, c). split; [done |]. by apply elem_of_map_to_list.
Qed.

Lemma Disable_unknown (projectID : string) (w : World) :
  projects (mgr w) !! projectID = None -> Disable projectID w = Ok err_nil w.
Proof.
  intros Hp. unfold Disable, bind, get, modify, ret. rewrite Hp.
  rewrite delete_id by done. f_equal. destruct w as [[]]; done.
Qed.

(** C8: [Disable] of a tracked id removes it from the project map, closes
    every client channel registered for it, leaves its debounce timer not
    pending and its watcher closed; [Disable] of an id that is not tracked
    returns nil and leaves the whole world as it was. *)
Theorem Disable_spec (projectID : string) (w : World) :
  (projects (mgr w) !! projectID = None -> Disable projectID w = Ok err_nil w) /\
  (forall l s,
     projects (mgr w) !! projectID = Some l -> pstates w !! l = Some s ->
     state_ok w s ->
     exists w', Disable projectID w = Ok err_nil w' /\
       projects (mgr w') = delete projectID (projects (mgr w)) /\
       (forall cid c, clients s !! cid = Some c ->
          exists ch, chans w' !! c = Some ch /\ ch_closed ch = true) /\
       (forall t, debounce s = Some t ->
          exists tm, timers w' !! t = Some tm /\ tm_state tm <> TimerPending) /\
       (exists wt, watchers w' !! watcher s = Some wt /\ w_closed wt = true)).
Proof.
  split; [apply Disable_unknown |].
  intros l s Hp Hs Hok.
  {
    pose proof (clients_NoDup w s Hok) as Hnd.
    destruct Hok as (Hopen & Hinj & [wt Hwt] & Htm).
    unfold Disable, bind, get, modify, ret, load_state. rewrite Hp. simpl.
    rewrite Hs. rewrite for_each_close; [| done |]; cycle 1.
    { intros c [cid Hc]%clients_elem. simpl. destruct (Hopen cid c Hc) as (ch & ? & ? & _). eauto. }
    set (w2 := with_trace _ _).
    assert (forall cid c, clients s !! cid = Some c ->
              exists ch, chans w2 !! c = Some ch /\ ch_closed ch = true) as Hclosed.
    { intros cid c Hc. destruct (Hopen cid c Hc) as (ch & Hch & _).
      subst w2. simpl. rewrite close_all_lookup by (apply clients_elem; eauto).
      rewrite Hch. simpl. eauto. }
    assert (watchers w2 = watchers w) as Hw2 by done.
    assert (mgr w2 = set_projects (delete projectID (projects (mgr w))) (mgr w))
      as Hm2 by done.
    assert (timers w2 = timers w) as Ht2 by done.
    clearbody w2.
    destruct (debounce s) as [t|] eqn:Hd.
    + destruct (Htm t eq_refl) as [tm Htm'].
      unfold timer_Stop. rewrite Ht2, Htm'.
      destruct (tm_state tm) eqn:Hst; unfold watcher_Close; simpl;
        rewrite Hw2, Hwt; destruct (w_closed wt) eqn:Hcl;
        (eexists; split; [reflexivity |]; simpl; rewrite ?Hm2, ?Ht2, ?Hw2;
         split; [done |]; split; [done |]; split;
         [ intros ? [= <-]; rewrite ?lookup_insert_eq, ?Htm';
           eexists; split; [reflexivity |]; simpl; congruence
         | rewrite ?lookup_insert_eq, ?Hwt; eexists; split; [reflexivity | done] ]).
    + unfold watcher_Close; simpl.
      rewrite Hw2, Hwt; destruct (w_closed wt) eqn:Hcl;
        (eexists; split; [reflexivity |]; simpl; rewrite ?Hm2, ?Ht2, ?Hw2;
         split; [done |]; split; [done |]; split; [done |];
         rewrite ?lookup_insert_eq, ?Hwt; eexists; split; [reflexivity | done]).
  }
Qed.

(** * Broadcasting *)

Lemma send_all_other (cs : list loc) (m : gmap loc Chan) (c : loc) :
  c ∉ cs -> send_all cs m !! c = m !! c.
Proof.
  unfold send_all. revert m. induction cs as [|x cs IH]; intros m Hc; simpl.
  - done.
  - apply not_elem_of_cons in Hc as [Hne Hc].
    rewrite IH by done. by rewrite lookup_alter_ne.
Qed.

Lemma send_all_lookup (cs : list loc) (m : gmap loc Chan) (c : loc) :
  NoDup cs -> c ∈ cs -> send_all cs m !! c = try_bump <$> m !! c.
Proof.
  revert m. induction cs as [|x cs IH]; intros m Hnd Hc.
  - by apply elem_of_nil in Hc.
  - apply NoDup_cons in Hnd as [Hx Hnd].
    change (send_all (x :: cs) m) with (send_all cs (alter try_bump x m)).
    apply elem_of_cons in Hc as [->|Hc].
    + rewrite send_all_other by done. apply lookup_alter_eq.
    + rewrite IH by done. rewrite lookup_alter_ne; [done |].
      intros ->. done.
Qed.

(** Sends that do not wait change channels and the trace, nothing else,
    and cannot fail on open channels. *)
Lemma for_each_send (l : list (string * loc)) (w : World) :
  (forall c, c ∈ l.*2 -> exists ch, chans w !! c = Some ch /\ ch_closed ch = false) ->
  exists sent,
    for_each l (fun '(_, ch) => let* _ := chan_try_send ch in ret tt) w
    = Ok tt (with_trace (fun t => t ++ map EChanSend sent)
               (with_chans (send_all l.*2) w)).
Proof.
  revert w. induction l as [|[cid c] l IH]; intros w Hopen; simpl.
  - exists []. unfold ret. f_equal. destruct w. unfold with_trace, with_chans.
    simpl. by rewrite app_nil_r.
  - destruct (Hopen c) as (ch & Hch & Ho); [simpl; left |].
    unfold bind at 1 2. unfold chan_try_send at 1. rewrite Hch, Ho.
    destruct (ch_len ch <? ch_cap ch)%nat eqn:Hroom.
    + unfold ret at 1.
      edestruct (IH (with_trace (fun t => t ++ [EChanSend c])
                       (with_chans (insert c (mkChan (S (ch_len ch)) (ch_cap ch) false)) w)))
        as [sent Hsent].
      { intros c' Hc'. simpl. destruct (decide (c' = c)) as [->|Hne].
        - rewrite lookup_insert_eq. eauto.
        - rewrite lookup_insert_ne by done. apply Hopen. simpl. by right. }
      exists (c :: sent). rewrite Hsent. f_equal.
      unfold with_trace, with_chans. simpl. rewrite <- app_assoc. simpl.
      do 2 f_equal. unfold send_all. simpl. f_equal.
      apply map_eq. intros i. destruct (decide (i = c)) as [->|Hne].
      * rewrite lookup_insert_eq, lookup_alter_eq, Hch. simpl.
        unfold try_bump. by rewrite Hroom, Ho.
      * by rewrite lookup_insert_ne, lookup_alter_ne.
    + unfold ret at 1.
      edestruct (IH w) as [sent Hsent].
      { intros c' Hc'. apply Hopen. simpl. by right. }
      exists sent. rewrite Hsent. f_equal.
      unfold with_trace, with_chans. simpl.
      do 2 f_equal. unfold send_all. simpl. f_equal.
      apply map_eq. intros i. destruct (decide (i = c)) as [->|Hne].
      * rewrite lookup_alter_eq, Hch. simpl.
        unfold try_bump. by rewrite Hroom.
      * by rewrite lookup_alter_ne.
Qed.

(** [trigger] on a tracked project, as a transformation of the world. *)
Lemma trigger_tracked (projectID : string) (w : World) (cur : loc)
    (s : projectState) :
  projects (mgr w) !! projectID = Some cur ->
  pstates w !! cur = Some s ->
  state_ok w s ->
  exists sent,
    trigger projectID w
    = Ok tt (with_trace (fun t => t ++ map EChanSend sent)
               (with_chans (send_all (map_to_list (clients s)).*2) w)).
Proof.
  intros Hp Hs (Hopen & _).
  unfold trigger, bind at 1, get. rewrite Hp.
  unfold bind, load_state. rewrite Hs.
  apply for_each_send.
  intros c [cid Hc]%clients_elem.
  destruct (Hopen cid c Hc) as (ch & ? & ? & _). eauto.
Qed.

(** C4: the broadcast of [trigger] returns without waiting; each registered
    client channel with room in its buffer of 10 gains exactly one signal,
    each full one is left as it is, whatever the state of the others; no
    other channel changes. *)
Theorem trigger_broadcast (projectID : string) (w : World) (cur : loc)
    (s : projectState) :
  projects (mgr w) !! projectID = Some cur ->
  pstates w !! cur = Some s ->
  state_ok w s ->
  exists w', trigger projectID w = Ok tt w' /\
    (forall cid c ch,
       clients s !! cid = Some c -> chans w !! c = Some ch ->
       chans w' !! c
       = Some (if (ch_len ch <? client_buffer)%nat
               then mkChan (S (ch_len ch)) client_buffer false else ch)) /\
    (forall c, (forall cid, clients s !! cid <> Some c) ->
       chans w' !! c = chans w !! c).
Proof.
  intros Hp Hs Hok.
  destruct (trigger_tracked projectID w cur s Hp Hs Hok) as [sent ->].
  eexists. split; [reflexivity |]. simpl. split.
  - intros cid c ch Hc Hch.
    rewrite send_all_lookup;
      [| by apply (clients_NoDup w) | apply clients_elem; eauto].
    rewrite Hch. simpl. unfold try_bump.
    destruct Hok as (Hopen & _).
    destruct (Hopen cid c Hc) as (ch' & Hch' & Ho & Hcap).
    assert (ch' = ch) as -> by congruence. by rewrite Hcap, Ho.
  - intros c Hc. apply send_all_other.
    intros [cid Hcid]%clients_elem. by apply (Hc cid).
Qed.

(** * Stop *)

Lemma for_each_Disable_untracked (l : list (string * loc)) (w : World) :
  projects (mgr w) = ∅ ->
  for_each l (fun '(projectID, _) => let* _ := Disable projectID in ret tt) w
  = Ok tt w.
Proof.
  intros He. induction l as [|[pid x] l IH]; simpl; [done |].
  unfold bind at 1 2. rewrite Disable_unknown by (by rewrite He).
  exact IH.
Qed.

(** [Stop] empties the project map before it calls [Disable], so every
    [Disable] finds nothing: the result is the world with the manager reset
    and, if there was a server, shut down. *)
Lemma Stop_result (ctx_expires : bool) (w : World) :
  Stop ctx_expires w =
  let w0 := with_mgr (fun m => mkManager (port m) ∅ None) w in
  match srv (mgr w) with
  | None => Ok err_nil w0
  | Some s => Shutdown s ctx_expires w0
  end.
Proof.
  unfold Stop, bind at 1, get. unfold bind at 1. unfold modify at 1.
  unfold bind at 1. unfold modify at 1.
  unfold bind at 1. rewrite for_each_Disable_untracked by done.
  destruct w as [[p ps sv] ? ? ? ? ? ? ? ? ?]; simpl. by destruct sv.
Qed.

(** In every world, [Stop] leaves every channel, timer and watcher as it
    was: the project map is emptied before the loop that calls [Disable]. *)
Lemma Stop_tears_nothing_down (ctx_expires : bool) (w : World) :
  let w' := world_of (Stop ctx_expires w) in
  chans w' = chans w /\ timers w' = timers w /\ watchers w' = watchers w.
Proof.
  rewrite Stop_result. simpl.
  destruct (srv (mgr w)) as [s|]; [| done].
  unfold Shutdown. simpl. by destruct (servers w !! s).
Qed.

(** * Enable *)

Lemma Start_running (w : World) (s : loc) :
  srv (mgr w) = Some s -> Start w = Ok err_nil w.
Proof. intros H. unfold Start, bind, get, ret. by rewrite H. Qed.

Lemma Start_lazy (w : World) :
  srv (mgr w) = None ->
  Start w = Ok err_nil
    (with_trace (fun t => t ++ [EListenAndServe (fresh_loc (servers w))])
       (with_mgr (set_srv (Some (fresh_loc (servers w))))
          (with_servers
             (insert (fresh_loc (servers w))
                (mkServer ("127.0.0.1:" +:+ itoa (port (mgr w))) false)) w))).
Proof. intros H. unfold Start, bind, get, ret, modify, emit. by rewrite H. Qed.

(** C6: [Enable] of a project whose id is already in the project map returns
    nil and does what [Start] alone does: no watcher is opened, no tree is
    walked, no project state is touched. *)
Theorem Enable_idempotent (U : GoUnicode) (p : Project) (w : World) (l : loc) :
  projects (mgr w) !! ID p = Some l ->
  exists w', Enable U (Some p) w = Ok err_nil w' /\
    Start w = Ok err_nil w' /\
    projects (mgr w') = projects (mgr w) /\
    pstates w' = pstates w /\
    watchers w' = watchers w /\
    watchers_left w' = watchers_left w /\
    chans w' = chans w /\
    timers w' = timers w /\
    (trace w' = trace w \/
     exists s, srv (mgr w) = None /\ trace w' = trace w ++ [EListenAndServe s]) /\
    (is_Some (srv (mgr w)) -> w' = w).
Proof.
  intros Hp. unfold Enable. destruct (srv (mgr w)) as [s|] eqn:Hs.
  - rewrite (bind_Ok _ _ _ _ _ (Start_running w s Hs)).
    unfold bind, get. rewrite Hp. exists w.
    rewrite (Start_running w s Hs). repeat split; auto.
  - rewrite (bind_Ok _ _ _ _ _ (Start_lazy w Hs)).
    unfold bind, get. simpl. rewrite Hp. eexists.
    rewrite (Start_lazy w Hs). repeat split; eauto.
    intros [? ?]. done.
Qed.

(** * The watch loop *)

Lemma arms_app (tr1 tr2 : list Effect) : arms (tr1 ++ tr2) = arms tr1 ++ arms tr2.
Proof.
  induction tr1 as [|e tr1 IH]; simpl; [done |].
  destruct e; simpl; by rewrite ?IH.
Qed.

Lemma fires_app pid (tr1 tr2 : list Effect) :
  fires pid (tr1 ++ tr2) = fires pid tr1 ++ fires pid tr2.
Proof.
  induction tr1 as [|e tr1 IH]; simpl; [done |].
  destruct e; simpl; rewrite ?IH; try done.
  by destruct (String.eqb project pid).
Qed.

Lemma quiet_ext_refl tr : quiet_ext tr tr.
Proof. by split. Qed.

Lemma same_watchers_refl ws : same_watchers ws ws.
Proof. intros k wt H. eauto. Qed.

Lemma for_each_Add (wl : loc) (dirs : list string) (w : World) :
  is_Some (watchers w !! wl) ->
  exists ws tr,
    for_each dirs (fun path => let* _ := watcher_Add wl path in ret tt) w
    = Ok tt (with_trace (fun _ => tr) (with_watchers (fun _ => ws) w))
    /\ same_watchers (watchers w) ws /\ quiet_ext (trace w) tr.
Proof.
  revert w. induction dirs as [|d dirs IH]; intros w [wt Hwt]; simpl.
  - exists (watchers w), (trace w). split; [by destruct w |].
    split; [apply same_watchers_refl | apply quiet_ext_refl].
  - unfold bind at 1 2. unfold watcher_Add at 1. rewrite Hwt.
    destruct (w_closed wt) eqn:Hcl; unfold ret at 1.
    + apply IH. eauto.
    + edestruct (IH (with_trace (fun tr => tr ++ [EWatcherAdd wl d])
                       (with_watchers (insert wl (mkWatcher false (w_dirs wt ++ [d]))) w)))
        as (ws & tr & Heq & Hws & Htr).
      { simpl. rewrite lookup_insert_eq. eauto. }
      exists ws, tr. rewrite Heq. split; [done |]. simpl in *. split.
      * intros k wt0 Hk. destruct (decide (k = wl)) as [->|Hne].
        -- destruct (Hws wl (mkWatcher false (w_dirs wt ++ [d]))) as (wt' & ? & ?);
             [by rewrite lookup_insert_eq |].
           exists wt'. split; [done |]. simpl in *. congruence.
        -- apply Hws. by rewrite lookup_insert_ne.
      * destruct Htr as [Ha Hf]. split.
        -- rewrite Ha, arms_app. simpl. by rewrite app_nil_r.
        -- intros pid. rewrite Hf, fires_app. simpl. by rewrite app_nil_r.
Qed.

Lemma addWatchRecursive_frame (U : GoUnicode) (wl : loc) (root : string)
    (w : World) :
  is_Some (watchers w !! wl) ->
  exists ws tr,
    addWatchRecursive U wl root w
    = Ok err_nil (with_trace (fun _ => tr) (with_watchers (fun _ => ws) w))
    /\ same_watchers (watchers w) ws /\ quiet_ext (trace w) tr.
Proof.
  intros Hwl. unfold addWatchRecursive, bind at 1, emit, modify.
  unfold bind at 1, get. simpl.
  destruct (node_at (split_path root) (fsys w)) as [n|].
  - edestruct (for_each_Add wl (walk_dirs U root n)
                 (with_trace (fun t => t ++ [EWalkDir root]) w))
      as (ws & tr & Heq & Hws & [Ha Hf]); [done |].
    rewrite (bind_Ok _ _ _ _ _ Heq). unfold ret. exists ws, tr. split; [done |].
    split; [done |]. simpl in *. split.
    + rewrite Ha, arms_app. simpl. by rewrite app_nil_r.
    + intros pid. rewrite Hf, fires_app. simpl. by rewrite app_nil_r.
  - exists (watchers w), (trace w ++ [EWalkDir root]).
    split; [by destruct w |]. split; [apply same_watchers_refl |]. split.
    + rewrite arms_app. simpl. by rewrite app_nil_r.
    + intros pid. rewrite fires_app. simpl. by rewrite app_nil_r.
Qed.

(** * Re-arming the debounce timer *)

Lemma alter_fixed {A} (f : A -> A) (m : gmap loc A) (k : loc) (x : A) :
  m !! k = Some x -> f x = x -> alter f k m = m.
Proof.
  intros Hk Hf. apply map_eq. intros i. destruct (decide (i = k)) as [->|Hne].
  - rewrite lookup_alter_eq, Hk. simpl. by rewrite Hf.
  - by rewrite lookup_alter_ne.
Qed.

Lemma stop_timer_result (t : option loc) (w : World) :
  (forall t', t = Some t' -> is_Some (timers w !! t')) ->
  exists tr,
    (match t with
     | Some t' => let* _ := timer_Stop t' in ret tt
     | None => ret tt
     end) w
    = Ok tt (with_trace (fun _ => tr) (with_timers (stop_timer t) w))
    /\ quiet_ext (trace w) tr.
Proof.
  intros Ht. destruct t as [t'|]; simpl.
  - destruct (Ht t' eq_refl) as [tm Htm].
    unfold bind, timer_Stop, ret. rewrite Htm.
    destruct (tm_state tm) eqn:Hst.
    + eexists. split.
      * f_equal. unfold with_trace, with_timers. simpl. do 2 f_equal.
        apply map_eq. intros i. destruct (decide (i = t')) as [->|Hne].
        -- rewrite lookup_insert_eq, lookup_alter_eq, Htm. simpl.
           unfold stopped_timer. by rewrite Hst.
        -- by rewrite lookup_insert_ne, lookup_alter_ne.
      * split; simpl.
        -- rewrite arms_app. simpl. by rewrite app_nil_r.
        -- intros pid. rewrite fires_app. simpl. by rewrite app_nil_r.
    + exists (trace w). split; [| apply quiet_ext_refl].
      f_equal. unfold with_trace, with_timers, stop_timer. simpl.
      rewrite (alter_fixed stopped_timer (timers w) t' tm Htm)
        by (unfold stopped_timer; by rewrite Hst).
      by destruct w.
    + exists (trace w). split; [| apply quiet_ext_refl].
      f_equal. unfold with_trace, with_timers, stop_timer. simpl.
      rewrite (alter_fixed stopped_timer (timers w) t' tm Htm)
        by (unfold stopped_timer; by rewrite Hst).
      by destruct w.
  - exists (trace w). split; [by destruct w | apply quiet_ext_refl].
Qed.

(** [debounced]: the old timer is stopped, a new one is pending a quiet
    window from now, and the state points to it. *)
Lemma debounced_result (projectID : string) (st : loc) (s : projectState)
    (w : World) :
  pstates w !! st = Some s ->
  (forall t, debounce s = Some t -> is_Some (timers w !! t)) ->
  let tms := stop_timer (debounce s) (timers w) in
  let l := fresh_loc tms in
  let when := (now w + quiet_window)%Z in
  exists tr,
    debounced projectID st w
    = Ok tt (with_pstates (insert st (set_debounce (Some l) s))
               (with_trace (fun _ => tr)
                  (with_timers
                     (fun _ => <[l := mkTimer when projectID TimerPending]> tms) w)))
    /\ arms tr = arms (trace w) ++ [(projectID, when)]
    /\ forall pid, fires pid tr = fires pid (trace w).
Proof.
  intros Hs Ht tms l when.
  unfold debounced, bind at 1, load_state. rewrite Hs.
  destruct (stop_timer_result (debounce s) w Ht) as (tr & Hstop & [Ha Hf]).
  rewrite (bind_Ok _ _ _ _ _ Hstop).
  unfold bind, AfterFunc, modify. simpl.
  eexists. split; [reflexivity |]. simpl. split.
  - rewrite arms_app, Ha. done.
  - intros pid. rewrite fires_app, Hf. simpl. by rewrite app_nil_r.
Qed.

Lemma land_significant (op : Z) :
  Z.land op significant <> 0%Z <->
  (Z.land op fsnotify.Write <> 0 \/ Z.land op fsnotify.Create <> 0 \/
   Z.land op fsnotify.Remove <> 0 \/ Z.land op fsnotify.Rename <> 0)%Z.
Proof.
  unfold significant. rewrite !Z.land_lor_distr_r, !Z.lor_eq_0_iff.
  split.
  - intros H.
    destruct (Z.eq_dec (Z.land op fsnotify.Write) 0%Z);
    destruct (Z.eq_dec (Z.land op fsnotify.Create) 0%Z);
    destruct (Z.eq_dec (Z.land op fsnotify.Remove) 0%Z);
    destruct (Z.eq_dec (Z.land op fsnotify.Rename) 0%Z); tauto.
  - tauto.
Qed.

Lemma qualifies_dec (U : GoUnicode) (ev : Event) :
  (isIgnoredPath U (Name ev) = false
   /\ negb (Z.land (Op ev) significant =? 0)%Z = true) <-> qualifies U ev.
Proof.
  unfold qualifies, has_kind. rewrite <- land_significant.
  rewrite negb_true_iff, Z.eqb_neq. done.
Qed.

Lemma classic_qualifies (U : GoUnicode) (ev : Event) :
  qualifies U ev \/ ~ qualifies U ev.
Proof.
  rewrite <- qualifies_dec.
  destruct (isIgnoredPath U (Name ev));
    destruct (negb (Z.land (Op ev) significant =? 0)%Z); intuition congruence.
Qed.

Lemma world_eta_watchers (w : World) :
  w = with_trace (fun _ => trace w) (with_watchers (fun _ => watchers w) w).
Proof. by destruct w. Qed.

(** One event through the loop: after the watches for a new directory are
    added, the timer is re-armed or the turn is over. *)
Lemma watchLoop_step_event (U : GoUnicode) (projectID : string) (st : loc)
    (s : projectState) (ev : Event) (w : World) :
  pstates w !! st = Some s ->
  is_Some (watchers w !! watcher s) ->
  exists ws tr0,
    same_watchers (watchers w) ws /\ quiet_ext (trace w) tr0 /\
    let w1 := with_trace (fun _ => tr0) (with_watchers (fun _ => ws) w) in
    (qualifies U ev ->
       watchLoop_step U projectID st (RecvEvent ev true) w
       = (debounced projectID st ;; ret true) w1) /\
    (~ qualifies U ev ->
       watchLoop_step U projectID st (RecvEvent ev true) w = Ok true w1).
Proof.
  intros Hs Hw.
  assert (exists ws tr0,
    same_watchers (watchers w) ws /\ quiet_ext (trace w) tr0 /\
    (if negb (Z.land (Op ev) fsnotify.Create =? 0)%Z
     then let* w0 := get in
          match Stat (fsys w0) (Name ev) with
          | Some true =>
            let* _ := addWatchRecursive U (watcher s) (Name ev) in ret tt
          | _ => ret tt
          end
     else ret tt) w
    = Ok tt (with_trace (fun _ => tr0) (with_watchers (fun _ => ws) w)))
    as (ws & tr0 & Hws & Htr & Hnew).
  { destruct (negb (Z.land (Op ev) fsnotify.Create =? 0)%Z).
    - unfold bind at 1, get.
      destruct (Stat (fsys w) (Name ev)) as [[]|].
      + destruct (addWatchRecursive_frame U (watcher s) (Name ev) w Hw)
          as (ws & tr0 & Heq & Hws & Htr).
        exists ws, tr0. rewrite (bind_Ok _ _ _ _ _ Heq).
        split; [done |]. split; [done |]. reflexivity.
      + exists (watchers w), (trace w).
        split; [apply same_watchers_refl |]. split; [apply quiet_ext_refl |].
        unfold ret. f_equal. apply world_eta_watchers.
      + exists (watchers w), (trace w).
        split; [apply same_watchers_refl |]. split; [apply quiet_ext_refl |].
        unfold ret. f_equal. apply world_eta_watchers.
    - exists (watchers w), (trace w).
      split; [apply same_watchers_refl |]. split; [apply quiet_ext_refl |].
      unfold ret. f_equal. apply world_eta_watchers. }
  exists ws, tr0. split; [done |]. split; [done |].
  unfold watchLoop_step. cbn [negb].
  rewrite (bind_Ok (load_state st) _ w s w)
    by (unfold load_state; by rewrite Hs).
  rewrite (bind_Ok _ _ _ _ _ Hnew).
  split; intros Hq.
  - apply qualifies_dec in Hq as [-> ->]. reflexivity.
  - destruct (isIgnoredPath U (Name ev)) eqn:Hig; [reflexivity |].
    destruct (negb (Z.land (Op ev) significant =? 0)%Z) eqn:Hop; [| reflexivity].
    exfalso. apply Hq, qualifies_dec. done.
Qed.

Lemma app_singleton_neq {A} (l : list A) (x : A) : l <> l ++ [x].
Proof.
  intros H. assert (length l = length (l ++ [x])) as Hl by congruence.
  rewrite length_app in Hl. simpl in Hl. lia.
Qed.

(** C7: an event re-arms the debounce timer exactly when its path is not
    ignored and its kind has one of write, create, remove and rename; any
    other event leaves every timer and every project state as they were. *)
Theorem watchLoop_rearms_iff (U : GoUnicode) (projectID : string) (st : loc)
    (s : projectState) (ev : Event) (w : World) :
  pstates w !! st = Some s ->
  is_Some (watchers w !! watcher s) ->
  (forall t, debounce s = Some t -> is_Some (timers w !! t)) ->
  exists w', watchLoop_step U projectID st (RecvEvent ev true) w = Ok true w' /\
    (arms (trace w') = arms (trace w) ++ [(projectID, (now w + quiet_window)%Z)]
     <-> qualifies U ev) /\
    (~ qualifies U ev ->
       arms (trace w') = arms (trace w) /\ timers w' = timers w /\
       pstates w' = pstates w /\
       forall pid, fires pid (trace w') = fires pid (trace w)).
Proof.
  intros Hs Hw Ht.
  destruct (watchLoop_step_event U projectID st s ev w Hs Hw)
    as (ws & tr0 & Hws & [Ha Hf] & Hyes & Hno).
  destruct (classic_qualifies U ev) as [Hq|Hq].
  - rewrite (Hyes Hq).
    edestruct (debounced_result projectID st s
                 (with_trace (fun _ => tr0) (with_watchers (fun _ => ws) w)))
      as (tr & Heq & Ha' & Hf'); [done | done |].
    rewrite (bind_Ok _ _ _ _ _ Heq). unfold ret. eexists. split; [done |].
    simpl in *. split; [| done]. rewrite Ha', Ha. done.
  - rewrite (Hno Hq). eexists. split; [done |]. simpl. split.
    + rewrite Ha. split; [| done]. intros H. by apply app_singleton_neq in H.
    + intros _. done.
Qed.

(** * The events route *)

Lemma http_Error_status (rw : ResponseWriter) (msg : string) (code : Z) :
  status rw = None -> status (http_Error rw msg code) = Some code.
Proof. intros H. unfold http_Error, Write, WriteHeader. simpl. by rewrite H. Qed.

Lemma Write_Flush (data : string) (rw : ResponseWriter) :
  exists c,
    status (Flush (Write data rw)) = Some (default c (status rw)) /\
    body (Flush (Write data rw)) = body rw ++ [data].
Proof.
  exists 200%Z. unfold Flush, Write, WriteHeader.
  destruct (status rw) eqn:H; simpl; rewrite ?H; done.
Qed.

(** The loop writes reload frames only, after whatever was written. *)
Lemma handleEvents_loop_frames (sub : Subscription) (sels : list Select)
    (rw : ResponseWriter) (w : World) (k : nat) :
  status rw = Some 200%Z ->
  body rw = ready_frame :: repeat reload_frame k ->
  exists rw' returned w',
    handleEvents_loop sub sels rw w = Ok (rw', returned) w' /\
    status rw' = Some 200%Z /\
    exists k', body rw' = ready_frame :: repeat reload_frame k'.
Proof.
  revert rw w k. induction sels as [|sel sels IH]; intros rw w k Hst Hb.
  - simpl. exists rw, false, w. eauto.
  - destruct sel; simpl.
    + exists rw, true, w. eauto.
    + unfold bind, chan_recv.
      destruct (chans w !! sub_chan sub) as [ch|]; [| by apply (IH rw w k)].
      destruct (ch_len ch) as [|n].
      * destruct (ch_closed ch); [| by apply (IH rw w k)].
        exists rw, true, w. eauto.
      * destruct (Write_Flush reload_frame rw) as (c & H1 & H2).
        apply (IH (Flush (Write reload_frame rw)) _ (S k)).
        -- rewrite H1, Hst. done.
        -- rewrite H2, Hb. simpl. f_equal. symmetry. apply repeat_cons.
Qed.

(** C5: the events route answers OPTIONS with 204, any method other than
    GET and OPTIONS with 405, a GET without a project parameter with 400,
    a GET for a project that is not enabled with 404, a GET on a writer
    that cannot stream with 500; a GET that is accepted writes the ready
    frame first and reload frames only after it. *)
Theorem handleEvents_contract (rw : ResponseWriter) (r : Request)
    (random : list Z) (sels : list Select) (w : World) :
  fresh_writer rw ->
  let projectID := Query_Get (Query r) "project" in
  (Method r = "OPTIONS" ->
     exists rw', handleEvents rw r random sels w = Ok (rw', true) w /\
       status rw' = Some 204%Z) /\
  (Method r <> "OPTIONS" -> Method r <> "GET" ->
     exists rw', handleEvents rw r random sels w = Ok (rw', true) w /\
       status rw' = Some 405%Z) /\
  (Method r = "GET" -> projectID = "" ->
     exists rw', handleEvents rw r random sels w = Ok (rw', true) w /\
       status rw' = Some 400%Z) /\
  (Method r = "GET" -> projectID <> "" ->
   projects (mgr w) !! projectID = None ->
     exists rw', handleEvents rw r random sels w = Ok (rw', true) w /\
       status rw' = Some 404%Z) /\
  (Method r = "GET" -> projectID <> "" ->
   is_Some (projects (mgr w) !! projectID) -> is_Flusher rw = false ->
     exists rw', handleEvents rw r random sels w = Ok (rw', true) w /\
       status rw' = Some 500%Z) /\
  (Method r = "GET" -> projectID <> "" ->
   forall l s, projects (mgr w) !! projectID = Some l ->
   pstates w !! l = Some s -> is_Flusher rw = true ->
     exists rw1 sub w1,
       handleEvents_open rw r random w = Ok (rw1, Some sub) w1 /\
       status rw1 = Some 200%Z /\ body rw1 = [ready_frame] /\
       forall w2, exists rw2 returned w3,
         handleEvents_loop sub sels rw1 w2 = Ok (rw2, returned) w3 /\
         status rw2 = Some 200%Z /\
         exists k, body rw2 = ready_frame :: repeat reload_frame k).
Proof.
  intros [Hst Hbody] projectID.
  repeat split.
  - intros Hm. unfold handleEvents, handleEvents_open. rewrite Hm. simpl.
    eexists. split; [reflexivity |].
    unfold WriteHeader. simpl. by rewrite Hst.
  - intros Hno Hng. unfold handleEvents, handleEvents_open.
    apply String.eqb_neq in Hno, Hng.
    unfold http.MethodOptions, http.MethodGet. rewrite Hno, Hng. simpl.
    eexists. split; [reflexivity |]. by apply http_Error_status.
  - intros Hm Hp. unfold handleEvents, handleEvents_open. rewrite Hm. simpl.
    fold projectID. rewrite Hp. simpl.
    eexists. split; [reflexivity |]. by apply http_Error_status.
  - intros Hm Hp Hnone. unfold handleEvents, handleEvents_open. rewrite Hm. simpl.
    fold projectID. apply String.eqb_neq in Hp. rewrite Hp.
    unfold bind, get. rewrite Hnone. simpl.
    eexists. split; [reflexivity |]. by apply http_Error_status.
  - intros Hm Hp [l Hl] Hfl. unfold handleEvents, handleEvents_open.
    rewrite Hm. simpl.
    fold projectID. apply String.eqb_neq in Hp. rewrite Hp.
    unfold bind, get. rewrite Hl. simpl. rewrite Hfl. simpl.
    eexists. split; [reflexivity |]. by apply http_Error_status.
  - intros Hm Hp l s Hl Hs Hfl. unfold handleEvents_open.
    rewrite Hm. simpl.
    fold projectID. apply String.eqb_neq in Hp. rewrite Hp.
    unfold bind, get, chan_make, load_state, modify, ret. rewrite Hl. simpl.
    rewrite Hfl. simpl. rewrite Hl. simpl. rewrite Hs.
    eexists _, _, _. split; [reflexivity |].
    match goal with
    | |- status (Flush (Write ?d ?rw0)) = _ /\ _ =>
      assert (status (Flush (Write d rw0)) = Some 200%Z) as H1
        by (unfold Flush, Write, WriteHeader; simpl; by rewrite Hst);
      assert (body (Flush (Write d rw0)) = [ready_frame]) as H2
        by (unfold Flush, Write, WriteHeader; simpl; rewrite Hst; simpl;
            by rewrite Hbody)
    end.
    split; [exact H1 |]. split; [exact H2 |].
    intros w2. eapply (handleEvents_loop_frames _ _ _ _ 0); [exact H1 | exact H2].
Qed.

(** * Timers coming due *)

Lemma same_chans_refl m : same_chans m m.
Proof. intros c ch H. eauto. Qed.

Lemma send_all_same_chans (cs : list loc) (m : gmap loc Chan) :
  same_chans m (send_all cs m).
Proof.
  unfold send_all. revert m. induction cs as [|x cs IH]; intros m; simpl.
  - apply same_chans_refl.
  - intros c ch Hc.
    destruct (IH (alter try_bump x m) c
                (if decide (c = x) then try_bump ch else ch))
      as (ch' & H1 & H2 & H3).
    { destruct (decide (c = x)) as [->|Hne].
      - by rewrite lookup_alter_eq, Hc.
      - by rewrite lookup_alter_ne. }
    exists ch'. split; [done |].
    destruct (decide (c = x)); [| done].
    rewrite H2, H3. unfold try_bump.
    by destruct (ch_len ch <? ch_cap ch)%nat.
Qed.

Lemma state_ok_frame (w w' : World) (s : projectState) :
  state_ok w s ->
  same_chans (chans w) (chans w') ->
  (forall k, is_Some (watchers w !! k) -> is_Some (watchers w' !! k)) ->
  (forall k, is_Some (timers w !! k) -> is_Some (timers w' !! k)) ->
  state_ok w' s.
Proof.
  intros (Hopen & Hinj & Hw & Ht) Hc Hws Hts. repeat split; auto.
  intros cid c Hcid. destruct (Hopen cid c Hcid) as (ch & Hch & Ho & Hcap).
  destruct (Hc c ch Hch) as (ch' & ? & ? & ?). exists ch'.
  repeat split; congruence.
Qed.

Lemma wf_frame (w w' : World) :
  wf w ->
  mgr w' = mgr w -> pstates w' = pstates w ->
  same_chans (chans w) (chans w') ->
  (forall k, is_Some (watchers w !! k) -> is_Some (watchers w' !! k)) ->
  (forall k, is_Some (timers w !! k) -> is_Some (timers w' !! k)) ->
  wf w'.
Proof.
  intros Hwf Hm Hp Hc Hws Hts pid l Hl. rewrite Hm in Hl.
  destruct (Hwf pid l Hl) as (s & Hs & Hok).
  exists s. rewrite Hp. split; [done |]. by eapply state_ok_frame.
Qed.

Lemma fire_all_other (ls : list loc) (m : gmap loc Timer) (l : loc) :
  l ∉ ls -> fire_all ls m !! l = m !! l.
Proof.
  unfold fire_all. revert m. induction ls as [|x ls IH]; intros m Hl; simpl.
  - done.
  - apply not_elem_of_cons in Hl as [Hne Hl].
    rewrite IH by done. by rewrite lookup_alter_ne.
Qed.

Lemma fired_timer_idem (tm : Timer) : fired_timer (fired_timer tm) = fired_timer tm.
Proof. unfold fired_timer. by destruct (tm_state tm) eqn:H; simpl; rewrite ?H. Qed.

Lemma fire_all_lookup (ls : list loc) (m : gmap loc Timer) (l : loc) :
  l ∈ ls -> fire_all ls m !! l = fired_timer <$> m !! l.
Proof.
  revert m. induction ls as [|x ls IH]; intros m Hl.
  - by apply elem_of_nil in Hl.
  - change (fire_all (x :: ls) m) with (fire_all ls (alter fired_timer x m)).
    destruct (decide (l ∈ ls)) as [Hin|Hnin].
    + rewrite IH by done. destruct (decide (x = l)) as [->|Hne].
      * rewrite lookup_alter_eq. destruct (m !! l); simpl; [| done].
        by rewrite fired_timer_idem.
      * by rewrite lookup_alter_ne.
    + rewrite fire_all_other by done.
      apply elem_of_cons in Hl as [->|Hl]; [| done].
      apply lookup_alter_eq.
Qed.

Lemma fire_all_is_Some (ls : list loc) (m : gmap loc Timer) (k : loc) :
  is_Some (m !! k) -> is_Some (fire_all ls m !! k).
Proof.
  intros [tm Hk]. destruct (decide (k ∈ ls)).
  - rewrite fire_all_lookup, Hk by done. by eexists.
  - rewrite fire_all_other, Hk by done. by eexists.
Qed.

Lemma fire_all_pending (ls : list loc) (m : gmap loc Timer) (l : loc) tm :
  fire_all ls m !! l = Some tm -> tm_state tm = TimerPending ->
  (l ∉ ls) /\ (m !! l = Some tm).
Proof.
  intros Hl Hp. destruct (decide (l ∈ ls)) as [Hin|Hnin].
  - rewrite fire_all_lookup in Hl by done.
    destruct (m !! l) as [tm0|]; [| done]. simpl in Hl.
    injection Hl as <-. unfold fired_timer in Hp.
    destruct (tm_state tm0) eqn:H0; simpl in Hp; congruence.
  - by rewrite fire_all_other in Hl.
Qed.

(** One timer has its turn: if it is pending it fires, and its project is
    broadcast to. *)
Lemma fire_result (pid : string) (l : loc) (w : World) :
  wf w ->
  exists cs tr,
    fire l w
    = Ok tt (with_trace (fun _ => tr)
               (with_chans (fun _ => cs)
                  (with_timers (alter fired_timer l)
                     (with_now (fun _ => fire_time w l) w))))
    /\ same_chans (chans w) cs
    /\ arms tr = arms (trace w)
    /\ fires pid tr
       = fires pid (trace w)
         ++ (if pending_for pid w l then [(l, fire_time w l)] else []).
Proof.
  intros Hwf. unfold fire, bind at 1, get, fire_time, pending_for.
  destruct (timers w !! l) as [tm|] eqn:Hl.
  2:{ exists (chans w), (trace w). split.
      - unfold ret. f_equal. destruct w; unfold with_trace, with_chans,
          with_timers, with_now; simpl in *. f_equal.
        apply map_eq. intros i. destruct (decide (i = l)) as [->|Hne].
        + by rewrite lookup_alter_eq, Hl.
        + by rewrite lookup_alter_ne.
      - split; [apply same_chans_refl |]. split; [done |]. by rewrite app_nil_r. }
  destruct (tm_state tm) eqn:Hst.
  2,3: (exists (chans w), (trace w); split;
        [ unfold ret; f_equal;
          unfold with_trace, with_chans, with_timers, with_now; simpl;
          rewrite (alter_fixed fired_timer (timers w) l tm Hl)
            by (unfold fired_timer; by rewrite Hst);
          by destruct w
        | split; [apply same_chans_refl |]; split; [done |]; by rewrite app_nil_r ]).
  set (at_ := Z.max (now w) (tm_when tm)).
  unfold bind, modify, emit. simpl.
  set (wm := with_trace _ _).
  assert (alter fired_timer l (timers w)
          = <[l := mkTimer (tm_when tm) (tm_project tm) TimerFired]> (timers w))
    as Halt.
  { apply map_eq. intros i. destruct (decide (i = l)) as [->|Hne].
    - rewrite lookup_alter_eq, lookup_insert_eq, Hl. simpl.
      unfold fired_timer. by rewrite Hst.
    - by rewrite lookup_alter_ne, lookup_insert_ne. }
  assert (fires pid (trace wm)
          = fires pid (trace w)
            ++ (if String.eqb (tm_project tm) pid then [(l, at_)] else []))
    as Hfires.
  { subst wm. simpl. rewrite fires_app. simpl.
    by destruct (String.eqb (tm_project tm) pid). }
  assert (arms (trace wm) = arms (trace w)) as Harms.
  { subst wm. simpl. rewrite arms_app. simpl. by rewrite app_nil_r. }
  unfold trigger, bind at 1, get.
  destruct (projects (mgr wm) !! tm_project tm) as [cur|] eqn:Hcur.
  - assert (projects (mgr w) !! tm_project tm = Some cur) as Hcur' by done.
    destruct (Hwf _ _ Hcur') as (s & Hs & Hok).
    assert (state_ok wm s) as Hok'.
    { eapply state_ok_frame; [exact Hok | apply same_chans_refl | done |].
      intros k Hk. subst wm. simpl.
      destruct (decide (k = l)) as [->|Hne].
      - rewrite lookup_insert_eq. by eexists.
      - by rewrite lookup_insert_ne. }
    destruct (trigger_tracked (tm_project tm) wm cur s Hcur Hs Hok')
      as [sent Hsent].
    unfold trigger, bind at 1, get in Hsent. rewrite Hcur in Hsent.
    rewrite Hsent.
    exists (send_all (map_to_list (clients s)).*2 (chans w)),
           (trace wm ++ map EChanSend sent).
    split; [| split; [apply send_all_same_chans | split]].
    + f_equal. subst wm. unfold with_trace, with_chans, with_timers, with_now.
      simpl. by rewrite Halt.
    + rewrite arms_app, Harms.
      assert (arms (map EChanSend sent) = []) as ->
        by (clear; induction sent; simpl; auto).
      by rewrite app_nil_r.
    + rewrite fires_app, Hfires.
      assert (fires pid (map EChanSend sent) = []) as ->
        by (clear; induction sent; simpl; auto).
      by rewrite app_nil_r.
  - exists (chans w), (trace wm). split; [| split; [apply same_chans_refl | done]].
    unfold ret. f_equal. subst wm.
    unfold with_trace, with_chans, with_timers, with_now. simpl.
    by rewrite Halt.
Qed.

Lemma pending_for_due (pid : string) (w : World) (l : loc) :
  pending_for pid w l = true ->
  exists tm, timers w !! l = Some tm /\ tm_state tm = TimerPending
             /\ tm_project tm = pid.
Proof.
  unfold pending_for. destruct (timers w !! l) as [tm|]; [| done].
  destruct (tm_state tm) eqn:Hst; try done.
  intros H%String.eqb_eq. eauto.
Qed.

Lemma fire_time_bounds (w : World) (l : loc) :
  (now w <= fire_time w l)%Z /\
  (pending_for (match timers w !! l with Some tm => tm_project tm | None => "" end) w l = true ->
   forall tm, timers w !! l = Some tm -> (tm_when tm <= fire_time w l)%Z) /\
  (forall B, (now w <= B)%Z ->
     (forall tm, timers w !! l = Some tm -> tm_state tm = TimerPending ->
        (tm_when tm <= B)%Z) ->
     (fire_time w l <= B)%Z).
Proof.
  unfold fire_time, pending_for.
  destruct (timers w !! l) as [tm|]; [| repeat split; intros; (lia || done)].
  destruct (tm_state tm) eqn:Hst; repeat split; intros; try (lia || done).
  - injection H0 as <-. lia.
  - specialize (H0 tm eq_refl Hst). lia.
Qed.

(** The timers of [ls] have their turn one after the other. *)
Lemma for_each_fire (pid : string) (ls : list loc) (w : World) :
  NoDup ls -> wf w ->
  exists cs tr nw new,
    for_each ls fire w
    = Ok tt (with_trace (fun _ => tr)
               (with_chans (fun _ => cs)
                  (with_timers (fire_all ls) (with_now (fun _ => nw) w))))
    /\ same_chans (chans w) cs
    /\ arms tr = arms (trace w)
    /\ fires pid tr = fires pid (trace w) ++ new
    /\ new.*1 = filter (fun l => pending_for pid w l = true) ls
    /\ Forall (fun la => exists tm, timers w !! la.1 = Some tm
                                   /\ (tm_when tm <= la.2)%Z) new
    /\ (now w <= nw)%Z
    /\ (forall B, (now w <= B)%Z ->
          (forall l tm, l ∈ ls -> timers w !! l = Some tm ->
             tm_state tm = TimerPending -> (tm_when tm <= B)%Z) ->
          (nw <= B)%Z).
Proof.
  revert w. induction ls as [|x ls IH]; intros w Hnd Hwf.
  - exists (chans w), (trace w), (now w), []. simpl.
    split; [unfold ret; f_equal; by destruct w |].
    split; [apply same_chans_refl |]. split; [done |].
    split; [by rewrite app_nil_r |]. split; [done |].
    split; [constructor |]. split; [lia |]. auto.
  - apply NoDup_cons in Hnd as [Hx Hnd].
    destruct (fire_result pid x w Hwf) as (cs1 & tr1 & Hfire & Hcs1 & Ha1 & Hf1).
    simpl. rewrite (bind_Ok _ _ _ _ _ Hfire).
    set (w1 := with_trace _ _) in *.
    assert (wf w1) as Hwf1.
    { eapply wf_frame; [exact Hwf | done | done | done | done |].
      intros k [tm Hk]. subst w1. simpl.
      destruct (decide (k = x)) as [->|Hne].
      - rewrite lookup_alter_eq, Hk. by eexists.
      - rewrite lookup_alter_ne, Hk by done. by eexists. }
    destruct (IH w1 Hnd Hwf1)
      as (cs & tr & nw & new & Heq & Hcs & Ha & Hf & Hnew & Hall & Hnow & Hbound).
    assert (forall l, l ∈ ls -> timers w1 !! l = timers w !! l) as Hsame.
    { intros l Hl. subst w1. simpl. rewrite lookup_alter_ne; [done |].
      intros ->. done. }
    destruct (fire_time_bounds w x) as (Hft1 & _ & Hft3).
    exists cs, tr, nw,
      ((if pending_for pid w x then [(x, fire_time w x)] else []) ++ new).
    split; [| split; [| split; [| split; [| split; [| split; [| split]]]]]].
    + rewrite Heq. f_equal.
    + intros c ch Hc. destruct (Hcs1 c ch Hc) as (ch1 & H1 & H2 & H3).
      destruct (Hcs c ch1) as (ch2 & ? & ? & ?); [done |].
      exists ch2. repeat split; congruence.
    + rewrite Ha. subst w1. simpl. done.
    + rewrite Hf. subst w1. simpl. rewrite Hf1. by rewrite app_assoc.
    + rewrite fmap_app, Hnew.
      assert (filter (fun l => pending_for pid w1 l = true) ls
              = filter (fun l => pending_for pid w l = true) ls) as ->.
      { clear -Hsame. induction ls as [|y ls IHl]; [done |].
        rewrite !filter_cons.
        assert (pending_for pid w1 y = pending_for pid w y) as ->.
        { unfold pending_for. rewrite Hsame; [done | by left]. }
        rewrite IHl; [done |]. intros l Hl. apply Hsame. by right. }
      destruct (pending_for pid w x) eqn:Hpx; simpl.
      * by rewrite filter_cons_True.
      * rewrite filter_cons_False; [done |]. by rewrite Hpx.
    + apply Forall_app. split.
      * destruct (pending_for pid w x) eqn:Hpx; [| constructor].
        constructor; [| constructor]. simpl.
        apply pending_for_due in Hpx as (tm & Htm & Hst & _).
        exists tm. split; [done |]. unfold fire_time. rewrite Htm, Hst. lia.
      * eapply Forall_impl; [exact Hall |].
        intros [l a] (tm & Htm & Hle). simpl in *.
        destruct (decide (l = x)) as [->|Hne].
        -- subst w1. simpl in Htm. rewrite lookup_alter_eq in Htm.
           destruct (timers w !! x) as [tm0|] eqn:H0; [| done].
           simpl in Htm. injection Htm as <-. exists tm0. split; [done |].
           unfold fired_timer in Hle. by destruct (tm_state tm0).
        -- subst w1. simpl in Htm. rewrite lookup_alter_ne in Htm by done.
           eauto.
    + subst w1. simpl in Hnow. lia.
    + intros B HB Hall'. apply Hbound.
      * subst w1. simpl. apply Hft3; [done |].
        intros tm Htm Hst. apply (Hall' x tm); [by left | done | done].
      * intros l tm Hl Htm Hst. rewrite Hsame in Htm by done.
        apply (Hall' l tm); [by right | done | done].
Qed.

Lemma elem_of_due (t : Z) (w : World) (l : loc) :
  l ∈ due t w <-> exists tm, timers w !! l = Some tm /\ is_due t tm = true.
Proof.
  unfold due. rewrite list_elem_of_fmap. split.
  - intros ([l' tm] & -> & Hin). rewrite merge_sort_Permutation in Hin.
    apply list_elem_of_filter in Hin as [Hdue Hin].
    apply elem_of_map_to_list in Hin. eauto.
  - intros (tm & Htm & Hdue). exists (l, tm). split; [done |].
    rewrite merge_sort_Permutation. apply list_elem_of_filter.
    split; [done |]. by apply elem_of_map_to_list.
Qed.

Lemma NoDup_due (t : Z) (w : World) : NoDup (due t w).
Proof.
  unfold due. rewrite merge_sort_Permutation.
  eapply NoDup_fmap_2_strong.
  - intros [l1 t1] [l2 t2] [_ H1%elem_of_map_to_list]%list_elem_of_filter
           [_ H2%elem_of_map_to_list]%list_elem_of_filter Heq.
    simpl in Heq. subst l2. congruence.
  - apply NoDup_filter, NoDup_map_to_list.
Qed.

Lemma is_due_spec (t : Z) (tm : Timer) :
  is_due t tm = true <-> tm_state tm = TimerPending /\ (tm_when tm <= t)%Z.
Proof.
  unfold is_due. destruct (tm_state tm); rewrite ?Z.leb_le; intuition congruence.
Qed.

(** The clock moves to [t]: what fired, and what the world is then. *)
Lemma advance_to_result (pid : string) (t : Z) (w : World) :
  wf w -> (now w <= t)%Z ->
  exists cs tr new,
    advance_to t w
    = Ok tt (with_trace (fun _ => tr)
               (with_chans (fun _ => cs)
                  (with_timers (fire_all (due t w)) (with_now (fun _ => t) w))))
    /\ same_chans (chans w) cs
    /\ arms tr = arms (trace w)
    /\ fires pid tr = fires pid (trace w) ++ new
    /\ new.*1 = filter (fun l => pending_for pid w l = true) (due t w)
    /\ Forall (fun la => exists tm, timers w !! la.1 = Some tm
                                   /\ (tm_when tm <= la.2)%Z) new.
Proof.
  intros Hwf Hnow.
  destruct (for_each_fire pid (due t w) w (NoDup_due t w) Hwf)
    as (cs & tr & nw & new & Heq & Hcs & Ha & Hf & Hnew & Hall & Hle & Hb).
  exists cs, tr, new. split; [| done].
  unfold advance_to, bind at 1, get. rewrite (bind_Ok _ _ _ _ _ Heq).
  unfold modify. f_equal.
  assert (nw <= t)%Z as Hnw.
  { apply Hb; [done |]. intros l tm [tm' [Htm' Hdue]]%elem_of_due Htm _.
    assert (tm' = tm) as -> by congruence. by apply is_due_spec in Hdue as [_ ?]. }
  unfold with_now, with_trace, with_chans, with_timers. simpl.
  f_equal. lia.
Qed.

Lemma filter_none {A} (P : A -> Prop) `{forall x, Decision (P x)} (l : list A) :
  (forall x, x ∈ l -> ~ P x) -> filter P l = [].
Proof.
  induction l as [|x l IH]; intros Hl; [done |].
  rewrite filter_cons_False by (apply Hl; by left).
  apply IH. intros y Hy. apply Hl. by right.
Qed.

(** * The debounce window *)

Section Debounce.
Context (U : GoUnicode) (projectID : string) (st : loc).

Lemma no_pending_only (d : Z) (w : World) :
  no_pending projectID w -> pending_only projectID st d w.
Proof. intros H l tm Hl Hp Hs. by destruct (H l tm Hl Hp). Qed.

(** Moving the clock to a time before the pending timer is due fires
    nothing of the project. *)
Lemma advance_quiet (d t : Z) (w : World) :
  loop_inv projectID st d w -> (now w <= t)%Z -> (t < d)%Z ->
  exists w1, advance_to t w = Ok tt w1 /\
    loop_inv projectID st d w1 /\ now w1 = t /\
    fires projectID (trace w1) = fires projectID (trace w) /\
    arms (trace w1) = arms (trace w).
Proof.
  intros (Hwf & (s & Hs & Hwt & Htm) & Hpend) Hnow Hlt.
  destruct (advance_to_result projectID t w Hwf Hnow)
    as (cs & tr & new & Heq & Hcs & Ha & Hf & Hnew & Hall).
  eexists. split; [exact Heq |].
  assert (new = []) as ->.
  { rewrite filter_none in Hnew; [by destruct new |].
    intros l [tm [Htm' Hdue]]%elem_of_due Hp.
    apply pending_for_due in Hp as (tm' & Htm'' & Hst & Hpid).
    assert (tm' = tm) as -> by congruence.
    apply is_due_spec in Hdue as [_ Hle].
    destruct (Hpend l tm Htm' Hpid Hst) as [_ Hd]. lia. }
  simpl. split; [| split; [done | split; [by rewrite Hf, app_nil_r | done]]].
  split; [| split].
  - eapply wf_frame; [exact Hwf | done | done | done | done |].
    intros k Hk. simpl. by apply fire_all_is_Some.
  - exists s. simpl. split; [done |]. split; [done |].
    intros t0 Ht0. apply fire_all_is_Some. by apply Htm.
  - intros l tm Hl Hp Hst. simpl in Hl.
    apply fire_all_pending in Hl as [_ Hl]; [| done].
    apply (Hpend l tm Hl Hp Hst).
Qed.

(** A qualifying event stops the pending timer and arms a new one, due a
    quiet window from now. *)
Lemma step_rearm (d : Z) (ev : Event) (w : World) :
  loop_inv projectID st d w -> qualifies U ev ->
  exists w2,
    watchLoop_step U projectID st (RecvEvent ev true) w = Ok true w2 /\
    loop_inv projectID st (now w + quiet_window) w2 /\ now w2 = now w /\
    fires projectID (trace w2) = fires projectID (trace w) /\
    arms (trace w2)
    = arms (trace w) ++ [(projectID, (now w + quiet_window)%Z)] /\
    exists l, timers w2 !! l
              = Some (mkTimer (now w + quiet_window) projectID TimerPending).
Proof.
  intros (Hwf & (s & Hs & (wt & Hwt & Hopen) & Htm) & Hpend) Hq.
  destruct (watchLoop_step_event U projectID st s ev w Hs)
    as (ws & tr0 & Hws & [Ha0 Hf0] & Hyes & _); [by eexists |].
  rewrite (Hyes Hq).
  edestruct (debounced_result projectID st s
               (with_trace (fun _ => tr0) (with_watchers (fun _ => ws) w)))
    as (tr & Heq & Ha & Hf); [done | done |].
  rewrite (bind_Ok _ _ _ _ _ Heq). unfold ret. eexists. split; [done |].
  simpl in *.
  set (tms := stop_timer (debounce s) (timers w)) in *.
  set (l := fresh_loc tms) in *.
  assert (forall k, is_Some (timers w !! k) ->
            is_Some ((<[l := mkTimer (now w + quiet_window) projectID TimerPending]> tms) !! k))
    as Hkeep.
  { intros k [tm Hk]. destruct (decide (k = l)) as [->|Hne].
    - rewrite lookup_insert_eq. by eexists.
    - rewrite lookup_insert_ne by done. subst tms. unfold stop_timer.
      destruct (debounce s) as [t0|]; [| by eexists].
      destruct (decide (k = t0)) as [->|Hne'].
      + rewrite lookup_alter_eq, Hk. by eexists.
      + rewrite lookup_alter_ne, Hk by done. by eexists. }
  assert (forall k, is_Some (watchers w !! k) -> is_Some (ws !! k)) as Hwkeep.
  { intros k [wt0 Hk]. destruct (Hws k wt0 Hk) as (wt' & ? & _). by eexists. }
  split; [| split; [done | split; [by rewrite Hf, Hf0 |]]].
  - split; [| split].
    + intros pid l0 Hl0. simpl in *.
      destruct (Hwf pid l0 Hl0) as (s0 & Hs0 & Hok0).
      destruct (decide (l0 = st)) as [->|Hne].
      * assert (s0 = s) as -> by congruence.
        exists (set_debounce (Some l) s). rewrite lookup_insert_eq.
        split; [done |].
        destruct Hok0 as (H1 & H2 & H3 & H4). repeat split; simpl; auto.
        intros t0 [= <-]. rewrite lookup_insert_eq. by eexists.
      * exists s0. rewrite lookup_insert_ne by done. split; [done |].
        eapply state_ok_frame; [exact Hok0 | apply same_chans_refl | done | done].
    + exists (set_debounce (Some l) s). simpl. rewrite lookup_insert_eq.
      split; [done |]. split.
      * destruct (Hws _ _ Hwt) as (wt' & Hwt' & Hcl). exists wt'.
        split; [done |]. congruence.
      * intros t0 [= <-]. rewrite lookup_insert_eq. by eexists.
    + intros l' tm Hl' Hp Hst. simpl in *.
      destruct (decide (l' = l)) as [->|Hne].
      * rewrite lookup_insert_eq in Hl'. injection Hl' as <-. simpl.
        split; [| done]. exists (set_debounce (Some l) s).
        by rewrite lookup_insert_eq.
      * exfalso. rewrite lookup_insert_ne in Hl' by done.
        subst tms. unfold stop_timer in Hl'.
        destruct (debounce s) as [t0|] eqn:Hd.
        -- destruct (decide (l' = t0)) as [->|Hne'].
           ++ rewrite lookup_alter_eq in Hl'.
              destruct (timers w !! t0) as [tm0|]; [| done].
              simpl in Hl'. injection Hl' as <-.
              unfold stopped_timer in Hst.
              destruct (tm_state tm0) eqn:H0; simpl in Hst; congruence.
           ++ rewrite lookup_alter_ne in Hl' by done.
              destruct (Hpend l' tm Hl' Hp Hst) as [(s' & Hs' & Hd') _].
              congruence.
        -- destruct (Hpend l' tm Hl' Hp Hst) as [(s' & Hs' & Hd') _].
           congruence.
  - split; [by rewrite Ha, Ha0 |]. exists l. by rewrite lookup_insert_eq.
Qed.
Lemma watcher_is_closed_ready (d : Z) (w : World) :
  loop_inv projectID st d w -> watcher_is_closed st w = false.
Proof.
  intros (_ & (s & Hs & (wt & Hwt & Hopen) & _) & _).
  unfold watcher_is_closed. by rewrite Hs, Hwt.
Qed.

(** A burst leaves exactly one timer of the project pending, due a quiet
    window after the last event, and fires nothing on the way. *)
Lemma watchLoop_burst (rest : list (Z * Event)) :
  forall (t : Z) (ev : Event) (w : World) (d : Z),
  loop_inv projectID st d w -> (now w <= t)%Z -> (t < d)%Z ->
  qualifies U ev -> Forall (qualifies U) rest.*2 ->
  within_window t rest.*1 ->
  exists w',
    watchLoop U projectID st ((t, ev) :: rest) w = Ok tt w' /\
    loop_inv projectID st (last_time t rest.*1 + quiet_window) w' /\
    now w' = last_time t rest.*1 /\
    fires projectID (trace w') = fires projectID (trace w) /\
    arms (trace w')
    = arms (trace w)
      ++ map (fun t0 => (projectID, (t0 + quiet_window)%Z)) (t :: rest.*1) /\
    exists l, timers w' !! l
              = Some (mkTimer (last_time t rest.*1 + quiet_window)
                              projectID TimerPending).
Proof.
  induction rest as [|[t' ev'] rest IH]; intros t ev w d Hinv Hnow Hlt Hq Hqs Hwin.
  - destruct (advance_quiet d t w Hinv Hnow Hlt)
      as (w1 & Hadv & Hinv1 & Hn1 & Hf1 & Ha1).
    destruct (step_rearm d ev w1 Hinv1 Hq)
      as (w2 & Hstep & Hinv2 & Hn2 & Hf2 & Ha2 & Hl).
    cbn [watchLoop]. rewrite (bind_Ok _ _ _ _ _ Hadv).
    unfold bind at 1, get. rewrite (watcher_is_closed_ready d w1 Hinv1).
    cbn [negb]. rewrite (bind_Ok _ _ _ _ _ Hstep). cbn [watchLoop].
    exists w2. simpl. rewrite Hn1 in *. split; [done |].
    split; [done |]. split; [congruence |]. split; [congruence |].
    split; [by rewrite Ha2, Ha1 | done].
  - destruct (advance_quiet d t w Hinv Hnow Hlt)
      as (w1 & Hadv & Hinv1 & Hn1 & Hf1 & Ha1).
    destruct (step_rearm d ev w1 Hinv1 Hq)
      as (w2 & Hstep & Hinv2 & Hn2 & Hf2 & Ha2 & Hl).
    rewrite Hn1 in *.
    simpl in Hqs, Hwin. apply Forall_cons in Hqs as [Hq' Hqs].
    destruct Hwin as [[Hle Hlt'] Hwin].
    destruct (IH t' ev' w2 (t + quiet_window)%Z Hinv2) as (w' & Hrun & Hrest);
      [lia | done | done | done | done |].
    change (watchLoop U projectID st ((t, ev) :: (t', ev') :: rest) w)
      with ((advance_to t ;;
             let* w0 := get in
             let* go_on := watchLoop_step U projectID st
                             (RecvEvent ev (negb (watcher_is_closed st w0))) in
             if go_on then watchLoop U projectID st ((t', ev') :: rest)
             else ret tt) w).
    rewrite (bind_Ok _ _ _ _ _ Hadv).
    unfold bind at 1, get. rewrite (watcher_is_closed_ready d w1 Hinv1).
    cbn [negb]. rewrite (bind_Ok _ _ _ _ _ Hstep).
    exists w'. split; [exact Hrun |]. simpl.
    destruct Hrest as (H1 & H2 & H3 & H5 & H4).
    split; [exact H1 |]. split; [exact H2 |]. split; [congruence |].
    split; [| exact H4].
    rewrite H5, Ha2, Ha1, <- app_assoc. reflexivity.
Qed.

Lemma filter_unique (P : loc -> Prop) `{forall x, Decision (P x)}
    (ls : list loc) (x : loc) :
  NoDup ls -> x ∈ ls -> P x -> (forall y, y ∈ ls -> P y -> y = x) ->
  filter P ls = [x].
Proof.
  induction ls as [|y ls IH]; intros Hnd Hx Hp Huniq.
  - by apply elem_of_nil in Hx.
  - apply NoDup_cons in Hnd as [Hy Hnd].
    apply elem_of_cons in Hx as [<-|Hx].
    + rewrite filter_cons_True by done. f_equal.
      apply filter_none. intros z Hz Hpz.
      assert (z = x) as -> by (apply Huniq; [by right | done]). done.
    + rewrite filter_cons_False.
      * apply IH; try done. intros z Hz. apply Huniq. by right.
      * intros Hpy. assert (y = x) as -> by (apply Huniq; [by left | done]).
        done.
Qed.
End Debounce.

(** C3: over a burst of qualifying events, each less than the quiet window
    after the one before, every event arms a timer and every re-arming
    stops the timer pending from the event before; when the clock has
    passed the window after the last event, exactly one timer of the
    project has fired, and it fired no sooner than 250 ms after the last
    event. *)
Theorem debounce_coalesces (U : GoUnicode) (projectID : string) (st : loc)
    (w : World) (t : Z) (ev : Event) (rest : list (Z * Event)) (T : Z) :
  wf w -> loop_ready w st -> no_pending projectID w ->
  (now w <= t)%Z ->
  qualifies U ev -> Forall (qualifies U) rest.*2 ->
  within_window t rest.*1 ->
  (last_time t rest.*1 + quiet_window <= T)%Z ->
  exists w' l at_,
    (watchLoop U projectID st ((t, ev) :: rest) ;; advance_to T) w = Ok tt w' /\
    arms (trace w')
    = arms (trace w) ++ map (fun t0 => (projectID, (t0 + 250)%Z)) (t :: rest.*1) /\
    fires projectID (trace w') = fires projectID (trace w) ++ [(l, at_)] /\
    (last_time t rest.*1 + 250 <= at_)%Z.
Proof.
  intros Hwf Hready Hnone Hnow Hq Hqs Hwin HT.
  destruct (watchLoop_burst U projectID st rest t ev w (t + 1)%Z)
    as (w1 & Hrun & Hinv & Hn1 & Hf1 & Ha1 & l & Hl); try done.
  { split; [done |]. split; [done |]. by apply no_pending_only. }
  { lia. }
  rewrite (bind_Ok _ _ _ _ _ Hrun).
  destruct Hinv as (Hwf1 & Hready1 & Hpend1).
  destruct (advance_to_result projectID T w1 Hwf1)
    as (cs & tr & new & Heq & Hcs & Ha & Hf & Hnew & Hall).
  { unfold quiet_window in HT. lia. }
  rewrite (filter_unique _ _ l) in Hnew.
  - destruct new as [|[l0 a] [|? ?]]; try done. simpl in Hnew.
    injection Hnew as ->.
    eexists _, l, a. split; [exact Heq |]. simpl.
    split; [by rewrite Ha, Ha1 |]. split; [by rewrite Hf, Hf1 |].
    apply Forall_cons in Hall as [(tm & Htm & Hle) _]. simpl in *.
    assert (tm = mkTimer (last_time t rest.*1 + quiet_window) projectID TimerPending)
      as -> by congruence.
    simpl in Hle. unfold quiet_window in Hle. lia.
  - apply NoDup_due.
  - apply elem_of_due. eexists. split; [exact Hl |]. apply is_due_spec. done.
  - unfold pending_for. rewrite Hl. simpl. apply String.eqb_refl.
  - intros y _ Hy. apply pending_for_due in Hy as (tm & Htm & Hst & Hp).
    destruct (Hpend1 y tm Htm Hp Hst) as [(s & Hs & Hd) _].
    destruct (Hpend1 l _ Hl eq_refl eq_refl) as [(s' & Hs' & Hd') _].
    congruence.
Qed.

(** * The ignore policy and the event path *)

(** C10, amended: the predicate is true exactly when the lower-cased path
    contains one of the eight fragments, each a directory name between two
    separators; so a path that names an ignored directory itself, in a
    directory that is not ignored, is not ignored, and an event of a
    significant kind on it re-arms the debounce timer. *)
Theorem isIgnoredPath_fragments (U : GoUnicode) (path dir name : string) :
  (isIgnoredPath U path = true
   <-> exists ig,
         In ig ["/.git/"; "/node_modules/"; "/vendor/"; "/.idea/";
                "/.vscode/"; "/storage/"; "/dist/"; "/bin/"]
         /\ Contains (ToLower U path) ig = true)
  /\ (In name ignored_names ->
      isIgnoredPath U (dir +:+ "/") = false ->
      isIgnoredPath U (dir +:+ "/" +:+ name) = false
      /\ forall projectID st s ev w,
           Name ev = dir +:+ "/" +:+ name ->
           Z.land (Op ev) significant <> 0%Z ->
           pstates w !! st = Some s ->
           is_Some (watchers w !! watcher s) ->
           (forall t, debounce s = Some t -> is_Some (timers w !! t)) ->
           exists w',
             watchLoop_step U projectID st (RecvEvent ev true) w = Ok true w'
             /\ arms (trace w')
                = arms (trace w) ++ [(projectID, (now w + quiet_window)%Z)]).
Proof.
  split; [apply isIgnoredPath_true |].
  intros Hname Hdir.
  pose proof (isIgnoredPath_dir_itself U dir name Hname Hdir) as Hnot.
  split; [exact Hnot |].
  intros projectID st s ev w Hev Hop Hs Hw Ht.
  assert (qualifies U ev) as Hq.
  { apply qualifies_dec. rewrite Hev, Hnot. split; [done |].
    apply negb_true_iff, Z.eqb_neq. done. }
  destruct (watchLoop_step_event U projectID st s ev w Hs Hw)
    as (ws & tr0 & Hws & [Ha Hf] & Hyes & _).
  rewrite (Hyes Hq).
  edestruct (debounced_result projectID st s
               (with_trace (fun _ => tr0) (with_watchers (fun _ => ws) w)))
    as (tr & Heq & Ha' & Hf'); [done | done |].
  rewrite (bind_Ok _ _ _ _ _ Heq). unfold ret. eexists. split; [done |].
  simpl in *. by rewrite Ha', Ha.
Qed.

(** C10 as stated fails: a path that names an ignored directory, with no
    trailing separator, is ignored when it lies under another ignored
    directory, and an event on it arms no timer. *)
Lemma isIgnoredPath_nested_counterexample :
  "/srv/app/vendor/node_modules" = "/srv/app/vendor" +:+ "/" +:+ "node_modules"
  /\ In "node_modules" ignored_names
  /\ isIgnoredPath sample_unicode "/srv/app/vendor/node_modules" = true
  /\ arms (trace (world_of
        (watchLoop_step sample_unicode "demo" 0
           (RecvEvent (mkEvent "/srv/app/vendor/node_modules" fsnotify.Create) true)
           quiet_world))) = [].
Proof.
  split; [reflexivity |]. split; [simpl; tauto |].
  split; vm_compute; reflexivity.
Qed.

(** * Stop on a manager with an enabled project *)

(** C1 fails on the code: [Stop] on a manager with one enabled project
    returns with the client channel open, the timer pending and the watcher
    open; the only thing it does is shut the server down.  [Disable] on the
    same world closes the channel, stops the timer and closes the watcher. *)
Theorem Stop_skips_teardown :
  exists w',
    Stop false demo_world = Ok err_nil w'
    /\ trace w' = [EShutdown 0]
    /\ projects (mgr w') = ∅
    /\ chans w' !! 0%nat = Some (mkChan 0 client_buffer false)
    /\ timers w' !! 0%nat = Some (mkTimer 250 "demo" TimerPending)
    /\ watchers w' !! 0%nat = Some (mkWatcher false ["/site"])
    /\ trace (world_of (Disable "demo" demo_world))
       = [EChanClose 0; ETimerStop 0; EWatcherClose 0].
Proof.
  eexists. split; [vm_compute; reflexivity |].
  repeat split; vm_compute; reflexivity.
Qed.

(** * Injection *)

(** C2 fails on the code: a PHP entry file that ends after its closing tag
    gets the script appended without the marker, so a second run does not
    see a marker and appends the script again. *)
Theorem TryInjectScript_appends_twice (U : GoUnicode) :
  let entry := "/site/index.php" in
  let src := "<?php echo 1; ?>" in
  let script := ClientScript (mgr demo_world) "demo" in
  exists w1 w2,
    TryInjectScript U (Some demo_project) [entry] demo_world = Ok err_nil w1
    /\ ReadFile (fsys w1) entry = Some (src +:+ nl +:+ script +:+ nl)
    /\ Contains (src +:+ nl +:+ script +:+ nl) marker = false
    /\ TryInjectScript U (Some demo_project) [entry] w1 = Ok err_nil w2
    /\ ReadFile (fsys w2) entry
       = Some (src +:+ nl +:+ script +:+ nl +:+ nl +:+ script +:+ nl).
Proof.
  eexists _, _. split; [vm_compute; reflexivity |].
  repeat split; vm_compute; reflexivity.
Qed.

Lemma Map_from_ext (f g : Z -> Z) (s : string) (k : nat) :
  Forall (fun r => f r = g r) (runes_from k s) ->
  Map_from f k s = Map_from g k s.
Proof.
  revert k. induction s as [|c s IH]; intros k H; [done |].
  destruct k as [|k]; cbn [Map_from runes_from] in *.
  - destruct (DecodeRuneInString (String c s)) as [r w].
    apply Forall_cons in H as [Hr H]. rewrite Hr, (IH _ H). done.
  - by apply IH.
Qed.

(** [ToLower] depends on the tables only at the runes of the string. *)
Lemma ToLower_ext (U U' : GoUnicode) (s : string) :
  lower_alike U U' (runes_from 0 s) -> ToLower U s = ToLower U' s.
Proof.
  intros H. unfold ToLower.
  destruct (all_bytes is_ascii s); [done |].
  by apply Map_from_ext.
Qed.

(** C9 fails on the code where lower-casing changes the length of the
    content: the offset of the closing body tag is found in the lower-cased
    copy and used in the original.  With U+0130 before the tag the block
    lands one byte early, inside the tag before it; with U+212A it lands
    two bytes early, inside the character; with four bytes that are not
    UTF-8 the offset is past the end and the slice panics. *)
Theorem injectIntoHTML_offset_in_lowered_copy (U : GoUnicode) :
  unicode_lower_table U 0x130 = 0x69%Z ->
  unicode_lower_table U 0x212A = 0x6B%Z ->
  unicode_lower_table U 0xFFFD = 0xFFFD%Z ->
  let block := nl +:+ "<!-- " +:+ marker +:+ " -->" +:+ nl +:+ "S" +:+ nl in
  injectIntoHTML U "index.html" ("<p>" +:+ I_dot +:+ "</p></body>") "S" marker
  = Some ("<p>" +:+ I_dot +:+ "</p" +:+ block +:+ "></body>", true)
  /\ injectIntoHTML U "index.html" ("300 " +:+ Kelvin_sign +:+ "</body>") "S" marker
     = Some ("300 " +:+ bytes_of [0xE2]%Z +:+ block +:+ bytes_of [0x84; 0xAA]%Z
             +:+ "</body>", true)
  /\ injectIntoHTML U "index.html"
       ("<body>" +:+ e_acute_latin1 +:+ e_acute_latin1 +:+ e_acute_latin1
          +:+ e_acute_latin1 +:+ "</body>") "S" marker
     = None.
Proof.
  intros H1 H2 H3 block.
  assert (forall s,
            Forall (fun r => r = 0x130 \/ r = 0x212A \/ r = 0xFFFD \/ r <= 0x7F)%Z
              (runes_from 0 s) ->
            ToLower U s = ToLower sample_unicode s) as Hext.
  { intros s Hs. apply ToLower_ext. unfold lower_alike.
    eapply Forall_impl; [exact Hs |]. intros r Hr. unfold unicode_ToLower.
    destruct (r <=? 127)%Z eqn:Hle; [done |].
    apply Z.leb_gt in Hle.
    destruct Hr as [-> | [-> | [-> | Hr]]];
      [by rewrite H1 | by rewrite H2 | by rewrite H3 | lia]. }
  split; [| split]; unfold injectIntoHTML; rewrite Hext;
    try (vm_compute; reflexivity);
    match goal with
    | |- Forall _ ?l => let l' := eval vm_compute in l in change l with l'
    end;
    repeat (constructor; [lia |]); constructor.
Qed.

Lemma injectIntoHTML_offset_witness :
  injectIntoHTML sample_unicode "index.html"
    ("<p>" +:+ I_dot +:+ "</p></body>") "S" marker
  = Some ("<p>" +:+ I_dot +:+ "</p" +:+
          (nl +:+ "<!-- " +:+ marker +:+ " -->" +:+ nl +:+ "S" +:+ nl)
          +:+ "></body>", true).
Proof.
  exact (proj1 (injectIntoHTML_offset_in_lowered_copy sample_unicode
                  eq_refl eq_refl eq_refl)).
Defined.

(** * The theorems at concrete worlds *)

Lemma demo_state_ok :
  state_ok demo_world (mkProjectState 0 {["c1" := 0%nat]} (Some 0%nat)).
Proof.
  repeat split; simpl.
  - intros cid c [<- <-]%lookup_singleton_Some. eexists.
    split; [reflexivity |]. done.
  - intros cid1 cid2 c [<- _]%lookup_singleton_Some [<- _]%lookup_singleton_Some.
    done.
  - by eexists.
  - intros t [= <-]. by eexists.
Qed.

Lemma quiet_world_wf : wf quiet_world.
Proof.
  intros pid l H. simpl in H. apply lookup_singleton_Some in H as [<- <-]. eexists.
  split; [reflexivity |]. repeat split; simpl.
  - intros cid c H. by rewrite lookup_empty in H.
  - intros cid1 cid2 c H. by rewrite lookup_empty in H.
  - by eexists.
  - done.
Qed.

Lemma quiet_world_ready : loop_ready quiet_world 0.
Proof.
  eexists. split; [reflexivity |]. split; [| done].
  eexists. split; [reflexivity | done].
Qed.

Lemma quiet_world_no_pending : no_pending "demo" quiet_world.
Proof. intros l tm H. simpl in H. by rewrite lookup_empty in H. Qed.

Lemma write_qualifies (path : string) :
  isIgnoredPath sample_unicode path = false ->
  qualifies sample_unicode (mkEvent path fsnotify.Write).
Proof.
  intros H. split; [exact H |]. left.
  intros Hz. vm_compute in Hz. discriminate Hz.
Qed.

Lemma debounce_coalesces_witness :
  exists w' l at_,
    (watchLoop sample_unicode "demo" 0
       [(10%Z, mkEvent "/site/index.php" fsnotify.Write);
        (100%Z, mkEvent "/site/style.css" fsnotify.Write);
        (340%Z, mkEvent "/site/app.js" fsnotify.Write)] ;;
     advance_to 600) quiet_world = Ok tt w'
    /\ arms (trace w') = [("demo", 260); ("demo", 350); ("demo", 590)]%Z
    /\ fires "demo" (trace w') = fires "demo" (trace quiet_world) ++ [(l, at_)]
    /\ (340 + 250 <= at_)%Z.
Proof.
  apply (debounce_coalesces sample_unicode "demo" 0 quiet_world 10
           (mkEvent "/site/index.php" fsnotify.Write)
           [(100%Z, mkEvent "/site/style.css" fsnotify.Write);
            (340%Z, mkEvent "/site/app.js" fsnotify.Write)] 600).
  - apply quiet_world_wf.
  - apply quiet_world_ready.
  - apply quiet_world_no_pending.
  - simpl. lia.
  - apply write_qualifies. reflexivity.
  - repeat (constructor; [apply write_qualifies; reflexivity |]). constructor.
  - simpl. unfold quiet_window. lia.
  - simpl. unfold quiet_window. lia.
Defined.

Lemma trigger_broadcast_witness :
  exists w', trigger "demo" demo_world = Ok tt w'
    /\ chans w' !! 0%nat = Some (mkChan 1 client_buffer false).
Proof.
  destruct (trigger_broadcast "demo" demo_world 0
              (mkProjectState 0 {["c1" := 0%nat]} (Some 0%nat))
              eq_refl eq_refl demo_state_ok) as (w' & Hrun & Hsent & _).
  exists w'. split; [exact Hrun |].
  exact (Hsent "c1" 0%nat (mkChan 0 client_buffer false) eq_refl eq_refl).
Defined.

Lemma Disable_spec_witness :
  Disable "other" demo_world = Ok err_nil demo_world
  /\ exists w', Disable "demo" demo_world = Ok err_nil w'
       /\ projects (mgr w') = delete "demo" (projects (mgr demo_world))
       /\ (exists ch, chans w' !! 0%nat = Some ch /\ ch_closed ch = true)
       /\ (exists wt, watchers w' !! 0%nat = Some wt /\ w_closed wt = true).
Proof.
  split.
  - exact (proj1 (Disable_spec "other" demo_world) eq_refl).
  - destruct (proj2 (Disable_spec "demo" demo_world) 0%nat
                (mkProjectState 0 {["c1" := 0%nat]} (Some 0%nat))
                eq_refl eq_refl demo_state_ok)
      as (w' & Hrun & Hp & Hc & _ & Hw).
    exists w'. split; [exact Hrun |]. split; [exact Hp |].
    split; [exact (Hc "c1" 0%nat eq_refl) | exact Hw].
Defined.

Lemma Enable_idempotent_witness :
  exists w',
    Enable sample_unicode (Some demo_project) demo_world = Ok err_nil w'
    /\ pstates w' = pstates demo_world /\ watchers w' = watchers demo_world
    /\ trace w' = trace demo_world.
Proof.
  destruct (Enable_idempotent sample_unicode demo_project demo_world 0 eq_refl)
    as (w' & Hrun & _ & _ & Hp & Hw & _ & _ & _ & _ & Hsame).
  exists w'. split; [exact Hrun |]. split; [exact Hp |]. split; [exact Hw |].
  rewrite (Hsame (ex_intro _ 0%nat eq_refl)). reflexivity.
Defined.

Lemma watchLoop_rearms_iff_witness :
  exists w',
    watchLoop_step sample_unicode "demo" 0
      (RecvEvent (mkEvent "/site/index.php" fsnotify.Write) true) demo_world
    = Ok true w'
    /\ arms (trace w') = [("demo", 250%Z)].
Proof.
  destruct demo_state_ok as (_ & _ & Hw & Ht).
  destruct (watchLoop_rearms_iff sample_unicode "demo" 0
              (mkProjectState 0 {["c1" := 0%nat]} (Some 0%nat))
              (mkEvent "/site/index.php" fsnotify.Write) demo_world
              eq_refl Hw Ht)
    as (w' & Hrun & Hiff & _).
  exists w'. split; [exact Hrun |].
  apply Hiff. apply write_qualifies. reflexivity.
Defined.

Lemma handleEvents_contract_witness :
  (exists rw',
     handleEvents (mkResponseWriter ∅ None [] 0 true)
       (mkRequest "GET" [("project", "absent")]) [1; 2; 3; 4; 5; 6; 7; 8]%Z
       [SelectRecv; SelectDone] demo_world = Ok (rw', true) demo_world
     /\ status rw' = Some 404%Z)
  /\ exists rw1 sub w1,
       handleEvents_open (mkResponseWriter ∅ None [] 0 true)
         (mkRequest "GET" [("project", "demo")]) [1; 2; 3; 4; 5; 6; 7; 8]%Z
         demo_world = Ok (rw1, Some sub) w1
       /\ status rw1 = Some 200%Z /\ body rw1 = [ready_frame].
Proof.
  split.
  - destruct (handleEvents_contract (mkResponseWriter ∅ None [] 0 true)
                (mkRequest "GET" [("project", "absent")])
                [1; 2; 3; 4; 5; 6; 7; 8]%Z [SelectRecv; SelectDone] demo_world
                (conj eq_refl eq_refl)) as (_ & _ & _ & H404 & _).
    apply H404; [reflexivity | discriminate | reflexivity].
  - destruct (handleEvents_contract (mkResponseWriter ∅ None [] 0 true)
                (mkRequest "GET" [("project", "demo")])
                [1; 2; 3; 4; 5; 6; 7; 8]%Z [SelectRecv; SelectDone] demo_world
                (conj eq_refl eq_refl)) as (_ & _ & _ & _ & _ & Hok).
    destruct (Hok eq_refl ltac:(discriminate) 0%nat
                (mkProjectState 0 {["c1" := 0%nat]} (Some 0%nat))
                eq_refl eq_refl eq_refl) as (rw1 & sub & w1 & H1 & H2 & H3 & _).
    exists rw1, sub, w1. split; [exact H1 |]. split; [exact H2 | exact H3].
Defined.

Lemma isIgnoredPath_fragments_witness :
  isIgnoredPath sample_unicode ("/site" +:+ "/" +:+ "node_modules") = false.
Proof.
  refine (proj1 (proj2 (isIgnoredPath_fragments sample_unicode ""
                          "/site" "node_modules") _ _)).
  - simpl. tauto.
  - vm_compute. reflexivity.
Defined.

(** * The insertion ladder on ASCII content *)

Lemma take_drop (n : nat) (s : string) : take n s +:+ drop n s = s.
Proof.
  revert s. induction n as [|n IH]; intros [|c s]; simpl; try done.
  by rewrite IH.
Qed.

Lemma drop_map_bytes f (n : nat) (s : string) :
  drop n (map_bytes f s) = map_bytes f (drop n s).
Proof. revert s. induction n as [|n IH]; intros [|c s]; simpl; auto. Qed.

Lemma length_map_bytes f (s : string) :
  String.length (map_bytes f s) = String.length s.
Proof. induction s as [|c s IH]; simpl; auto. Qed.

(** [LastIndex] finds an occurrence, and none starts after it. *)
Lemma LastIndex_found (s sub : string) :
  (0 <= LastIndex s sub)%Z ->
  (LastIndex s sub <= len s)%Z
  /\ HasPrefix (drop (Z.to_nat (LastIndex s sub)) s) sub = true
  /\ LastIndex (drop (Z.to_nat (LastIndex s sub)) s) sub = 0%Z.
Proof.
  unfold len. induction s as [|c s IH]; cbn [LastIndex].
  - destruct (HasPrefix "" sub) eqn:Hp; [| lia]. intros _. simpl.
    rewrite Hp. auto with lia.
  - destruct (Z.leb_spec 0 (LastIndex s sub)) as [Hr|Hr].
    + intros _. destruct (IH Hr) as (H1 & H2 & H3).
      replace (Z.to_nat (LastIndex s sub + 1)) with (S (Z.to_nat (LastIndex s sub)))
        by lia.
      cbn [drop String.length]. split; [lia | done].
    + destruct (HasPrefix (String c s) sub) eqn:Hp; [| lia]. intros _.
      change (Z.to_nat 0) with 0%nat.
      cbn [drop String.length]. split; [lia |]. split; [done |].
      cbn [LastIndex]. destruct (Z.leb_spec 0 (LastIndex s sub)); [lia |].
      by rewrite Hp.
Qed.

Section Ladder.
Context (U : GoUnicode).

(** On ASCII content the ladder is as the specification gives it:
    before the last closing body tag; else at the end of what looks like
    an HTML page; else, in a PHP file, after a closing tag and the marker
    comment when the last block is open, or simply appended; else the
    content is returned as it is, with false. *)
Theorem injectIntoHTML_ladder_ascii (filename src script marker0 : string) :
  all_bytes is_ascii src = true ->
  let block := nl +:+ "<!-- " +:+ marker0 +:+ " -->" +:+ nl +:+ script +:+ nl in
  let lower := map_bytes lower_byte src in
  let html := Contains lower "<html" || Contains lower "<!doctype"
              || Contains lower "<body" in
  let php := EqualFold U (Ext filename) ".php" in
  let open_block := (LastIndex (TrimSpace U src) "?>"
                     <? LastIndex (TrimSpace U src) "<?")%Z in
  ((0 <= LastIndex lower "</body>")%Z ->
     exists before after,
       src = before +:+ after
       /\ HasPrefix (map_bytes lower_byte after) "</body>" = true
       /\ LastIndex (map_bytes lower_byte after) "</body>" = 0%Z
       /\ injectIntoHTML U filename src script marker0
          = Some (before +:+ block +:+ after, true))
  /\ ((LastIndex lower "</body>" < 0)%Z -> html = true ->
        injectIntoHTML U filename src script marker0
        = Some (src +:+ block, true))
  /\ ((LastIndex lower "</body>" < 0)%Z -> html = false -> php = true ->
        open_block = true ->
        injectIntoHTML U filename src script marker0
        = Some (src +:+ (nl +:+ nl +:+ "/* " +:+ marker0 +:+ " */" +:+ nl
                         +:+ "?>" +:+ nl) +:+ script +:+ nl, true))
  /\ ((LastIndex lower "</body>" < 0)%Z -> html = false -> php = true ->
        open_block = false ->
        injectIntoHTML U filename src script marker0
        = Some (src +:+ nl +:+ script +:+ nl, true))
  /\ ((LastIndex lower "</body>" < 0)%Z -> html = false -> php = false ->
        injectIntoHTML U filename src script marker0 = Some (src, false)).
Proof.
  intros Hascii block lower html php open_block.
  unfold injectIntoHTML. rewrite (ToLower_ascii U src Hascii).
  fold lower. fold html. fold php. fold open_block. fold block.
  split; [| repeat split].
  - intros Hidx. apply Z.leb_le in Hidx as Hidx'. rewrite Hidx'.
    destruct (LastIndex_found lower "</body>" Hidx) as (Hle & Hpre & Hlast).
    unfold len in Hle. unfold lower in Hle at 2. rewrite length_map_bytes in Hle.
    unfold slice_to, slice_from, len.
    rewrite Hidx'. apply Z.leb_le in Hle as ->. simpl.
    exists (take (Z.to_nat (LastIndex lower "</body>")) src),
           (drop (Z.to_nat (LastIndex lower "</body>")) src).
    split; [by rewrite take_drop |].
    rewrite <- drop_map_bytes. auto.
  - intros Hneg ->. apply Z.leb_gt in Hneg as ->. done.
  - intros Hneg -> -> ->. apply Z.leb_gt in Hneg as ->. done.
  - intros Hneg -> -> ->. apply Z.leb_gt in Hneg as ->. done.
  - intros Hneg -> ->. apply Z.leb_gt in Hneg as ->. done.
Qed.

(** Whatever the content, an injection that reports success has put the
    marker in, unless it took the branch of a PHP file whose last block
    is closed. *)
Theorem injectIntoHTML_marker (filename src script marker0 out : string) :
  injectIntoHTML U filename src script marker0 = Some (out, true) ->
  Contains out marker0 = true \/ out = src +:+ nl +:+ script +:+ nl.
Proof.
  unfold injectIntoHTML.
  destruct (0 <=? LastIndex (ToLower U src) "</body>")%Z.
  { destruct (slice_to _ _) as [before|]; [| done].
    destruct (slice_from _ _) as [after|]; [| done].
    intros [= <-]. left. apply Contains_true.
    exists (before +:+ nl +:+ "<!-- "),
           (" -->" +:+ nl +:+ script +:+ nl +:+ after).
    unfold nl. repeat first [rewrite append_assoc | progress simpl]. reflexivity. }
  destruct (_ || _).
  { intros [= <-]. left. apply Contains_true.
    exists (src +:+ nl +:+ "<!-- "), (" -->" +:+ nl +:+ script +:+ nl).
    unfold nl. repeat first [rewrite append_assoc | progress simpl]. reflexivity. }
  destruct (EqualFold U (Ext filename) ".php"); [| done].
  destruct (_ <? _)%Z.
  - intros [= <-]. left. apply Contains_true.
    exists (src +:+ nl +:+ nl +:+ "/* "),
           (" */" +:+ nl +:+ "?>" +:+ nl +:+ script +:+ nl).
    unfold nl. repeat first [rewrite append_assoc | progress simpl]. reflexivity.
  - intros [= <-]. by right.
Qed.
End Ladder.

Lemma injectIntoHTML_ladder_ascii_witness :
  exists before after,
    "<html><body>hi</BODY></html>" = before +:+ after
    /\ HasPrefix (map_bytes lower_byte after) "</body>" = true
    /\ LastIndex (map_bytes lower_byte after) "</body>" = 0%Z
    /\ injectIntoHTML sample_unicode "index.html" "<html><body>hi</BODY></html>"
         "S" marker
       = Some (before +:+ (nl +:+ "<!-- " +:+ marker +:+ " -->" +:+ nl
                           +:+ "S" +:+ nl) +:+ after, true).
Proof.
  refine (proj1 (injectIntoHTML_ladder_ascii sample_unicode "index.html"
                   "<html><body>hi</BODY></html>" "S" marker _) _).
  - reflexivity.
  - vm_compute. discriminate.
Defined.

Lemma injectIntoHTML_marker_witness :
  Contains ("<?php echo 1;" +:+ nl +:+ nl +:+ "/* " +:+ marker +:+ " */" +:+ nl
            +:+ "?>" +:+ nl +:+ "S" +:+ nl) marker = true
  \/ "<?php echo 1;" +:+ nl +:+ nl +:+ "/* " +:+ marker +:+ " */" +:+ nl
     +:+ "?>" +:+ nl +:+ "S" +:+ nl
     = "<?php echo 1;" +:+ nl +:+ "S" +:+ nl.
Proof.
  apply (injectIntoHTML_marker sample_unicode "index.php" "<?php echo 1;" "S"
           marker).
  vm_compute. reflexivity.
Defined.

(** * A connection that outlives its project *)

(** [Disable] closes the channel of a connected client; the loop of that
    connection then returns, and its deferred function closes the channel
    once more, which panics. *)
Theorem handleEvents_after_Disable_panics :
  let sub := mkSubscription "demo" "c1" 0 in
  let rw := Flush (Write ready_frame (mkResponseWriter ∅ None [] 0 true)) in
  exists w1,
    Disable "demo" demo_world = Ok err_nil w1
    /\ handleEvents_loop sub [SelectRecv] rw w1 = Ok (rw, true) w1
    /\ handleEvents_deferred sub w1 = Panic w1.
Proof.
  eexists. split; [vm_compute; reflexivity |].
  split; vm_compute; reflexivity.
Qed.

(** * The server's life cycle *)

(** [Start] makes the server once: on a manager without one it opens a
    listener on 127.0.0.1 at the manager's port; a second [Start] is a
    no-op. *)
Theorem Start_once (w : World) :
  exists w1 s,
    Start w = Ok err_nil w1 /\ srv (mgr w1) = Some s /\
    (srv (mgr w) = None ->
       servers w !! s = None /\
       servers w1 = <[s := mkServer ("127.0.0.1:" +:+ itoa (port (mgr w))) false]> (servers w) /\
       trace w1 = trace w ++ [EListenAndServe s]) /\
    (is_Some (srv (mgr w)) -> w1 = w) /\
    Start w1 = Ok err_nil w1.
Proof.
  destruct (srv (mgr w)) as [s|] eqn:Hs.
  - exists w, s. rewrite (Start_running w s Hs). repeat split; try done.
  - eexists _, (fresh_loc (servers w)). rewrite (Start_lazy w Hs).
    split; [done |]. simpl. split; [done |]. split.
    + intros _. split; [apply fresh_loc_fresh | done].
    + split; [by intros [? ?] |]. by erewrite Start_running.
Qed.

(** [Stop] forgets the server and every project; it returns nil unless a
    server was running and the context ran out.  A second [Stop] does
    nothing and returns nil. *)
Theorem Stop_twice (c1 c2 : bool) (w : World) :
  (forall s, srv (mgr w) = Some s -> is_Some (servers w !! s)) ->
  exists e w1,
    Stop c1 w = Ok e w1 /\
    srv (mgr w1) = None /\ projects (mgr w1) = ∅ /\
    (e = err_nil <-> srv (mgr w) = None \/ c1 = false) /\
    (forall s sv, srv (mgr w) = Some s -> servers w !! s = Some sv ->
       servers w1 !! s = Some (mkServer (Addr sv) true)) /\
    Stop c2 w1 = Ok err_nil w1.
Proof.
  intros Hsrv. rewrite Stop_result. simpl.
  destruct (srv (mgr w)) as [s|] eqn:Hs.
  - destruct (Hsrv s eq_refl) as [sv Hsv].
    unfold Shutdown. simpl. rewrite Hsv. eexists _, _. split; [done |].
    simpl. split; [done |]. split; [done |]. split.
    { destruct c1; intuition congruence. }
    split.
    { intros s0 sv0 [= <-] Hsv0. rewrite lookup_insert_eq. congruence. }
    rewrite Stop_result. simpl. by destruct w as [[] ? ? ? ? ? ? ? ? ?].
  - eexists _, _. split; [done |]. simpl. split; [done |]. split; [done |].
    split; [split; auto |]. split; [done |].
    rewrite Stop_result. simpl. by destruct w as [[] ? ? ? ? ? ? ? ? ?].
Qed.

Lemma Stop_twice_witness :
  exists e w1,
    Stop true demo_world = Ok e w1 /\
    srv (mgr w1) = None /\ projects (mgr w1) = ∅ /\
    (e = err_nil <-> srv (mgr demo_world) = None \/ true = false) /\
    (forall s sv, srv (mgr demo_world) = Some s -> servers demo_world !! s = Some sv ->
       servers w1 !! s = Some (mkServer (Addr sv) true)) /\
    Stop false w1 = Ok err_nil w1.
Proof.
  apply (Stop_twice true false demo_world).
  intros s [= <-]. vm_compute. eauto.
Defined.

(** After [Stop], [Start] listens again: a new server on the same address,
    the old one shut down, and no project tracked. *)
Theorem Stop_then_Start (c : bool) (w : World) (s : loc) (sv : Server) :
  srv (mgr w) = Some s -> servers w !! s = Some sv ->
  exists e w1 w2 s',
    Stop c w = Ok e w1 /\ Start w1 = Ok err_nil w2 /\
    srv (mgr w2) = Some s' /\ s' <> s /\
    servers w2 !! s = Some (mkServer (Addr sv) true) /\
    servers w2 !! s' = Some (mkServer ("127.0.0.1:" +:+ itoa (port (mgr w))) false) /\
    projects (mgr w2) = ∅.
Proof.
  intros Hs Hsv. rewrite Stop_result, Hs. simpl.
  unfold Shutdown. simpl. rewrite Hsv.
  eexists _, _, _, _. split; [done |].
  rewrite Start_lazy by done. simpl. split; [done |]. split; [done |].
  assert (fresh_loc (<[s:=mkServer (Addr sv) true]> (servers w)) <> s) as Hne.
  { intros Heq.
    pose proof (fresh_loc_fresh (<[s:=mkServer (Addr sv) true]> (servers w))) as Hf.
    rewrite Heq in Hf. by rewrite lookup_insert_eq in Hf. }
  split; [done |]. split.
  - simpl. rewrite lookup_insert_ne by done. by rewrite lookup_insert_eq.
  - split; [| done]. simpl. by rewrite lookup_insert_eq.
Qed.

Lemma Stop_then_Start_witness :
  exists e w1 w2 s',
    Stop false demo_world = Ok e w1 /\ Start w1 = Ok err_nil w2 /\
    srv (mgr w2) = Some s' /\ s' <> 0%nat /\
    servers w2 !! 0%nat = Some (mkServer (Addr (mkServer "127.0.0.1:35730" false)) true) /\
    servers w2 !! s' = Some (mkServer ("127.0.0.1:" +:+ itoa (port (mgr demo_world))) false) /\
    projects (mgr w2) = ∅.
Proof.
  apply (Stop_then_Start false demo_world 0%nat (mkServer "127.0.0.1:35730" false));
    reflexivity.
Defined.

(** * Adding watches *)

Lemma for_each_Add_open (wl : loc) (dirs ds : list string) (w : World) :
  watchers w !! wl = Some (mkWatcher false ds) ->
  for_each dirs (fun path => let* _ := watcher_Add wl path in ret tt) w
  = Ok tt (with_trace (fun t => t ++ map (EWatcherAdd wl) dirs)
             (with_watchers (insert wl (mkWatcher false (ds ++ dirs))) w)).
Proof.
  revert ds w. induction dirs as [|d dirs IH]; intros ds w Hwl; simpl.
  - unfold ret. f_equal. destruct w; unfold with_trace, with_watchers; simpl in *.
    rewrite !app_nil_r. by rewrite insert_id.
  - unfold bind at 1 2. unfold watcher_Add at 1. rewrite Hwl. simpl.
    unfold ret at 1. erewrite IH; [| simpl; by rewrite lookup_insert_eq].
    f_equal. destruct w; unfold with_trace, with_watchers; simpl.
    rewrite insert_insert_eq, <- !app_assoc. reflexivity.
Qed.

Lemma for_each_Add_closed (wl : loc) (dirs ds : list string) (w : World) :
  watchers w !! wl = Some (mkWatcher true ds) ->
  for_each dirs (fun path => let* _ := watcher_Add wl path in ret tt) w = Ok tt w.
Proof.
  intros Hwl. induction dirs as [|d dirs IH]; simpl; [done |].
  unfold bind at 1 2. unfold watcher_Add at 1. rewrite Hwl. simpl.
  unfold ret at 1. exact IH.
Qed.

Lemma addWatchRecursive_open (U : GoUnicode) (wl : loc) (root : string)
    (ds : list string) (w : World) :
  watchers w !! wl = Some (mkWatcher false ds) ->
  addWatchRecursive U wl root w
  = Ok err_nil
      (with_trace (fun t => t ++ EWalkDir root
                              :: map (EWatcherAdd wl) (dirs_under U (fsys w) root))
         (with_watchers
            (insert wl (mkWatcher false (ds ++ dirs_under U (fsys w) root))) w)).
Proof.
  intros Hwl. unfold addWatchRecursive, bind at 1, emit, modify.
  unfold bind at 1, get. simpl. unfold dirs_under.
  destruct (node_at (split_path root) (fsys w)) as [n|].
  - erewrite bind_Ok; [| by apply for_each_Add_open].
    unfold ret. f_equal. destruct w; unfold with_trace, with_watchers; simpl.
    by rewrite <- app_assoc.
  - unfold ret. f_equal. destruct w; unfold with_trace, with_watchers; simpl in *.
    rewrite app_nil_r. by rewrite insert_id.
Qed.

(** [addWatchRecursive] returns nil on every watcher, open or closed, and
    for every root, missing or not: what [Add] reports is dropped.  On an
    open watcher it adds the directories of the walk, in the order of the
    walk; on a closed one it adds nothing. *)
Theorem addWatchRecursive_returns_nil (U : GoUnicode) (wl : loc)
    (root : string) (wt : Watcher) (w : World) :
  watchers w !! wl = Some wt ->
  exists w',
    addWatchRecursive U wl root w = Ok err_nil w' /\
    watchers w' !! wl
    = Some (if w_closed wt then wt
            else mkWatcher false (w_dirs wt ++ dirs_under U (fsys w) root)) /\
    (forall k, k <> wl -> watchers w' !! k = watchers w !! k).
Proof.
  intros Hwl. destruct wt as [[] ds].
  - unfold addWatchRecursive, bind at 1, emit, modify.
    unfold bind at 1, get. simpl.
    destruct (node_at (split_path root) (fsys w)) as [n|].
    + erewrite bind_Ok; [| by eapply for_each_Add_closed].
      unfold ret. eexists. split; [done |]. by simpl.
    + unfold ret. eexists. split; [done |]. by simpl.
  - rewrite (addWatchRecursive_open U wl root ds w Hwl).
    eexists. split; [done |]. simpl. rewrite lookup_insert_eq. split; [done |].
    intros k Hk. by rewrite lookup_insert_ne.
Qed.

Lemma addWatchRecursive_returns_nil_witness :
  exists w',
    addWatchRecursive sample_unicode 0%nat "/nowhere" demo_world = Ok err_nil w' /\
    watchers w' !! 0%nat
    = Some (if w_closed (mkWatcher false ["/site"]) then mkWatcher false ["/site"]
            else mkWatcher false
                   (w_dirs (mkWatcher false ["/site"])
                    ++ dirs_under sample_unicode (fsys demo_world) "/nowhere")) /\
    (forall k, k <> 0%nat -> watchers w' !! k = watchers demo_world !! k).
Proof.
  apply (addWatchRecursive_returns_nil sample_unicode 0%nat "/nowhere"
           (mkWatcher false ["/site"]) demo_world).
  reflexivity.
Defined.

(** * Enable on a project that is not tracked *)

Lemma Enable_fresh_fields (U : GoUnicode) (p : Project) (w : World) (k : nat) :
  projects (mgr w) !! ID p = None -> Path p <> "" -> watchers_left w = S k ->
  let wl := fresh_loc (watchers w) in
  let st := fresh_loc (pstates w) in
  exists w',
    Enable U (Some p) w = Ok err_nil w' /\
    projects (mgr w') = <[ID p := st]> (projects (mgr w)) /\
    port (mgr w') = port (mgr w) /\
    is_Some (srv (mgr w')) /\
    pstates w' = <[st := mkProjectState wl ∅ None]> (pstates w) /\
    watchers w' = <[wl := mkWatcher false (dirs_under U (fsys w) (Path p))]> (watchers w) /\
    watchers_left w' = k /\
    chans w' = chans w /\ timers w' = timers w /\ fsys w' = fsys w /\
    now w' = now w /\
    exists tr, trace w' = trace w ++ tr ++ [EGo_watchLoop (ID p) st].
Proof.
  intros Hp Hpath Hk wl st.
  assert (exists w0 tr0, Start w = Ok err_nil w0 /\
            projects (mgr w0) = projects (mgr w) /\ port (mgr w0) = port (mgr w) /\
            is_Some (srv (mgr w0)) /\
            pstates w0 = pstates w /\ watchers w0 = watchers w /\
            watchers_left w0 = watchers_left w /\ chans w0 = chans w /\
            timers w0 = timers w /\ fsys w0 = fsys w /\ now w0 = now w /\
            trace w0 = trace w ++ tr0) as (w0 & tr0 & HS & H1 & H2 & H3 & H4 & H5 & H6 & H7 & H8 & H9 & H10 & H11).
  { destruct (srv (mgr w)) as [s|] eqn:Hs.
    - exists w, []. rewrite (Start_running w s Hs), app_nil_r, Hs. repeat split; eauto.
    - eexists _, _. rewrite (Start_lazy w Hs). simpl. repeat split; eauto. }
  unfold Enable. rewrite (bind_Ok _ _ _ _ _ HS).
  unfold bind at 1, get at 1. rewrite H1, Hp.
  unfold bind at 1, NewWatcher. rewrite H6, Hk.
  unfold bind at 1, get at 1. unfold bind at 1, modify at 1.
  destruct (String.eqb_spec (Path p) "") as [|_]; [done |].
  erewrite bind_Ok; [| apply addWatchRecursive_open; simpl; by rewrite lookup_insert_eq].
  unfold bind at 1, get at 1. unfold bind at 1, modify at 1.
  unfold bind at 1, emit, modify at 1. unfold ret.
  eexists. split; [done |]. simpl. rewrite H1, H2, H4, H5, H7, H8, H9, H10, H11.
  rewrite insert_insert_eq.
  repeat split; try done.
  exists (tr0 ++ [EWatcherNew wl]
            ++ EWalkDir (Path p)
               :: map (EWatcherAdd wl) (dirs_under U (fsys w) (Path p))).
  by rewrite <- !app_assoc.
Qed.

(** [Enable] of a project that is not tracked, with a non-empty path and a
    watcher to be had, returns nil whether the path exists or not: the
    project is tracked with a new state (no client, no timer) whose new,
    open watcher holds the directories of the walk (none when the root is
    missing), the watch loop is started last, and a well-formed manager
    stays well-formed. *)
Theorem Enable_fresh (U : GoUnicode) (p : Project) (w : World) :
  projects (mgr w) !! ID p = None -> Path p <> "" -> (0 < watchers_left w)%nat ->
  exists w' st wl,
    Enable U (Some p) w = Ok err_nil w' /\
    projects (mgr w') = <[ID p := st]> (projects (mgr w)) /\
    pstates w !! st = None /\
    pstates w' !! st = Some (mkProjectState wl ∅ None) /\
    watchers w !! wl = None /\
    watchers w' !! wl
    = Some (mkWatcher false (dirs_under U (fsys w) (Path p))) /\
    chans w' = chans w /\ timers w' = timers w /\
    last (trace w') = Some (EGo_watchLoop (ID p) st) /\
    (wf w -> wf w').
Proof.
  intros Hp Hpath Hk.
  destruct (watchers_left w) as [|k] eqn:Hleft; [lia |].
  destruct (Enable_fresh_fields U p w k Hp Hpath Hleft)
    as (w' & HE & Hpr & _ & _ & Hps & Hws & _ & Hch & Htm & _ & _ & tr & Htr).
  exists w', (fresh_loc (pstates w)), (fresh_loc (watchers w)).
  split; [done |]. split; [done |]. split; [apply fresh_loc_fresh |].
  split; [by rewrite Hps, lookup_insert_eq |]. split; [apply fresh_loc_fresh |].
  split; [by rewrite Hws, lookup_insert_eq |]. split; [done |]. split; [done |].
  split; [by rewrite Htr, !app_assoc, last_snoc |].
  intros Hwf pid l Hl. rewrite Hpr in Hl.
  destruct (decide (ID p = pid)) as [<-|Hne].
  - rewrite lookup_insert_eq in Hl. injection Hl as <-.
    eexists. rewrite Hps, lookup_insert_eq. split; [done |].
    split; [intros cid c Hc; simpl in Hc; by rewrite lookup_empty in Hc |].
    split; [intros cid1 cid2 c Hc; simpl in Hc; by rewrite lookup_empty in Hc |].
    split; [simpl; rewrite Hws, lookup_insert_eq; eauto | done].
  - rewrite lookup_insert_ne in Hl by done.
    destruct (Hwf pid l Hl) as (s & Hs & Hok).
    exists s. split.
    + rewrite Hps, lookup_insert_ne; [done |].
      intros <-. by rewrite fresh_loc_fresh in Hs.
    + eapply state_ok_frame; [exact Hok | rewrite Hch; apply same_chans_refl | |].
      * intros j Hj. rewrite Hws.
        destruct (decide (fresh_loc (watchers w) = j)) as [<-|?];
          [by rewrite lookup_insert_eq | by rewrite lookup_insert_ne].
      * intros j Hj. by rewrite Htm.
Qed.

Lemma Enable_fresh_witness :
  exists w' st wl,
    Enable sample_unicode (Some (mkProject "shop" "/site" "")) demo_world
    = Ok err_nil w' /\
    projects (mgr w') = <["shop" := st]> (projects (mgr demo_world)) /\
    pstates demo_world !! st = None /\
    pstates w' !! st = Some (mkProjectState wl ∅ None) /\
    watchers demo_world !! wl = None /\
    watchers w' !! wl
    = Some (mkWatcher false (dirs_under sample_unicode (fsys demo_world) "/site")) /\
    chans w' = chans demo_world /\ timers w' = timers demo_world /\
    last (trace w') = Some (EGo_watchLoop "shop" st) /\
    (wf demo_world -> wf w').
Proof.
  apply (Enable_fresh sample_unicode (mkProject "shop" "/site" "") demo_world).
  - reflexivity.
  - simpl. discriminate.
  - simpl. lia.
Defined.

(** When [Enable] returns an error, the project map is as it was, no
    watcher is left open that was not open before, and the system has
    all its watchers back. *)
Theorem Enable_error_cleans_up (U : GoUnicode) (p : option Project)
    (w w' : World) (msg : string) :
  Enable U p w = Ok (errorString msg) w' ->
  projects (mgr w') = projects (mgr w) /\
  watchers_left w' = watchers_left w /\
  (forall l wt, watchers w' !! l = Some wt -> w_closed wt = false ->
     watchers w !! l = Some wt) /\
  chans w' = chans w /\ timers w' = timers w.
Proof.
  destruct p as [p|]; [| by intros [= _ <-]].
  assert (exists w0, Start w = Ok err_nil w0 /\
            projects (mgr w0) = projects (mgr w) /\
            pstates w0 = pstates w /\ watchers w0 = watchers w /\
            watchers_left w0 = watchers_left w /\ chans w0 = chans w /\
            timers w0 = timers w) as (w0 & HS & H1 & H4 & H5 & H6 & H7 & H8).
  { destruct (srv (mgr w)) as [s|] eqn:Hs.
    - exists w. rewrite (Start_running w s Hs). repeat split; eauto.
    - eexists. rewrite (Start_lazy w Hs). simpl. repeat split; eauto. }
  unfold Enable. rewrite (bind_Ok _ _ _ _ _ HS).
  unfold bind at 1, get at 1.
  destruct (projects (mgr w0) !! ID p) eqn:Hp; [unfold ret; simpl; congruence |].
  unfold bind at 1, NewWatcher.
  destruct (watchers_left w0) as [|k] eqn:Hk.
  { intros [= _ <-]. split; [done |]. split; [congruence |]. split; [| done].
    intros l wt. by rewrite H5. }
  unfold bind at 1, get at 1. unfold bind at 1, modify at 1.
  destruct (String.eqb_spec (Path p) "") as [Hpath|Hpath].
  - unfold bind, watcher_Close. simpl. rewrite lookup_insert_eq. simpl.
    unfold ret. intros [= _ <-]. simpl.
    split; [done |]. split; [congruence |]. split; [| done].
    intros l wt Hl Hopen.
    destruct (decide (fresh_loc (watchers w0) = l)) as [<-|Hne].
    + rewrite lookup_insert_eq in Hl. injection Hl as <-. done.
    + rewrite !lookup_insert_ne in Hl by done. by rewrite <- H5.
  - erewrite bind_Ok; [| apply addWatchRecursive_open; simpl; by rewrite lookup_insert_eq].
    unfold bind at 1, get at 1. unfold bind at 1, modify at 1.
    unfold bind at 1, emit, modify at 1. unfold ret. by intros [=].
Qed.

Lemma Enable_error_cleans_up_witness :
  projects (mgr (world_of (Enable sample_unicode (Some (mkProject "shop" "" "")) demo_world)))
  = projects (mgr demo_world) /\
  watchers_left (world_of (Enable sample_unicode (Some (mkProject "shop" "" "")) demo_world))
  = watchers_left demo_world /\
  (forall l wt,
     watchers (world_of (Enable sample_unicode (Some (mkProject "shop" "" "")) demo_world)) !! l
     = Some wt -> w_closed wt = false -> watchers demo_world !! l = Some wt) /\
  chans (world_of (Enable sample_unicode (Some (mkProject "shop" "" "")) demo_world))
  = chans demo_world /\
  timers (world_of (Enable sample_unicode (Some (mkProject "shop" "" "")) demo_world))
  = timers demo_world.
Proof.
  apply (Enable_error_cleans_up sample_unicode (Some (mkProject "shop" "" ""))
           demo_world _ "project path is empty").
  vm_compute. reflexivity.
Defined.

(** [Enable] and then [Disable] of a project that was not tracked: both
    return nil, the project map is as before, the watcher [Enable] opened
    is closed and handed back, and no channel or timer was touched. *)
Theorem Enable_then_Disable (U : GoUnicode) (p : Project) (w : World) :
  projects (mgr w) !! ID p = None -> Path p <> "" -> (0 < watchers_left w)%nat ->
  exists w1 w2 wl,
    Enable U (Some p) w = Ok err_nil w1 /\
    Disable (ID p) w1 = Ok err_nil w2 /\
    projects (mgr w2) = projects (mgr w) /\
    watchers w !! wl = None /\
    watchers w2
    = <[wl := mkWatcher true (dirs_under U (fsys w) (Path p))]> (watchers w) /\
    watchers_left w2 = watchers_left w /\
    chans w2 = chans w /\ timers w2 = timers w.
Proof.
  intros Hp Hpath Hk.
  destruct (watchers_left w) as [|k] eqn:Hleft; [lia |].
  destruct (Enable_fresh_fields U p w k Hp Hpath Hleft)
    as (w1 & HE & Hpr & _ & _ & Hps & Hws & Hwl & Hch & Htm & _ & _ & tr & Htr).
  exists w1. eexists _, (fresh_loc (watchers w)). split; [exact HE |].
  unfold Disable, bind at 1, get at 1. rewrite Hpr, lookup_insert_eq.
  unfold bind at 1, modify at 1. unfold bind at 1, load_state at 1. simpl.
  rewrite Hps, lookup_insert_eq. simpl. rewrite map_to_list_empty. simpl.
  unfold bind at 1, ret at 1. unfold bind at 1, ret at 1.
  unfold watcher_Close. simpl. rewrite Hws, lookup_insert_eq. simpl.
  split; [done |]. simpl.
  rewrite delete_insert_id by done. split; [done |].
  split; [apply fresh_loc_fresh |]. rewrite Hws, insert_insert_eq.
  by rewrite Hwl, Hch, Htm.
Qed.

Lemma Enable_then_Disable_witness :
  exists w1 w2 wl,
    Enable sample_unicode (Some (mkProject "shop" "/site" "")) demo_world
    = Ok err_nil w1 /\
    Disable "shop" w1 = Ok err_nil w2 /\
    projects (mgr w2) = projects (mgr demo_world) /\
    watchers demo_world !! wl = None /\
    watchers w2
    = <[wl := mkWatcher true (dirs_under sample_unicode (fsys demo_world) "/site")]>
        (watchers demo_world) /\
    watchers_left w2 = watchers_left demo_world /\
    chans w2 = chans demo_world /\ timers w2 = timers demo_world.
Proof.
  apply (Enable_then_Disable sample_unicode (mkProject "shop" "/site" "") demo_world).
  - reflexivity.
  - simpl. discriminate.
  - simpl. lia.
Defined.

(** * The walk over the project tree *)

Lemma fsnode_nested_ind (P : fsnode -> Prop) :
  (forall d, P (FsFile d)) ->
  (forall es, Forall (fun e => P e.2) es -> P (FsDir es)) ->
  forall n, P n.
Proof.
  intros Hf Hd. fix IH 1. intros [d|es]; [apply Hf |].
  apply Hd. revert es. fix IHes 1. intros [|[k c] es]; constructor.
  - apply IH.
  - apply IHes.
Qed.




Section Walk.
Context (U : GoUnicode).




End Walk.


(** * A new directory *)

(** A create event for a path that is a directory makes the loop walk it
    and add its directories to the watcher, before the ignore policy is
    asked about the event and whether or not the timer is re-armed; any
    other event leaves the watchers as they are. *)
Theorem watchLoop_step_new_directory (U : GoUnicode) (projectID : string)
    (st : loc) (s : projectState) (ev : Event) (w : World) (ds : list string) :
  pstates w !! st = Some s ->
  watchers w !! watcher s = Some (mkWatcher false ds) ->
  (forall t, debounce s = Some t -> is_Some (timers w !! t)) ->
  exists w', watchLoop_step U projectID st (RecvEvent ev true) w = Ok true w' /\
    (has_kind fsnotify.Create ev -> Stat (fsys w) (Name ev) = Some true ->
       watchers w'
       = <[watcher s := mkWatcher false (ds ++ dirs_under U (fsys w) (Name ev))]>
           (watchers w)) /\
    (~ has_kind fsnotify.Create ev \/ Stat (fsys w) (Name ev) <> Some true ->
       watchers w' = watchers w).
Proof.
  intros Hs Hw Ht.
  set (W := if negb (Z.land (Op ev) fsnotify.Create =? 0)%Z
            then match Stat (fsys w) (Name ev) with
                 | Some true =>
                   <[watcher s := mkWatcher false (ds ++ dirs_under U (fsys w) (Name ev))]>
                     (watchers w)
                 | _ => watchers w
                 end
            else watchers w).
  assert (exists tr0,
    (if negb (Z.land (Op ev) fsnotify.Create =? 0)%Z
     then let* w0 := get in
          match Stat (fsys w0) (Name ev) with
          | Some true =>
            let* _ := addWatchRecursive U (watcher s) (Name ev) in ret tt
          | _ => ret tt
          end
     else ret tt) w
    = Ok tt (with_trace (fun _ => tr0) (with_watchers (fun _ => W) w)))
    as (tr0 & Hnew).
  { subst W. destruct (negb (Z.land (Op ev) fsnotify.Create =? 0)%Z).
    - unfold bind at 1, get.
      destruct (Stat (fsys w) (Name ev)) as [[]|].
      + rewrite (bind_Ok _ _ _ _ _ (addWatchRecursive_open U _ _ ds w Hw)).
        eexists. unfold ret. f_equal.
      + exists (trace w). unfold ret. f_equal. apply world_eta_watchers.
      + exists (trace w). unfold ret. f_equal. apply world_eta_watchers.
    - exists (trace w). unfold ret. f_equal. apply world_eta_watchers. }
  assert (exists w', watchLoop_step U projectID st (RecvEvent ev true) w = Ok true w'
                     /\ watchers w' = W) as (w' & Hstep & HW).
  { unfold watchLoop_step. cbn [negb].
    rewrite (bind_Ok (load_state st) _ w s w)
      by (unfold load_state; by rewrite Hs).
    rewrite (bind_Ok _ _ _ _ _ Hnew).
    destruct (isIgnoredPath U (Name ev)); [by eexists |].
    destruct (negb (Z.land (Op ev) significant =? 0)%Z); [| by eexists].
    edestruct (debounced_result projectID st s
                 (with_trace (fun _ => tr0) (with_watchers (fun _ => W) w)))
      as (tr & Heq & _); [done | done |].
    rewrite (bind_Ok _ _ _ _ _ Heq). unfold ret. by eexists. }
  exists w'. split; [done |]. rewrite HW. subst W. unfold has_kind. split.
  - intros Hk ->. destruct (Z.eqb_spec (Z.land (Op ev) fsnotify.Create) 0); done.
  - intros [Hk | Hd].
    + destruct (Z.eqb_spec (Z.land (Op ev) fsnotify.Create) 0); [done |].
      by destruct Hk.
    + destruct (negb _); [| done].
      by destruct (Stat (fsys w) (Name ev)) as [[]|].
Qed.

Lemma watchLoop_step_new_directory_witness :
  exists w',
    watchLoop_step sample_unicode "demo" 0%nat
      (RecvEvent (mkEvent "/site" fsnotify.Create) true) quiet_world = Ok true w' /\
    (has_kind fsnotify.Create (mkEvent "/site" fsnotify.Create) ->
     Stat (fsys quiet_world) (Name (mkEvent "/site" fsnotify.Create)) = Some true ->
       watchers w'
       = <[watcher (mkProjectState 0 ∅ None) :=
             mkWatcher false
               (["/site"]
                ++ dirs_under sample_unicode (fsys quiet_world)
                     (Name (mkEvent "/site" fsnotify.Create)))]>
           (watchers quiet_world)) /\
    (~ has_kind fsnotify.Create (mkEvent "/site" fsnotify.Create)
     \/ Stat (fsys quiet_world) (Name (mkEvent "/site" fsnotify.Create)) <> Some true ->
       watchers w' = watchers quiet_world).
Proof.
  apply (watchLoop_step_new_directory sample_unicode "demo" 0%nat
           (mkProjectState 0 ∅ None) (mkEvent "/site" fsnotify.Create)
           quiet_world ["/site"]).
  - reflexivity.
  - reflexivity.
  - intros t Ht. discriminate Ht.
Defined.

(** * Timers that outlive [Stop] *)

Lemma fire_untracked (l : loc) (w : World) :
  projects (mgr w) = ∅ ->
  exists w', fire l w = Ok tt w' /\ chans w' = chans w /\ mgr w' = mgr w /\
    timers w' = alter fired_timer l (timers w).
Proof.
  intros Hp. unfold fire, bind at 1, get.
  destruct (timers w !! l) as [tm|] eqn:Hl.
  2:{ exists w. repeat split; try done. apply map_eq. intros i.
      destruct (decide (i = l)) as [->|Hne].
      - by rewrite lookup_alter_eq, Hl.
      - by rewrite lookup_alter_ne. }
  destruct (tm_state tm) eqn:Hst.
  2,3: (exists w; repeat split; try done;
        rewrite (alter_fixed fired_timer (timers w) l tm Hl); [done |];
        unfold fired_timer; by rewrite Hst).
  unfold bind, modify, emit, trigger, bind, get. simpl. rewrite Hp, lookup_empty.
  unfold ret. eexists. split; [done |]. simpl. repeat split; try done.
  apply map_eq. intros i. destruct (decide (i = l)) as [->|Hne].
  - rewrite lookup_alter_eq, lookup_insert_eq, Hl. simpl.
    unfold fired_timer. by rewrite Hst.
  - by rewrite lookup_alter_ne, lookup_insert_ne.
Qed.

Lemma for_each_fire_untracked (ls : list loc) (w : World) :
  projects (mgr w) = ∅ ->
  exists w', for_each ls fire w = Ok tt w' /\ chans w' = chans w /\
    mgr w' = mgr w /\ timers w' = fire_all ls (timers w).
Proof.
  revert w. induction ls as [|x ls IH]; intros w Hp; simpl.
  - by exists w.
  - destruct (fire_untracked x w Hp) as (w1 & Hf & Hc & Hm & Ht).
    rewrite (bind_Ok _ _ _ _ _ Hf).
    destruct (IH w1) as (w2 & Hf2 & Hc2 & Hm2 & Ht2); [by rewrite Hm |].
    exists w2. split; [done |]. split; [congruence |]. split; [congruence |].
    rewrite Ht2, Ht. done.
Qed.

(** [Stop] cancels no timer: a debounce timer pending when [Stop] is
    called still fires when its time comes, but its broadcast finds no
    project, so no channel receives anything. *)
Theorem timers_after_Stop_reach_nobody (c : bool) (T : Z) (w : World) :
  (forall s, srv (mgr w) = Some s -> is_Some (servers w !! s)) ->
  exists e w1 w2,
    Stop c w = Ok e w1 /\ advance_to T w1 = Ok tt w2 /\
    timers w1 = timers w /\
    chans w2 = chans w /\
    (forall l tm, timers w !! l = Some tm -> tm_state tm = TimerPending ->
       (tm_when tm <= T)%Z ->
       timers w2 !! l = Some (mkTimer (tm_when tm) (tm_project tm) TimerFired)).
Proof.
  intros Hsrv.
  assert (exists e w1, Stop c w = Ok e w1 /\ projects (mgr w1) = ∅ /\
            timers w1 = timers w /\ chans w1 = chans w)
    as (e & w1 & HS & Hp & Ht & Hc).
  { rewrite Stop_result. simpl. destruct (srv (mgr w)) as [s|] eqn:Hs.
    - destruct (Hsrv s eq_refl) as [sv Hsv]. unfold Shutdown. simpl.
      rewrite Hsv. by eexists _, _.
    - by eexists _, _. }
  exists e, w1. unfold advance_to, bind at 1, get.
  destruct (for_each_fire_untracked (due T w1) w1 Hp) as (w2 & Hf & Hc2 & _ & Ht2).
  rewrite (bind_Ok _ _ _ _ _ Hf). unfold modify. eexists.
  split; [done |]. split; [done |]. split; [done |]. simpl.
  split; [congruence |].
  intros l tm Hl Hst Hle. rewrite Ht2, fire_all_lookup.
  - rewrite Ht, Hl. simpl. unfold fired_timer. by rewrite Hst.
  - apply elem_of_due. exists tm. rewrite Ht. split; [done |].
    apply is_due_spec. done.
Qed.

Lemma timers_after_Stop_reach_nobody_witness :
  exists e w1 w2,
    Stop false demo_world = Ok e w1 /\ advance_to 1000 w1 = Ok tt w2 /\
    timers w1 = timers demo_world /\
    chans w2 = chans demo_world /\
    (forall l tm, timers demo_world !! l = Some tm -> tm_state tm = TimerPending ->
       (tm_when tm <= 1000)%Z ->
       timers w2 !! l = Some (mkTimer (tm_when tm) (tm_project tm) TimerFired)).
Proof.
  apply (timers_after_Stop_reach_nobody false 1000 demo_world).
  intros s [= <-]. vm_compute. eauto.
Defined.

(** * Disable, field by field *)


(** * The loop of a disabled project *)



(** * The events route: headers *)

Lemma cors_headers_set (rw : ResponseWriter) :
  cors_headers
    (Header_Set "Access-Control-Allow-Headers" "Content-Type"
       (Header_Set "Access-Control-Allow-Methods" "GET, OPTIONS"
          (Header_Set "Access-Control-Allow-Origin" "*" rw))).
Proof.
  unfold cors_headers, Header_Set. simpl.
  split; [| split].
  - rewrite !lookup_insert_ne by done. by rewrite lookup_insert_eq.
  - rewrite lookup_insert_ne by done. by rewrite lookup_insert_eq.
  - by rewrite lookup_insert_eq.
Qed.

Lemma cors_headers_ext (rw rw' : ResponseWriter) :
  cors_headers rw ->
  (forall k, k <> "Content-Length" -> k <> "Content-Type" ->
     k <> "X-Content-Type-Options" -> k <> "Cache-Control" ->
     k <> "Connection" -> k <> "X-Accel-Buffering" ->
     Header rw' !! k = Header rw !! k) ->
  cors_headers rw'.
Proof.
  intros (H1 & H2 & H3) Hk. unfold cors_headers.
  rewrite !Hk by done. done.
Qed.

Lemma Header_WriteHeader code rw : Header (WriteHeader code rw) = Header rw.
Proof. unfold WriteHeader. by destruct (status rw). Qed.

Lemma Header_Write d rw : Header (Write d rw) = Header rw.
Proof. unfold Write. simpl. apply Header_WriteHeader. Qed.

Lemma Header_Flush rw : Header (Flush rw) = Header rw.
Proof. unfold Flush. simpl. apply Header_WriteHeader. Qed.

Lemma cors_http_Error (rw : ResponseWriter) (msg : string) (code : Z) :
  cors_headers rw -> cors_headers (http_Error rw msg code).
Proof.
  intros H. eapply cors_headers_ext; [exact H |].
  intros k ? ? ? ? ? ?. unfold http_Error.
  rewrite Header_Write, Header_WriteHeader. unfold Header_Set, Header_Del. simpl.
  rewrite !lookup_insert_ne by done. by rewrite lookup_delete_ne.
Qed.

Lemma handleEvents_loop_Header (sub : Subscription) (sels : list Select)
    (rw rw' : ResponseWriter) (b : bool) (w w' : World) :
  handleEvents_loop sub sels rw w = Ok (rw', b) w' -> Header rw' = Header rw.
Proof.
  revert rw w. induction sels as [|sel sels IH]; intros rw w; simpl.
  - by intros [= <- _ _].
  - destruct sel; [by intros [= <- _ _] |].
    unfold bind, chan_recv.
    destruct (chans w !! sub_chan sub) as [ch|]; [| apply IH].
    destruct (ch_len ch) as [|n].
    + destruct (ch_closed ch); [by intros [= <- _ _] | apply IH].
    + intros H. apply IH in H. by rewrite H, Header_Flush, Header_Write.
Qed.

(** Every answer of the events route, an error or a stream, carries the
    three headers that open it to pages of any origin. *)
Theorem handleEvents_cors (rw rw' : ResponseWriter) (r : Request)
    (random : list Z) (sels : list Select) (b : bool) (w w' : World) :
  handleEvents rw r random sels w = Ok (rw', b) w' -> cors_headers rw'.
Proof.
  pose proof (cors_headers_set rw) as Hc.
  unfold handleEvents, bind at 1, handleEvents_open.
  set (rw0 := Header_Set "Access-Control-Allow-Headers" _ _) in *.
  destruct (String.eqb (Method r) http.MethodOptions).
  { intros [= <- _ _]. eapply cors_headers_ext; [exact Hc |].
    intros k _ _ _ _ _ _. by rewrite Header_WriteHeader. }
  destruct (negb (String.eqb (Method r) http.MethodGet)).
  { intros [= <- _ _]. by apply cors_http_Error. }
  destruct (String.eqb (Query_Get (Query r) "project") "").
  { intros [= <- _ _]. by apply cors_http_Error. }
  unfold bind at 1, get at 1.
  destruct (projects (mgr w) !! Query_Get (Query r) "project") as [l|].
  2:{ intros [= <- _ _]. by apply cors_http_Error. }
  destruct (negb (is_Flusher rw0)).
  { intros [= <- _ _]. by apply cors_http_Error. }
  unfold bind at 1, chan_make at 1. unfold bind at 1, get at 1.
  set (rw1 := Header_Set "X-Accel-Buffering" _ _).
  assert (cors_headers rw1) as Hc1.
  { eapply cors_headers_ext; [exact Hc |]. intros k ? ? ? ? ? ?.
    subst rw1. unfold Header_Set at 1 2 3 4. simpl.
    by rewrite !lookup_insert_ne by done. }
  match goal with
  | |- context [projects (mgr ?w0) !! _] =>
    destruct (projects (mgr w0) !! Query_Get (Query r) "project") as [l2|]
  end.
  2:{ intros [= <- _ _]. by apply cors_http_Error. }
  unfold bind at 1, load_state at 1.
  match goal with
  | |- context [pstates ?w0 !! l2] => destruct (pstates w0 !! l2) as [st2|]
  end; [| done].
  unfold bind at 1, modify at 1. unfold ret at 1.
  unfold bind at 1.
  match goal with
  | |- context [handleEvents_loop ?sub sels ?rwx ?wx] =>
    destruct (handleEvents_loop sub sels rwx wx) as [[rw2 ret2] w2|] eqn:Hloop;
      [| done]
  end.
  apply handleEvents_loop_Header in Hloop.
  assert (cors_headers rw2) as Hc2.
  { eapply cors_headers_ext; [exact Hc1 |]. intros k _ _ _ _ _ _.
    by rewrite Hloop, Header_Flush, Header_Write. }
  destruct ret2.
  - unfold bind at 1.
    destruct (handleEvents_deferred _ w2); [| done]. by intros [= <- _ _].
  - by intros [= <- _ _].
Qed.

Lemma handleEvents_cors_witness :
  cors_headers
    (http_Error
       (Header_Set "Access-Control-Allow-Headers" "Content-Type"
          (Header_Set "Access-Control-Allow-Methods" "GET, OPTIONS"
             (Header_Set "Access-Control-Allow-Origin" "*"
                (mkResponseWriter ∅ None [] 0 true))))
       "method not allowed" 405).
Proof.
  apply (handleEvents_cors (mkResponseWriter ∅ None [] 0 true) _
           (mkRequest "POST" []) [] [] true demo_world demo_world).
  reflexivity.
Defined.

(** * The events route: a connection from its first frame to its end *)

Lemma handleEvents_open_accepts (rw : ResponseWriter) (r : Request)
    (random : list Z) (w : World) (l : loc) (s : projectState) :
  Method r = "GET" -> Query_Get (Query r) "project" <> "" ->
  projects (mgr w) !! Query_Get (Query r) "project" = Some l ->
  pstates w !! l = Some s -> is_Flusher rw = true ->
  exists rw1,
    handleEvents_open rw r random w
    = Ok (rw1, Some (mkSubscription (Query_Get (Query r) "project")
                       (randomID random) (fresh_loc (chans w))))
         (with_pstates
            (insert l (set_clients
                         (<[randomID random := fresh_loc (chans w)]> (clients s)) s))
            (with_chans (insert (fresh_loc (chans w)) (mkChan 0 client_buffer false)) w))
    /\ body rw1 = body rw ++ [ready_frame]
    /\ flushes rw1 = S (flushes rw).
Proof.
  intros Hm Hp Hl Hs Hfl. unfold handleEvents_open.
  rewrite Hm. simpl. apply String.eqb_neq in Hp. rewrite Hp.
  unfold bind, get, chan_make, load_state, modify, ret. rewrite Hl. simpl.
  rewrite Hfl. simpl. rewrite Hl. simpl. rewrite Hs.
  eexists. split; [reflexivity |].
  unfold Flush, Write, WriteHeader, ready_frame.
  destruct rw as [hd [c|] bd fl fs]; simpl; split; reflexivity.
Qed.

Lemma state_ok_registered (w : World) (l : loc) (s : projectState)
    (cid : string) :
  state_ok w s ->
  state_ok
    (with_pstates
       (insert l (set_clients (<[cid := fresh_loc (chans w)]> (clients s)) s))
       (with_chans (insert (fresh_loc (chans w)) (mkChan 0 client_buffer false)) w))
    (set_clients (<[cid := fresh_loc (chans w)]> (clients s)) s).
Proof.
  intros (Hopen & Hinj & Hw & Ht).
  assert (forall cid' c, clients s !! cid' = Some c -> c <> fresh_loc (chans w))
    as Hfresh.
  { intros cid' c Hc ->. destruct (Hopen _ _ Hc) as (ch & Hch & _).
    by rewrite fresh_loc_fresh in Hch. }
  split; [| split; [| split]]; simpl.
  - intros cid' c Hc. destruct (decide (cid = cid')) as [<-|Hne].
    + rewrite lookup_insert_eq in Hc. injection Hc as <-.
      rewrite lookup_insert_eq. by eexists.
    + rewrite lookup_insert_ne in Hc by done.
      rewrite lookup_insert_ne by (symmetry; by eapply Hfresh).
      by apply (Hopen cid').
  - intros cid1 cid2 c H1 H2.
    destruct (decide (cid = cid1)) as [<-|Hne1];
      destruct (decide (cid = cid2)) as [<-|Hne2]; [done | | |].
    + rewrite lookup_insert_eq in H1. injection H1 as <-.
      rewrite lookup_insert_ne in H2 by done. by apply Hfresh in H2.
    + rewrite lookup_insert_eq in H2. injection H2 as <-.
      rewrite lookup_insert_ne in H1 by done. by apply Hfresh in H1.
    + rewrite lookup_insert_ne in H1, H2 by done. by eapply Hinj.
  - done.
  - done.
Qed.

Lemma handleEvents_deferred_registered (sub : Subscription) (w : World)
    (l : loc) (s : projectState) (ch : Chan) :
  projects (mgr w) !! sub_project sub = Some l ->
  pstates w !! l = Some s ->
  chans w !! sub_chan sub = Some ch -> ch_closed ch = false ->
  handleEvents_deferred sub w
  = Ok tt (with_trace (fun t => t ++ [EChanClose (sub_chan sub)])
             (with_chans (insert (sub_chan sub) (closed_chan ch))
                (with_pstates
                   (insert l (set_clients (delete (sub_client sub) (clients s)) s))
                   w))).
Proof.
  intros Hl Hs Hc Hopen. unfold handleEvents_deferred, bind at 1, get at 1.
  rewrite Hl. unfold bind at 1. unfold bind at 1, load_state at 1. rewrite Hs.
  unfold modify at 1. unfold chan_close. simpl. by rewrite Hc, Hopen.
Qed.

(** A client that connects to an enabled project and goes away: it is
    registered under its id with a new channel that holds up to ten
    signals, and when its request ends it is removed again and the channel
    is closed; the project state is then as it was before, provided the
    id was not in use. *)
Theorem handleEvents_connection_round_trip (rw : ResponseWriter) (r : Request)
    (random : list Z) (sels : list Select) (w : World) (l : loc)
    (s : projectState) :
  Method r = "GET" -> Query_Get (Query r) "project" <> "" ->
  projects (mgr w) !! Query_Get (Query r) "project" = Some l ->
  pstates w !! l = Some s -> is_Flusher rw = true ->
  clients s !! randomID random = None ->
  exists rw1 sub w1 rw2 w2,
    handleEvents_open rw r random w = Ok (rw1, Some sub) w1 /\
    sub_client sub = randomID random /\
    chans w !! sub_chan sub = None /\
    chans w1 !! sub_chan sub = Some (mkChan 0 10 false) /\
    (exists s1, pstates w1 !! l = Some s1 /\
                clients s1 = <[randomID random := sub_chan sub]> (clients s)) /\
    handleEvents rw r random (SelectDone :: sels) w = Ok (rw2, true) w2 /\
    pstates w2 = pstates w /\ mgr w2 = mgr w /\
    chans w2 = <[sub_chan sub := mkChan 0 10 true]> (chans w).
Proof.
  intros Hm Hp Hl Hs Hfl Hfree.
  destruct (handleEvents_open_accepts rw r random w l s Hm Hp Hl Hs Hfl)
    as (rw1 & Hopen & _).
  eexists rw1, _, _, rw1, _. split; [exact Hopen |]. simpl.
  split; [done |]. split; [apply fresh_loc_fresh |].
  split; [by rewrite lookup_insert_eq |].
  split; [eexists; split; [by rewrite lookup_insert_eq | done] |].
  unfold handleEvents. rewrite (bind_Ok _ _ _ _ _ Hopen). cbn [handleEvents_loop].
  unfold bind at 1, ret at 1.
  erewrite bind_Ok; cycle 1.
  { apply (handleEvents_deferred_registered _ _ l); simpl;
      [exact Hl | by rewrite lookup_insert_eq | by rewrite lookup_insert_eq | done]. }
  unfold ret. split; [reflexivity |]. simpl.
  rewrite !insert_insert_eq. split; [| done].
  rewrite delete_insert_id by done.
  apply insert_id. rewrite Hs. by destruct s.
Qed.

Lemma handleEvents_connection_round_trip_witness :
  exists rw1 sub w1 rw2 w2,
    handleEvents_open (mkResponseWriter ∅ None [] 0 true)
      (mkRequest "GET" [("project", "demo")]) [171%Z] demo_world
    = Ok (rw1, Some sub) w1 /\
    sub_client sub = randomID [171%Z] /\
    chans demo_world !! sub_chan sub = None /\
    chans w1 !! sub_chan sub = Some (mkChan 0 10 false) /\
    (exists s1, pstates w1 !! 0%nat = Some s1 /\
                clients s1
                = <[randomID [171%Z] := sub_chan sub]>
                    (clients (mkProjectState 0 {["c1" := 0%nat]} (Some 0%nat)))) /\
    handleEvents (mkResponseWriter ∅ None [] 0 true)
      (mkRequest "GET" [("project", "demo")]) [171%Z] (SelectDone :: []) demo_world
    = Ok (rw2, true) w2 /\
    pstates w2 = pstates demo_world /\ mgr w2 = mgr demo_world /\
    chans w2 = <[sub_chan sub := mkChan 0 10 true]> (chans demo_world).
Proof.
  apply (handleEvents_connection_round_trip (mkResponseWriter ∅ None [] 0 true)
           (mkRequest "GET" [("project", "demo")]) [171%Z] [] demo_world 0%nat
           (mkProjectState 0 {["c1" := 0%nat]} (Some 0%nat)));
    try reflexivity.
  simpl. discriminate.
Defined.

(** * Signals beyond the buffer *)

Lemma trigger_times_result (n : nat) (projectID : string) (w : World)
    (cur : loc) (s : projectState) :
  projects (mgr w) !! projectID = Some cur ->
  pstates w !! cur = Some s ->
  state_ok w s ->
  exists w',
    trigger_times n projectID w = Ok tt w' /\
    chans w' = Nat.iter n (send_all (map_to_list (clients s)).*2) (chans w) /\
    mgr w' = mgr w /\ pstates w' = pstates w.
Proof.
  revert w. induction n as [|n IH]; intros w Hp Hs Hok; simpl.
  - by exists w.
  - destruct (trigger_tracked projectID w cur s Hp Hs Hok) as [sent Hsent].
    rewrite (bind_Ok _ _ _ _ _ Hsent).
    edestruct (IH (with_trace (fun t => t ++ map EChanSend sent)
                     (with_chans (send_all (map_to_list (clients s)).*2) w)))
      as (w' & Hrun & Hc & Hm & Hps); [done | done | |].
    { eapply state_ok_frame; [exact Hok | apply send_all_same_chans | done | done]. }
    exists w'. split; [done |]. split; [| done].
    rewrite Hc. simpl. by rewrite <- Nat.iter_succ_r.
Qed.

Lemma iter_send_all_lookup (n : nat) (cs : list loc) (m : gmap loc Chan)
    (c : loc) :
  NoDup cs -> c ∈ cs ->
  Nat.iter n (send_all cs) m !! c = Nat.iter n try_bump <$> m !! c.
Proof.
  intros Hnd Hc. induction n as [|n IH]; simpl.
  - by destruct (m !! c).
  - rewrite send_all_lookup by done. rewrite IH. by destruct (m !! c).
Qed.

Lemma iter_try_bump (n cap : nat) :
  Nat.iter n try_bump (mkChan 0 cap false) = mkChan (Nat.min n cap) cap false.
Proof.
  induction n as [|n IH]; [done |].
  change (Nat.iter (S n) try_bump (mkChan 0 cap false))
    with (try_bump (Nat.iter n try_bump (mkChan 0 cap false))).
  rewrite IH. unfold try_bump. cbn [ch_len ch_cap ch_closed].
  destruct (Nat.ltb_spec (Nat.min n cap) cap); f_equal; lia.
Qed.

Lemma handleEvents_loop_drain (sub : Subscription) (k : nat) :
  forall (m cap : nat) (rw : ResponseWriter) (w : World),
    chans w !! sub_chan sub = Some (mkChan m cap false) ->
    exists rw' w',
      handleEvents_loop sub (repeat SelectRecv k) rw w = Ok (rw', false) w' /\
      body rw' = body rw ++ repeat reload_frame (Nat.min k m) /\
      flushes rw' = (flushes rw + Nat.min k m)%nat /\
      chans w' !! sub_chan sub = Some (mkChan (m - k) cap false).
Proof.
  induction k as [|k IH]; intros m cap rw w Hc; simpl.
  - exists rw, w. rewrite app_nil_r, Nat.sub_0_r, Nat.add_0_r. done.
  - unfold bind, chan_recv. rewrite Hc. simpl. destruct m as [|m].
    + destruct (IH 0%nat cap rw w Hc) as (rw' & w' & Hrun & Hb & Hf & Hc').
      exists rw', w'. rewrite Nat.min_0_r in *. done.
    + destruct (IH m cap (Flush (Write reload_frame rw))
                  (with_chans (insert (sub_chan sub) (mkChan m cap false)) w))
        as (rw' & w' & Hrun & Hb & Hf & Hc').
      { simpl. by rewrite lookup_insert_eq. }
      exists rw', w'. split; [exact Hrun |].
      destruct (Write_Flush reload_frame rw) as (c & _ & H2).
      rewrite Hb, H2, <- app_assoc. split; [done |]. split; [| done].
      rewrite Hf. unfold Flush, Write, WriteHeader.
      destruct rw as [hd [c0|] bd fl fs]; simpl; lia.
Qed.

(** A client connects and does not read while the project broadcasts [n]
    times: its buffer takes the first ten signals and drops the rest, so
    that it writes [min n 10] reload frames when it reads again, and no
    broadcast ever waits for it. *)
Theorem reloads_beyond_buffer_dropped (n : nat) (rw : ResponseWriter)
    (r : Request) (random : list Z) (w : World) (l : loc) (s : projectState) :
  fresh_writer rw ->
  Method r = "GET" -> Query_Get (Query r) "project" <> "" ->
  projects (mgr w) !! Query_Get (Query r) "project" = Some l ->
  pstates w !! l = Some s -> state_ok w s -> is_Flusher rw = true ->
  exists rw1 sub w1 w2 rw2 w3,
    handleEvents_open rw r random w = Ok (rw1, Some sub) w1 /\
    trigger_times n (Query_Get (Query r) "project") w1 = Ok tt w2 /\
    chans w2 !! sub_chan sub = Some (mkChan (Nat.min n 10) 10 false) /\
    handleEvents_loop sub (repeat SelectRecv n) rw1 w2 = Ok (rw2, false) w3 /\
    body rw2 = ready_frame :: repeat reload_frame (Nat.min n 10) /\
    chans w3 !! sub_chan sub = Some (mkChan 0 10 false).
Proof.
  intros [Hst Hbody] Hm Hp Hl Hs Hok Hfl.
  destruct (handleEvents_open_accepts rw r random w l s Hm Hp Hl Hs Hfl)
    as (rw1 & Hopen & Hb1 & _).
  set (c := fresh_loc (chans w)) in *.
  set (s1 := set_clients _ s) in *.
  set (w1 := with_pstates _ _) in *.
  pose proof (state_ok_registered w l s (randomID random) Hok) as Hok1.
  fold c s1 w1 in Hok1.
  destruct (trigger_times_result n (Query_Get (Query r) "project") w1 l s1)
    as (w2 & Hrun & Hc2 & _); [done | by (subst w1; simpl; rewrite lookup_insert_eq) | done |].
  assert (chans w2 !! c = Some (mkChan (Nat.min n 10) 10 false)) as Hcc.
  { rewrite Hc2, iter_send_all_lookup.
    - subst w1. simpl. rewrite lookup_insert_eq. simpl.
      f_equal. apply iter_try_bump.
    - by eapply clients_NoDup.
    - apply clients_elem. exists (randomID random). subst s1. simpl.
      by rewrite lookup_insert_eq. }
  destruct (handleEvents_loop_drain
              (mkSubscription (Query_Get (Query r) "project") (randomID random) c)
              n (Nat.min n 10) 10 rw1 w2 Hcc)
    as (rw2 & w3 & Hloop & Hb2 & _ & Hc3).
  eexists rw1, _, w1, w2, rw2, w3. split; [exact Hopen |]. split; [exact Hrun |].
  split; [exact Hcc |]. split; [exact Hloop |]. split.
  - rewrite Hb2, Hb1, Hbody. simpl. f_equal. f_equal. lia.
  - simpl in Hc3 |- *. rewrite Hc3. f_equal. f_equal. lia.
Qed.

Lemma reloads_beyond_buffer_dropped_witness :
  exists rw1 sub w1 w2 rw2 w3,
    handleEvents_open (mkResponseWriter ∅ None [] 0 true)
      (mkRequest "GET" [("project", "demo")]) [171%Z] demo_world
    = Ok (rw1, Some sub) w1 /\
    trigger_times 12 (Query_Get (Query (mkRequest "GET" [("project", "demo")])) "project") w1
    = Ok tt w2 /\
    chans w2 !! sub_chan sub = Some (mkChan (Nat.min 12 10) 10 false) /\
    handleEvents_loop sub (repeat SelectRecv 12) rw1 w2 = Ok (rw2, false) w3 /\
    body rw2 = ready_frame :: repeat reload_frame (Nat.min 12 10) /\
    chans w3 !! sub_chan sub = Some (mkChan 0 10 false).
Proof.
  apply (reloads_beyond_buffer_dropped 12 (mkResponseWriter ∅ None [] 0 true)
           (mkRequest "GET" [("project", "demo")]) [171%Z] demo_world 0%nat
           (mkProjectState 0 {["c1" := 0%nat]} (Some 0%nat))).
  - split; reflexivity.
  - reflexivity.
  - simpl. discriminate.
  - reflexivity.
  - reflexivity.
  - apply demo_state_ok.
  - reflexivity.
Defined.

(** * The loop over the entry candidates *)

Lemma inject_candidates_unreadable (U : GoUnicode) (script : string)
    (pre rest : list string) (w : World) :
  Forall (fun g => ReadFile (fsys w) g = None) pre ->
  inject_candidates U script (pre ++ rest) w = inject_candidates U script rest w.
Proof.
  induction 1 as [|g pre Hg _ IH]; [done |]. simpl.
  unfold bind at 1, get at 1. by rewrite Hg.
Qed.



(** * Writing the entry file back *)

Lemma entry_lookup_put_eq (k : string) (n : fsnode) (es : list (string * fsnode)) :
  entry_lookup k (entry_put k n es) = Some n.
Proof.
  induction es as [|[k' m] es IH]; simpl.
  - by rewrite String.eqb_refl.
  - destruct (String.eqb_spec k' k) as [->|Hne]; simpl.
    + by rewrite String.eqb_refl.
    + destruct (String.ltb k k'); simpl.
      * by rewrite String.eqb_refl.
      * destruct (String.eqb_spec k' k); [done | exact IH].
Qed.

Lemma entry_lookup_put_ne (k k' : string) (n : fsnode)
    (es : list (string * fsnode)) :
  k <> k' -> entry_lookup k (entry_put k' n es) = entry_lookup k es.
Proof.
  intros Hne. induction es as [|[j m] es IH]; simpl.
  - by destruct (String.eqb_spec k' k).
  - destruct (String.eqb_spec j k') as [->|Hj]; simpl.
    + destruct (String.eqb_spec k' k); [done |]. done.
    + destruct (String.ltb k' j); simpl.
      * by destruct (String.eqb_spec k' k).
      * destruct (String.eqb_spec j k); [done | exact IH].
Qed.

Lemma entry_lookup_remove_ne (k k' : string) (es : list (string * fsnode)) :
  k <> k' -> entry_lookup k (entry_remove k' es) = entry_lookup k es.
Proof.
  intros Hne. induction es as [|[j m] es IH]; simpl; [done |].
  destruct (String.eqb_spec j k') as [->|Hj]; simpl.
  - by destruct (String.eqb_spec k' k).
  - destruct (String.eqb_spec j k); [done | exact IH].
Qed.

Lemma entry_remove_put_fresh (k : string) (n : fsnode)
    (es : list (string * fsnode)) :
  entry_lookup k es = None ->
  entry_lookup k (entry_remove k (entry_put k n es)) = None.
Proof.
  induction es as [|[j m] es IH]; simpl.
  - by rewrite String.eqb_refl.
  - destruct (String.eqb_spec j k) as [->|Hj]; [done |]. intros H.
    destruct (String.ltb k j); simpl.
    + rewrite String.eqb_refl. simpl.
      by destruct (String.eqb_spec j k).
    + destruct (String.eqb_spec j k); [done |]. simpl.
      destruct (String.eqb_spec j k); [done |]. by apply IH.
Qed.

Lemma node_at_app (p q : list string) (root : fsnode) :
  node_at (p ++ q) root
  = match node_at p root with Some n => node_at q n | None => None end.
Proof.
  revert root. induction p as [|e p IH]; intros root; simpl; [done |].
  destruct root as [d|es]; [done |].
  destruct (entry_lookup e es) as [child|]; [apply IH | done].
Qed.

(** What one rewriting of the directory at [dir] does to the tree. *)
Lemma update_dir_spec (dir : list string)
    (F : list (string * fsnode) -> option (list (string * fsnode)))
    (root : fsnode) (es : list (string * fsnode)) :
  node_at dir root = Some (FsDir es) ->
  match F es with
  | Some es' =>
    exists root', update_dir dir F root = Some root' /\
      node_at dir root' = Some (FsDir es') /\
      (forall p, (forall q, p <> dir ++ q) ->
         match node_at p root', node_at p root with
         | Some (FsFile a), Some (FsFile b) => a = b
         | Some (FsDir _), Some (FsDir _) => True
         | None, None => True
         | _, _ => False
         end)
  | None => update_dir dir F root = None
  end.
Proof.
  revert root. induction dir as [|e dir IH]; intros root Hn; simpl in Hn.
  - injection Hn as ->. simpl. destruct (F es) as [es'|]; [| done].
    eexists. split; [done |]. split; [done |].
    intros p Hp. exfalso. by apply (Hp p).
  - destruct root as [d|es0]; [done |].
    destruct (entry_lookup e es0) as [child|] eqn:He; [| done].
    specialize (IH child Hn). simpl. rewrite He.
    destruct (F es) as [es'|]; [| by rewrite IH].
    destruct IH as (child' & Hup & Hat & Hframe). rewrite Hup.
    eexists. split; [done |]. simpl. rewrite entry_lookup_put_eq.
    split; [done |].
    intros p Hp. destruct p as [|x p]; [done |]. simpl.
    destruct (decide (x = e)) as [->|Hx].
    + rewrite entry_lookup_put_eq, He. apply Hframe.
      intros q ->. by apply (Hp q).
    + rewrite entry_lookup_put_ne by done.
      destruct (entry_lookup x es0) as [c|]; [| done].
      by destruct (node_at p c) as [[]|].
Qed.

(** the content of the regular file at the elements [p], if there is one *)
Lemma ReadFile_node_at (root : fsnode) (path : string) :
  ReadFile root path
  = match node_at (split_path path) root with
    | Some (FsFile d) => Some d
    | _ => None
    end.
Proof. reflexivity. Qed.

Lemma update_dir_read_frame (dir : list string)
    (F : list (string * fsnode) -> option (list (string * fsnode)))
    (root root' : fsnode) (es es' : list (string * fsnode)) (K : list string) :
  node_at dir root = Some (FsDir es) -> F es = Some es' ->
  update_dir dir F root = Some root' ->
  (forall k, k ∉ K -> entry_lookup k es' = entry_lookup k es) ->
  (forall k, k ∈ K ->
     (forall es1, entry_lookup k es <> Some (FsDir es1)) /\
     (forall es1, entry_lookup k es' <> Some (FsDir es1))) ->
  node_at dir root' = Some (FsDir es') /\
  forall p, (forall k, k ∈ K -> p <> dir ++ [k]) ->
    match node_at p root' with Some (FsFile d) => Some d | _ => None end
    = match node_at p root with Some (FsFile d) => Some d | _ => None end.
Proof.
  intros Hn HF Hup Hother Hfiles.
  pose proof (update_dir_spec dir F root es Hn) as Hspec. rewrite HF in Hspec.
  destruct Hspec as (r & Hr & Hat & Hframe).
  assert (r = root') as -> by congruence.
  split; [done |]. intros p Hp.
  destruct (decide (dir `prefix_of` p)) as [[q ->]|Hq].
  - rewrite !node_at_app, Hat, Hn. destruct q as [|k q]; [done |]. simpl.
    destruct (decide (k ∈ K)) as [Hk|Hk].
    + destruct (Hfiles k Hk) as [H1 H2].
      destruct q as [|k' q]; [by destruct (Hp k Hk) |].
      destruct (entry_lookup k es') as [[d|es1]|]; [| by destruct (H2 es1) |];
        destruct (entry_lookup k es) as [[d0|es0]|]; try done;
        by destruct (H1 es0).
    + by rewrite Hother.
  - specialize (Hframe p). 
    assert (forall q, p <> dir ++ q) as Hno by (intros q ->; apply Hq; by eexists).
    specialize (Hframe Hno).
    destruct (node_at p root') as [[]|], (node_at p root) as [[]|]; try done.
    by subst.
Qed.

Lemma rev_append_acc (s acc : string) : rev_append s acc = rev s +:+ acc.
Proof.
  unfold rev. revert acc. induction s as [|c s IH]; intros acc; simpl; [done |].
  rewrite (IH (String c acc)), (IH (String c "")). rewrite append_assoc.
  reflexivity.
Qed.

Lemma rev_app (a b : string) : rev (a +:+ b) = rev b +:+ rev a.
Proof.
  induction a as [|c a IH].
  - simpl. by rewrite append_nil_r.
  - change (rev (String c a +:+ b)) with (rev_append (a +:+ b) (String c "")).
    change (rev (String c a)) with (rev_append a (String c "")).
    rewrite (rev_append_acc (a +:+ b)), (rev_append_acc a), IH, append_assoc.
    reflexivity.
Qed.

Lemma rev_rev (s : string) : rev (rev s) = s.
Proof.
  induction s as [|c s IH]; [done |].
  change (rev (String c s)) with (rev_append s (String c "")).
  rewrite rev_append_acc, rev_app, IH. reflexivity.
Qed.

Lemma split_from_name (t cur : string) :
  no_byte "/" t = true ->
  split_from t cur
  = if String.eqb (rev_append t cur) "" then [] else [rev (rev_append t cur)].
Proof.
  revert cur. induction t as [|c t IH]; intros cur Ht; simpl; [done |].
  unfold no_byte in Ht. simpl in Ht. apply andb_prop in Ht as [Hc Ht].
  destruct (Ascii.eqb c "/"); [done |]. by apply IH.
Qed.

Lemma split_from_suffix (t : string) :
  no_byte "/" t = true ->
  forall s cur, (ends_in_name s = true \/ s = "" /\ cur <> "") ->
  exists init lst,
    split_from s cur = init ++ [lst] /\
    split_from (s +:+ t) cur = init ++ [lst +:+ t].
Proof.
  intros Ht. induction s as [|c s IH]; intros cur Hs.
  - destruct Hs as [|[_ Hcur]]; [done |]. simpl.
    rewrite split_from_name by done.
    rewrite rev_append_acc.
    apply String.eqb_neq in Hcur as Hcur'. rewrite Hcur'.
    exists [], (rev cur). split; [done |]. simpl.
    destruct (String.eqb_spec (rev t +:+ cur) "") as [He|_].
    + destruct (rev t); [simpl in He; by subst | done].
    + by rewrite rev_app, rev_rev.
  - change (String c s +:+ t) with (String c (s +:+ t)). cbn [split_from].
    destruct Hs as [Hs|[? _]]; [| done].
    destruct (Ascii.eqb_spec c "/") as [->|Hc].
    + destruct s as [|c' s]; [done |].
      destruct (IH "") as (init & lst & H1 & H2); [by left |].
      rewrite H1, H2. eexists (_ ++ init), lst. by rewrite !app_assoc.
    + apply IH. destruct s as [|c' s]; [by right | by left].
Qed.

Lemma dir_and_base_split (path : string) (dir : list string) (base : string) :
  split_path path = dir ++ [base] -> dir_and_base path = Some (dir, base).
Proof.
  intros H. unfold dir_and_base. rewrite H, rev_app_distr. simpl.
  by rewrite rev_involutive.
Qed.

(** The paths of a file that can be read and of its temporary file. *)
Lemma split_path_tmp (f : string) (root : fsnode) (data : string) :
  ReadFile root f = Some data -> ends_in_name f = true ->
  exists dir base es,
    split_path f = dir ++ [base] /\
    split_path (f +:+ ".tmp") = dir ++ [base +:+ ".tmp"] /\
    node_at dir root = Some (FsDir es) /\
    entry_lookup base es = Some (FsFile data).
Proof.
  intros Hr Hs.
  destruct (split_from_suffix ".tmp" eq_refl f "") as (dir & base & H1 & H2);
    [by left |].
  exists dir, base. rewrite ReadFile_node_at in Hr. unfold split_path in *.
  rewrite H1 in Hr. rewrite node_at_app in Hr.
  destruct (node_at dir root) as [[d|es]|] eqn:Hd; [done | | done].
  exists es. split; [done |]. split; [done |]. split; [done |].
  simpl in Hr. destruct (entry_lookup base es) as [[d|es1]|]; [| done | done].
  by injection Hr as ->.
Qed.

Lemma tmp_differs (base : string) : base <> base +:+ ".tmp".
Proof.
  intros H. assert (String.length base = String.length (base +:+ ".tmp")) as Hl
    by congruence.
  clear H. induction base as [|c b IH]; simpl in Hl; [done |].
  apply IH. lia.
Qed.

Section WriteBack.
Context (U : GoUnicode).

Lemma write_back_result (f data updated : string) (fs : fsnode) :
  ReadFile fs f = Some data -> ends_in_name f = true ->
  Stat fs (f +:+ ".tmp") = None ->
  exists fs1 fs2,
    WriteFile fs (f +:+ ".tmp") updated = Some fs1 /\
    Rename fs1 (f +:+ ".tmp") f = Some fs2 /\
    ReadFile fs2 f = Some updated /\
    Stat fs2 (f +:+ ".tmp") = None /\
    (forall g, split_path g <> split_path f ->
       split_path g <> split_path (f +:+ ".tmp") ->
       ReadFile fs2 g = ReadFile fs g).
Proof.
  intros Hr Hs Htmp.
  destruct (split_path_tmp f fs data Hr Hs) as (dir & base & es & Hf & Ht & Hd & Hb).
  set (tmpb := base +:+ ".tmp") in *.
  assert (base <> tmpb) as Hbt by apply tmp_differs.
  assert (entry_lookup tmpb es = None) as Hnone.
  { unfold Stat in Htmp. unfold split_path in *. rewrite Ht, node_at_app, Hd in Htmp.
    simpl in Htmp. by destruct (entry_lookup tmpb es). }
  pose proof (dir_and_base_split _ _ _ Hf) as Hdbf.
  pose proof (dir_and_base_split _ _ _ Ht) as Hdbt.
  set (K := [base; tmpb]).
  (* the temporary file is written *)
  set (F1 := fun es0 : list (string * fsnode) =>
               match entry_lookup tmpb es0 with
               | Some (FsDir _) => None
               | _ => Some (entry_put tmpb (FsFile updated) es0)
               end).
  set (es1 := entry_put tmpb (FsFile updated) es).
  assert (F1 es = Some es1) as HF1 by (unfold F1; by rewrite Hnone).
  pose proof (update_dir_spec dir F1 fs es Hd) as Hspec1. rewrite HF1 in Hspec1.
  destruct Hspec1 as (fs1 & Hup1 & _).
  destruct (update_dir_read_frame dir F1 fs fs1 es es1 K Hd HF1 Hup1)
    as [Hd1 Hframe1].
  { intros k Hk. subst es1. apply entry_lookup_put_ne. set_solver. }
  { intros k Hk. subst es1 K.
    apply elem_of_cons in Hk as [->|Hk].
    - rewrite entry_lookup_put_ne, Hb by done. done.
    - apply list_elem_of_singleton in Hk as ->.
      rewrite entry_lookup_put_eq, Hnone. done. }
  (* it is read, removed and written to the entry file *)
  set (F2 := fun es0 : list (string * fsnode) =>
               match entry_lookup tmpb es0 with
               | Some _ => Some (entry_remove tmpb es0)
               | None => None
               end).
  set (es2 := entry_remove tmpb es1).
  assert (F2 es1 = Some es2) as HF2.
  { unfold F2. subst es1. by rewrite entry_lookup_put_eq. }
  pose proof (update_dir_spec dir F2 fs1 es1 Hd1) as Hspec2. rewrite HF2 in Hspec2.
  destruct Hspec2 as (fs1' & Hup2 & _).
  assert (entry_lookup tmpb es2 = None) as Hgone.
  { subst es2 es1. by apply entry_remove_put_fresh. }
  assert (entry_lookup base es2 = Some (FsFile data)) as Hb2.
  { subst es2 es1. by rewrite entry_lookup_remove_ne, entry_lookup_put_ne. }
  destruct (update_dir_read_frame dir F2 fs1 fs1' es1 es2 K Hd1 HF2 Hup2)
    as [Hd2 Hframe2].
  { intros k Hk. subst es2. apply entry_lookup_remove_ne. set_solver. }
  { intros k Hk. subst K.
    apply elem_of_cons in Hk as [->|Hk].
    - rewrite Hb2. subst es1. rewrite entry_lookup_put_ne, Hb by done. done.
    - apply list_elem_of_singleton in Hk as ->.
      rewrite Hgone. subst es1. rewrite entry_lookup_put_eq. done. }
  set (F3 := fun es0 : list (string * fsnode) =>
               match entry_lookup base es0 with
               | Some (FsDir _) => None
               | _ => Some (entry_put base (FsFile updated) es0)
               end).
  set (es3 := entry_put base (FsFile updated) es2).
  assert (F3 es2 = Some es3) as HF3 by (unfold F3; by rewrite Hb2).
  pose proof (update_dir_spec dir F3 fs1' es2 Hd2) as Hspec3. rewrite HF3 in Hspec3.
  destruct Hspec3 as (fs2 & Hup3 & _).
  destruct (update_dir_read_frame dir F3 fs1' fs2 es2 es3 K Hd2 HF3 Hup3)
    as [Hd3 Hframe3].
  { intros k Hk. subst es3. apply entry_lookup_put_ne. set_solver. }
  { intros k Hk. subst K es3.
    apply elem_of_cons in Hk as [->|Hk].
    - rewrite Hb2, entry_lookup_put_eq. done.
    - apply list_elem_of_singleton in Hk as ->.
      rewrite entry_lookup_put_ne, Hgone by done. done. }
  exists fs1, fs2.
  split; [unfold WriteFile; by rewrite Hdbt |].
  split.
  { unfold Rename. rewrite ReadFile_node_at. unfold split_path in *.
    rewrite Ht, node_at_app, Hd1. simpl. subst es1.
    rewrite entry_lookup_put_eq.
    unfold Remove. rewrite Hdbt. fold F2. rewrite Hup2.
    unfold WriteFile. rewrite Hdbf. done. }
  split.
  { rewrite ReadFile_node_at. unfold split_path in *.
    rewrite Hf, node_at_app, Hd3. simpl. subst es3.
    by rewrite entry_lookup_put_eq. }
  split.
  { unfold Stat, split_path in *. rewrite Ht, node_at_app, Hd3. simpl.
    subst es3. by rewrite entry_lookup_put_ne, Hgone. }
  intros g Hg1 Hg2. rewrite !ReadFile_node_at.
  assert (forall k, k ∈ K -> split_path g <> dir ++ [k]) as HgK.
  { intros k Hk. subst K. apply elem_of_cons in Hk as [->|Hk].
    - by rewrite <- Hf.
    - apply list_elem_of_singleton in Hk as ->. by rewrite <- Ht. }
  rewrite Hframe3, Hframe2, Hframe1 by done. done.
Qed.

(** When [TryInjectScript] meets a first readable candidate that has no
    marker and that [injectIntoHTML] accepts, and no file [f.tmp] is in
    the way, it returns nil; afterwards the candidate holds the content
    [injectIntoHTML] produced, the temporary file is gone, and every other
    file reads as before. *)
Theorem TryInjectScript_writes_back (p : Project) (f : string)
    (rest : list string) (w : World) (data updated : string) :
  ReadFile (fsys w) f = Some data ->
  Contains data marker = false ->
  injectIntoHTML U f data (ClientScript (mgr w) (ID p)) marker
  = Some (updated, true) ->
  ends_in_name f = true ->
  Stat (fsys w) (f +:+ ".tmp") = None ->
  exists w',
    TryInjectScript U (Some p) (f :: rest) w = Ok err_nil w' /\
    ReadFile (fsys w') f = Some updated /\
    Stat (fsys w') (f +:+ ".tmp") = None /\
    (forall g, split_path g <> split_path f ->
       split_path g <> split_path (f +:+ ".tmp") ->
       ReadFile (fsys w') g = ReadFile (fsys w) g) /\
    mgr w' = mgr w /\ pstates w' = pstates w /\ chans w' = chans w /\
    timers w' = timers w /\ watchers w' = watchers w /\ trace w' = trace w.
Proof.
  intros Hr Hm Hinj Hs Htmp.
  destruct (write_back_result f data updated (fsys w) Hr Hs Htmp)
    as (fs1 & fs2 & Hw & Hren & Hread & Hstat & Hframe).
  unfold TryInjectScript, bind at 1, get at 1. cbn [inject_candidates].
  unfold bind at 1, get at 1. rewrite Hr, Hm, Hinj, Hw.
  unfold bind at 1, modify at 1. rewrite Hren.
  unfold bind, modify, ret. eexists. split; [done |]. simpl.
  repeat split; done.
Qed.
End WriteBack.

Lemma TryInjectScript_writes_back_witness :
  exists w',
    TryInjectScript sample_unicode (Some demo_project) ["/site/index.php"] demo_world
    = Ok err_nil w' /\
    ReadFile (fsys w') "/site/index.php"
    = Some ("<?php echo 1; ?>" +:+ nl
            +:+ ClientScript (mgr demo_world) "demo" +:+ nl) /\
    Stat (fsys w') ("/site/index.php" +:+ ".tmp") = None /\
    (forall g, split_path g <> split_path "/site/index.php" ->
       split_path g <> split_path ("/site/index.php" +:+ ".tmp") ->
       ReadFile (fsys w') g = ReadFile (fsys demo_world) g) /\
    mgr w' = mgr demo_world /\ pstates w' = pstates demo_world /\
    chans w' = chans demo_world /\ timers w' = timers demo_world /\
    watchers w' = watchers demo_world /\ trace w' = trace demo_world.
Proof.
  apply (TryInjectScript_writes_back sample_unicode demo_project
           "/site/index.php" [] demo_world "<?php echo 1; ?>").
  - reflexivity.
  - vm_compute. reflexivity.
  - vm_compute. reflexivity.
  - reflexivity.
  - reflexivity.
Defined.

(** * The scan for index files *)

Section Scan.
Context (U : GoUnicode).

Lemma find_walk_bounded (rootDepth maxDepth : Z) (n : fsnode) :
  forall (path name : string) (results : list string),
    (length results < 20)%nat ->
    Forall (fun r => isIgnoredPath U r = false) results ->
    let out := find_walk U rootDepth maxDepth path name n results in
    (length out.1 <= 20)%nat /\
    (out.2 = false -> (length out.1 < 20)%nat) /\
    Forall (fun r => isIgnoredPath U r = false) out.1 /\
    exists more, out.1 = results ++ more.
Proof.
  induction n as [d|es IH] using fsnode_nested_ind; intros path name results Hl Hr.
  - cbn [find_walk].
    destruct (negb _ && negb _).
    { simpl. split; [lia |]. split; [done |]. split; [done |].
      exists []. by rewrite app_nil_r. }
    destruct (isIgnoredPath U path) eqn:Hig.
    { simpl. split; [lia |]. split; [done |]. split; [done |].
      exists []. by rewrite app_nil_r. }
    assert (length (results ++ [path]) = S (length results)) as Hlen
      by (rewrite length_app; simpl; lia).
    assert (Forall (fun r => isIgnoredPath U r = false) (results ++ [path])) as Hall.
    { apply Forall_app. split; [done |]. by constructor. }
    destruct (Z.leb_spec 20 (Z.of_nat (length (results ++ [path])))); simpl.
    + split; [lia |]. split; [done |]. split; [done |]. by exists [path].
    + split; [lia |]. split; [lia |]. split; [done |]. by exists [path].
  - cbn [find_walk].
    destruct (isIgnoredPath U path).
    { simpl. split; [lia |]. split; [done |]. split; [done |].
      exists []. by rewrite app_nil_r. }
    destruct (_ && _).
    { simpl. split; [lia |]. split; [done |]. split; [done |].
      exists []. by rewrite app_nil_r. }
    revert results Hl Hr.
    induction IH as [|[name1 child] es Hc _ IHes]; intros results Hl Hr.
    + simpl. split; [lia |]. split; [done |]. split; [done |].
      exists []. by rewrite app_nil_r.
    + simpl in Hc.
      specialize (Hc (filepath.Join [path; name1]) name1 results Hl Hr).
      destruct (find_walk U rootDepth maxDepth (filepath.Join [path; name1])
                  name1 child results) as [res stop].
      simpl in Hc. destruct Hc as (H1 & H2 & H3 & [more Hm]).
      destruct stop.
      * simpl. split; [done |]. split; [done |]. split; [done |]. by exists more.
      * destruct (IHes res (H2 eq_refl) H3) as (G1 & G2 & G3 & [more' Hm']).
        split; [done |]. split; [done |]. split; [done |].
        exists (more ++ more'). rewrite Hm'. rewrite Hm. by rewrite app_assoc.
Qed.

(** The scan returns at most twenty paths, and none of them is ignored;
    it returns nothing when the root is missing. *)
Theorem findIndexFiles_bounded (fs : fsnode) (root : string) (maxDepth : Z) :
  (length (findIndexFiles U fs root maxDepth) <= 20)%nat /\
  Forall (fun r => isIgnoredPath U r = false) (findIndexFiles U fs root maxDepth) /\
  (Stat fs (filepath.Clean root) = None -> findIndexFiles U fs root maxDepth = []).
Proof.
  unfold findIndexFiles, Stat.
  destruct (node_at (split_path (filepath.Clean root)) fs) as [n|];
    [| split; [simpl; lia | split; [constructor | done]]].
  destruct (find_walk_bounded (count_slash (filepath.Clean root)) maxDepth n
              (filepath.Clean root) (basename (filepath.Clean root)) [])
    as (H1 & _ & H3 & _); [simpl; lia | constructor |].
  split; [done |]. split; [done |]. done.
Qed.
End Scan.

(** * Clean paths *)

Lemma plain_name_spec (e : string) :
  plain_name e = true ->
  e <> "" /\ no_byte "/" e = true /\ e <> "." /\ e <> "..".
Proof.
  unfold plain_name. intros H.
  apply andb_prop in H as [H H4]. apply andb_prop in H as [H H3].
  apply andb_prop in H as [H1 H2].
  apply negb_true_iff, String.eqb_neq in H1, H3, H4. done.
Qed.

Lemma split_from_plain (e s cur : string) :
  no_byte "/" e = true ->
  split_from (e +:+ s) cur = split_from s (rev_append e cur).
Proof.
  revert cur. induction e as [|c e IH]; intros cur He; [done |].
  unfold no_byte in He. simpl in He. apply andb_prop in He as [Hc He].
  change (String c e +:+ s) with (String c (e +:+ s)). cbn [split_from rev_append].
  destruct (Ascii.eqb c "/"); [done |]. by apply IH.
Qed.

Lemma rev_append_nonempty (e cur : string) : e <> "" -> rev_append e cur <> "".
Proof.
  intros He H. rewrite rev_append_acc in H.
  destruct e as [|c e]; [done |].
  change (rev (String c e)) with (rev_append e (String c "")) in H.
  rewrite rev_append_acc in H. by destruct (rev e).
Qed.

Lemma split_from_join_sep (E : list string) :
  Forall (fun e => plain_name e = true) E ->
  split_from (filepath.join_sep E) "" = E.
Proof.
  induction 1 as [|e E He HE IH]; [done |].
  apply plain_name_spec in He as (Hne & Hs & _).
  destruct E as [|e' E].
  - simpl.
    replace (split_from e "") with (split_from (e +:+ "") "")
      by (by rewrite append_nil_r).
    rewrite split_from_plain by done. simpl.
    apply String.eqb_neq in Hne as Hne'.
    destruct (String.eqb_spec (rev_append e "") "") as [Hr|_].
    + by apply rev_append_nonempty in Hr.
    + change (rev_append e "") with (rev e). by rewrite rev_rev.
  - change (filepath.join_sep (e :: e' :: E))
      with (e +:+ String "/" (filepath.join_sep (e' :: E))).
    rewrite split_from_plain by done. cbn [split_from]. simpl Ascii.eqb. cbv iota.
    destruct (String.eqb_spec (rev_append e "") "") as [Hr|_].
    + by apply rev_append_nonempty in Hr.
    + change (rev_append e "") with (rev e). rewrite rev_rev, IH. done.
Qed.

Lemma split_path_abs (E : list string) :
  Forall (fun e => plain_name e = true) E -> split_path (abs_path E) = E.
Proof. intros H. unfold split_path, abs_path. simpl. by apply split_from_join_sep. Qed.

Lemma clean_elems_plain (rooted : bool) (E : list string) (ups : nat)
    (stack : list string) :
  Forall (fun e => plain_name e = true) E ->
  filepath.clean_elems rooted E ups stack = (ups, List.rev E ++ stack).
Proof.
  intros H. revert stack. induction H as [|e E He HE IH]; intros stack; [done |].
  apply plain_name_spec in He as (_ & _ & H1 & H2).
  apply String.eqb_neq in H1, H2. simpl. rewrite H1, H2, IH.
  by rewrite <- app_assoc.
Qed.

Lemma Clean_abs (E : list string) :
  Forall (fun e => plain_name e = true) E ->
  filepath.Clean (abs_path E) = abs_path E.
Proof.
  intros H. unfold filepath.Clean.
  rewrite split_path_abs, clean_elems_plain by done.
  rewrite app_nil_r, rev_involutive. reflexivity.
Qed.

Lemma join_sep_snoc (E : list string) (x : string) :
  E <> [] ->
  filepath.join_sep (E ++ [x]) = filepath.join_sep E +:+ "/" +:+ x.
Proof.
  induction E as [|e E IH]; [done |]. intros _.
  destruct E as [|e' E]; [reflexivity |].
  change (filepath.join_sep ((e :: e' :: E) ++ [x]))
    with (e +:+ "/" +:+ filepath.join_sep ((e' :: E) ++ [x])).
  rewrite IH by done.
  change (filepath.join_sep (e :: e' :: E))
    with (e +:+ "/" +:+ filepath.join_sep (e' :: E)).
  rewrite !append_assoc. reflexivity.
Qed.

Lemma Join_abs (E : list string) (name : string) :
  Forall (fun e => plain_name e = true) E -> E <> [] ->
  plain_name name = true ->
  filepath.Join [abs_path E; name] = abs_path (E ++ [name]).
Proof.
  intros HE Hne Hn. unfold filepath.Join. simpl String.eqb. cbv iota.
  change (filepath.join_sep [abs_path E; name]) with (abs_path E +:+ "/" +:+ name).
  assert (abs_path E +:+ "/" +:+ name = abs_path (E ++ [name])) as ->.
  { unfold abs_path. rewrite join_sep_snoc by done.
    rewrite !append_assoc. reflexivity. }
  apply Clean_abs. apply Forall_app. split; [done |]. by constructor.
Qed.

Lemma count_slash_app (a b : string) :
  count_slash (a +:+ b) = (count_slash a + count_slash b)%Z.
Proof. induction a as [|c a IH]; simpl; [done |]. rewrite IH. lia. Qed.

Lemma count_slash_plain (e : string) : no_byte "/" e = true -> count_slash e = 0%Z.
Proof.
  induction e as [|c e IH]; [done |]. unfold no_byte. simpl.
  intros [Hc He]%andb_prop. destruct (Ascii.eqb c "/"); [done |].
  rewrite IH; done.
Qed.

Lemma count_slash_join_sep (E : list string) :
  Forall (fun e => plain_name e = true) E -> E <> [] ->
  count_slash (filepath.join_sep E) = (Z.of_nat (length E) - 1)%Z.
Proof.
  induction 1 as [|e E He HE IH]; [done |]. intros _.
  apply plain_name_spec in He as (_ & Hs & _).
  destruct E as [|e' E].
  - simpl. by rewrite count_slash_plain.
  - change (filepath.join_sep (e :: e' :: E))
      with (e +:+ String "/" (filepath.join_sep (e' :: E))).
    rewrite count_slash_app, count_slash_plain by done.
    cbn [count_slash]. simpl Ascii.eqb. cbv iota. rewrite IH by done.
    simpl length. lia.
Qed.

Lemma count_slash_abs (E : list string) :
  Forall (fun e => plain_name e = true) E -> E <> [] ->
  count_slash (abs_path E) = Z.of_nat (length E).
Proof.
  intros H Hne. unfold abs_path.
  change ("/" +:+ filepath.join_sep E) with (String "/" (filepath.join_sep E)).
  cbn [count_slash]. simpl Ascii.eqb. cbv iota.
  rewrite count_slash_join_sep by done. lia.
Qed.

Lemma basename_abs (E : list string) (name : string) :
  Forall (fun e => plain_name e = true) E -> last E = Some name ->
  basename (abs_path E) = name.
Proof.
  intros H Hl. unfold basename. rewrite split_path_abs by done.
  destruct E as [|e E] using rev_ind; [done |].
  rewrite last_snoc in Hl. injection Hl as ->.
  by rewrite rev_app_distr.
Qed.

Lemma plain_tree_lookup (es : list (string * fsnode)) (e : string) (c : fsnode) :
  plain_tree (FsDir es) = true -> entry_lookup e es = Some c ->
  plain_tree c = true.
Proof.
  induction es as [|[k n] es IH]; [done |]. cbn [plain_tree entry_lookup].
  intros [[_ Hn]%andb_prop Hes]%andb_prop.
  destruct (String.eqb k e); [by intros [= <-] |]. by apply IH.
Qed.

Lemma plain_tree_node_at (E : list string) (root n : fsnode) :
  plain_tree root = true -> node_at E root = Some n -> plain_tree n = true.
Proof.
  revert root. induction E as [|e E IH]; intros root Hp; simpl.
  - by intros [= <-].
  - destruct root as [d|es]; [done |].
    destruct (entry_lookup e es) as [c|] eqn:He; [| done].
    apply IH. by eapply plain_tree_lookup.
Qed.

(** * What the scan can return *)

Section ScanShape.
Context (U : GoUnicode) (E : list string) (maxDepth : Z).
Hypothesis E_plain : Forall (fun e => plain_name e = true) E.
Hypothesis E_nonempty : E <> [].

Lemma find_walk_shape (n : fsnode) :
  forall (q : list string) (name : string) (results : list string),
    plain_tree n = true ->
    Forall (fun e => plain_name e = true) q ->
    last (E ++ q) = Some name ->
    ((0 < maxDepth)%Z -> (Z.of_nat (length q) <= maxDepth + 1)%Z) ->
    exists more,
      (find_walk U (Z.of_nat (length E)) maxDepth (abs_path (E ++ q)) name n
         results).1 = results ++ more
      /\ Forall (scanned U E maxDepth) more.
Proof using E_plain E_nonempty.
  induction n as [d|es IH] using fsnode_nested_ind;
    intros q name results Hp Hq Hlast Hdepth.
  - cbn [find_walk].
    destruct (String.eqb_spec (ToLower U name) "index.php") as [H1|H1];
      destruct (String.eqb_spec (ToLower U name) "index.html") as [H2|H2];
      cbn [negb andb];
      try (destruct (isIgnoredPath U (abs_path (E ++ q)));
           [ exists []; by rewrite app_nil_r
           | exists [abs_path (E ++ q)]; split;
             [ by destruct (20 <=? _)%Z
             | constructor; [| constructor];
               exists q, name; unfold index_name; by eauto ] ]).
    exists []. by rewrite app_nil_r.
  - cbn [find_walk].
    destruct (isIgnoredPath U (abs_path (E ++ q)));
      [exists []; by rewrite app_nil_r |].
    assert (Forall (fun e => plain_name e = true) (E ++ q)) as HEq
      by (apply Forall_app; by split).
    assert (E ++ q <> []) as HEne by (by destruct E).
    rewrite Clean_abs, count_slash_abs by done.
    destruct (Z.ltb_spec 0 maxDepth) as [H0|H0];
      destruct (Z.ltb_spec maxDepth (Z.of_nat (length (E ++ q)) - Z.of_nat (length E)))
        as [H1|H1]; cbn [andb];
      try (exists []; by rewrite app_nil_r).
    all: assert ((0 < maxDepth)%Z -> (Z.of_nat (length q) <= maxDepth)%Z) as Hq'
      by (rewrite length_app in H1; lia).
    all: clear Hdepth H0 H1.
    all: revert results; induction IH as [|[name1 child] es Hc _ IHes];
      intros results; [exists []; by rewrite app_nil_r |].
    all: cbn [plain_tree] in Hp;
      apply andb_prop in Hp as [[Hn1 Hchild]%andb_prop Hes].
    all: rewrite Join_abs by done; rewrite <- app_assoc.
    all: simpl in Hc;
      destruct (Hc (q ++ [name1]) name1 results) as (more & Hm & Hall);
      [ done
      | apply Forall_app; split; [done | by constructor]
      | by rewrite app_assoc, last_snoc
      | rewrite length_app; simpl; lia
      | ].
    all: destruct (find_walk U (Z.of_nat (length E)) maxDepth
                     (abs_path (E ++ q ++ [name1])) name1 child results)
      as [res stop]; simpl in Hm; subst res.
    all: destruct stop; [by exists more |].
    all: destruct (IHes Hes (results ++ more)) as (more' & Hm' & Hall').
    all: exists (more ++ more'); split;
      [ by rewrite Hm', app_assoc | apply Forall_app; by split ].
Qed.

(** For a root given by its elements, every path the scan returns names an
    index file, case ignored, at most [maxDepth + 1] elements below the
    root when [maxDepth] is positive: the directories entered are those at
    most [maxDepth] elements down, and their files are one further. *)
Theorem findIndexFiles_shape (fs : fsnode) :
  plain_tree fs = true ->
  Forall (scanned U E maxDepth) (findIndexFiles U fs (abs_path E) maxDepth).
Proof using E_plain E_nonempty.
  intros Hp. unfold findIndexFiles.
  rewrite Clean_abs, split_path_abs, count_slash_abs by done.
  destruct (node_at E fs) as [n|] eqn:Hn; [| constructor].
  destruct (last E) as [e|] eqn:Hlast;
    [| apply last_None in Hlast; by destruct E_nonempty].
  rewrite (basename_abs _ e) by done.
  destruct (find_walk_shape n [] e []) as (more & Hm & Hall).
  - by eapply plain_tree_node_at.
  - constructor.
  - by rewrite app_nil_r.
  - simpl. lia.
  - rewrite app_nil_r in Hm. rewrite Hm. exact Hall.
Qed.
End ScanShape.

Lemma findIndexFiles_shape_witness :
  Forall (scanned sample_unicode ["site"] 3)
    (findIndexFiles sample_unicode demo_fs (abs_path ["site"]) 3).
Proof.
  apply (findIndexFiles_shape sample_unicode ["site"] 3).
  - constructor; [reflexivity | constructor].
  - discriminate.
  - reflexivity.
Defined.

(** * The candidates *)

(** When one of the conventional entry files exists, [TryInjectScript]
    looks at the conventional files only, in their order, and the scan is
    not run; when none exists, it is the files the scan finds, in the
    order of the walk, that it tries. *)
Theorem TryInjectScript_whole_candidates (U : GoUnicode) (p : Project)
    (w : World) :
  (Exists (fun f => is_Some (Stat (fsys w) f)) (conventional U p) ->
     TryInjectScript_whole U (Some p) w
     = TryInjectScript U (Some p) (conventional U p) w) /\
  (Forall (fun f => Stat (fsys w) f = None) (conventional U p) ->
     TryInjectScript_whole U (Some p) w
     = TryInjectScript U (Some p) (findIndexFiles U (fsys w) (Path p) 3) w).
Proof.
  change (TryInjectScript_whole U (Some p) w)
    with (TryInjectScript U (Some p)
            (if existsb (fun f => bool_decide (is_Some (Stat (fsys w) f)))
                  (conventional U p)
             then conventional U p
             else conventional U p ++ findIndexFiles U (fsys w) (Path p) 3) w).
  split.
  - intros Hex.
    assert (existsb (fun f => bool_decide (is_Some (Stat (fsys w) f)))
              (conventional U p) = true) as ->; [| done].
    apply existsb_exists. apply Exists_exists in Hex as (f & Hin & Hf).
    exists f. split; [by apply list_elem_of_In | by apply bool_decide_eq_true].
  - intros Hall.
    assert (existsb (fun f => bool_decide (is_Some (Stat (fsys w) f)))
              (conventional U p) = false) as ->.
    { apply not_true_is_false. intros (f & Hin & Hf)%existsb_exists.
      apply bool_decide_eq_true in Hf. apply list_elem_of_In in Hin.
      rewrite Forall_forall in Hall. rewrite (Hall f Hin) in Hf.
      by destruct Hf. }
    unfold TryInjectScript, bind, get.
    apply inject_candidates_unreadable.
    eapply Forall_impl; [exact Hall |]. intros f Hf. simpl in Hf.
    unfold Stat in Hf. unfold ReadFile.
    by destruct (node_at (split_path f) (fsys w)).
Qed.

(** * The last lines of a file *)

Lemma TailFile_loop_all (tokens : list string) (maxLines : Z)
    (lines : list string) :
  (maxLines <= 0)%Z -> TailFile_loop tokens maxLines lines = lines ++ tokens.
Proof.
  intros Hm. revert lines. induction tokens as [|t rest IH]; intros lines; simpl.
  - by rewrite app_nil_r.
  - destruct (Z.ltb_spec 0 maxLines); [lia |]. simpl.
    by rewrite IH, <- app_assoc.
Qed.

Lemma TailFile_loop_last (tokens : list string) (maxLines : Z)
    (lines : list string) :
  (0 < maxLines)%Z -> (Z.of_nat (length lines) <= maxLines)%Z ->
  TailFile_loop tokens maxLines lines
  = list.drop (length (lines ++ tokens) - Z.to_nat maxLines) (lines ++ tokens).
Proof.
  intros Hm. revert lines. induction tokens as [|t rest IH]; intros lines Hl; simpl.
  - rewrite app_nil_r.
    replace (length lines - Z.to_nat maxLines)%nat with 0%nat by lia. done.
  - destruct (Z.ltb_spec 0 maxLines); [| lia]. simpl.
    rewrite length_app. simpl.
    destruct (Z.ltb_spec maxLines (Z.of_nat (length lines + 1))).
    + assert (Z.of_nat (length lines) = maxLines) as Heq by lia.
      replace (Z.to_nat (Z.of_nat (length lines + 1) - maxLines)) with 1%nat by lia.
      rewrite IH.
      * rewrite length_app, !length_drop, !length_app. simpl.
        rewrite <- drop_app_le by (rewrite length_app; simpl; lia).
        rewrite drop_drop, <- app_assoc. simpl. f_equal. lia.
      * rewrite length_drop, length_app. simpl. lia.
    + rewrite IH by (rewrite length_app; simpl; lia).
      by rewrite <- app_assoc.
Qed.

(** [TailFile] of a regular file returns the last [maxLines] of the lines
    the scanner yields, all of them when there are fewer or when
    [maxLines] is not positive, together with the scanner's error; for a
    path that does not exist it returns no line and an error. *)
Theorem TailFile_last_lines (fs : fsnode) (path : string) (maxLines : Z) :
  (forall data tokens too_long,
     ReadFile fs path = Some data ->
     bufio.scan_lines data "" 0 = (tokens, too_long) ->
     (TailFile fs path maxLines).1
     = (if (0 <? maxLines)%Z
        then list.drop (length tokens - Z.to_nat maxLines) tokens else tokens) /\
     ((0 < maxLines)%Z ->
        (Z.of_nat (length (TailFile fs path maxLines).1) <= maxLines)%Z) /\
     ((TailFile fs path maxLines).2 = err_nil <-> too_long = false)) /\
  (Stat fs path = None ->
     exists msg, TailFile fs path maxLines = ([], errorString msg)).
Proof.
  split.
  - intros data tokens too_long Hr Hscan. unfold TailFile.
    rewrite ReadFile_node_at in Hr.
    destruct (node_at (split_path path) fs) as [[d|es]|]; [| done | done].
    injection Hr as ->. rewrite Hscan. simpl.
    destruct (Z.ltb_spec 0 maxLines).
    + rewrite TailFile_loop_last by (simpl; lia). simpl.
      split; [done |]. split; [| by destruct too_long].
      intros _. rewrite length_drop. lia.
    + rewrite TailFile_loop_all by lia. simpl.
      split; [done |]. split; [lia | by destruct too_long].
  - unfold Stat, TailFile.
    destruct (node_at (split_path path) fs) as [n|]; [done |]. eauto.
Qed.

(** * Client ids *)

Lemma byte_val_of (z : Z) : (0 <= z < 256)%Z -> byte_val (byte_of z) = z.
Proof.
  intros Hz. unfold byte_val, byte_of.
  rewrite N_ascii_embedding by lia. lia.
Qed.

Lemma byte_val_hex_digit (n : Z) :
  (0 <= n < 16)%Z ->
  byte_val (hex_digit n) = (if (n <? 10)%Z then 48 + n else 87 + n)%Z.
Proof.
  intros Hn. unfold hex_digit. destruct (n <? 10)%Z; apply byte_val_of; lia.
Qed.

Lemma hex_digit_inj (n m : Z) :
  (0 <= n < 16)%Z -> (0 <= m < 16)%Z -> hex_digit n = hex_digit m -> n = m.
Proof.
  intros Hn Hm H. apply (f_equal byte_val) in H.
  rewrite !byte_val_hex_digit in H by done.
  destruct (Z.ltb_spec n 10), (Z.ltb_spec m 10); lia.
Qed.

Lemma nibbles (x : Z) :
  (0 <= x < 256)%Z ->
  (0 <= Z.shiftr x 4 < 16)%Z /\ (0 <= Z.land x 15 < 16)%Z /\
  x = (16 * Z.shiftr x 4 + Z.land x 15)%Z.
Proof.
  intros Hx. rewrite Z.shiftr_div_pow2 by lia.
  change 15%Z with (Z.ones 4). rewrite Z.land_ones by lia.
  change (2 ^ 4)%Z with 16%Z.
  pose proof (Z.div_mod x 16). pose proof (Z.mod_pos_bound x 16).
  assert (0 <= x / 16 < 16)%Z by (split; [apply Z.div_pos; lia | apply Z.div_lt_upper_bound; lia]).
  lia.
Qed.

(** [randomID] turns [n] bytes into [2 n] lower-case hexadecimal digits,
    and different bytes into different ids: two clients share an id only
    if the random source gave them the same bytes. *)
Theorem randomID_hex (b : list Z) :
  Forall (fun x => (0 <= x < 256)%Z) b ->
  String.length (randomID b) = (2 * length b)%nat /\
  all_bytes is_hex (randomID b) = true /\
  forall b', Forall (fun x => (0 <= x < 256)%Z) b' ->
    randomID b = randomID b' -> b = b'.
Proof.
  unfold randomID. induction 1 as [|x b Hx Hb (IH1 & IH2 & IH3)].
  - split; [done |]. split; [done |]. intros [|y b'] _ H; [done | discriminate H].
  - destruct (nibbles x Hx) as (Hhi & Hlo & Hsum).
    split; [simpl; lia |]. split.
    + cbn [hex_EncodeToString all_bytes]. rewrite IH2.
      unfold is_hex. rewrite !byte_val_hex_digit by done.
      unfold in_range.
      destruct (Z.ltb_spec (Z.shiftr x 4) 10), (Z.ltb_spec (Z.land x 15) 10);
        repeat (apply andb_true_intro; split); try reflexivity;
        apply orb_true_iff; (left; apply andb_true_intro; split; apply Z.leb_le; lia)
                            || (right; apply andb_true_intro; split; apply Z.leb_le; lia).
    + intros [|y b'] Hb' H; [discriminate H |].
      apply Forall_cons in Hb' as [Hy Hb'].
      destruct (nibbles y Hy) as (Hhi' & Hlo' & Hsum').
      cbn [hex_EncodeToString] in H. injection H as H1 H2 H3.
      apply hex_digit_inj in H1, H2; try done.
      f_equal; [lia | by apply IH3].
Qed.

Lemma randomID_hex_witness :
  String.length (randomID [0; 255; 16; 171; 1; 2; 3; 4]%Z) = (2 * 8)%nat /\
  all_bytes is_hex (randomID [0; 255; 16; 171; 1; 2; 3; 4]%Z) = true /\
  forall b', Forall (fun x => (0 <= x < 256)%Z) b' ->
    randomID [0; 255; 16; 171; 1; 2; 3; 4]%Z = randomID b' ->
    [0; 255; 16; 171; 1; 2; 3; 4]%Z = b'.
Proof.
  apply (randomID_hex [0; 255; 16; 171; 1; 2; 3; 4]%Z).
  repeat (constructor; [lia |]). constructor.
Defined.

(** * The script and the marker *)

Lemma append_eq_append (a b c d : string) :
  a +:+ b = c +:+ d ->
  exists e, (a = c +:+ e /\ d = e +:+ b) \/ (c = a +:+ e /\ b = e +:+ d).
Proof.
  revert c. induction a as [|x a IH]; intros c H.
  - exists c. right. done.
  - destruct c as [|y c].
    + exists (String x a). left. done.
    + simpl in H. injection H as -> H. destruct (IH c H) as [e [[-> ->]|[-> ->]]].
      * exists e. by left.
      * exists e. by right.
Qed.

Lemma Contains_across_byte (x y m : string) (c : ascii) :
  no_byte c m = true ->
  Contains (x +:+ String c y) m = true ->
  Contains x m = true \/ Contains y m = true.
Proof.
  intros Hm [pre [post H]]%Contains_true.
  symmetry in H. apply append_eq_append in H as [d [[-> H]|[-> H]]].
  - destruct d as [|k d].
    + simpl in H. destruct m as [|k m].
      * left. apply Contains_true. exists x, "". by rewrite append_nil_r.
      * simpl in H. injection H as <- _. unfold no_byte in Hm. simpl in Hm.
        by rewrite Ascii.eqb_refl in Hm.
    + simpl in H. injection H as _ ->. right. apply Contains_true. by exists d, post.
  - destruct (append_eq_append _ _ _ _ H) as [e [[-> H2]|[-> H2]]].
    + destruct e as [|k e].
      * left. apply Contains_true. exists pre, "".
        by rewrite !append_nil_r.
      * simpl in H2. injection H2 as <- _.
        unfold no_byte in Hm. rewrite all_bytes_append in Hm. simpl in Hm.
        rewrite Ascii.eqb_refl in Hm. simpl in Hm.
        by rewrite andb_false_r in Hm.
    + left. apply Contains_true. by exists pre, e.
Qed.

Lemma Contains_needs_byte (s m : string) (c : ascii) :
  no_byte c s = true -> no_byte c m = false -> Contains s m = false.
Proof.
  intros Hs Hm. destruct (Contains s m) eqn:H; [| done].
  apply Contains_true in H as (pre & post & ->).
  unfold no_byte in *. rewrite !all_bytes_append in Hs. rewrite Hm in Hs.
  by rewrite andb_false_r in Hs.
Qed.

Lemma string_of_uint_digits (d : Decimal.uint) :
  no_byte "G" (NilEmpty.string_of_uint d) = true.
Proof. induction d; simpl; done. Qed.

Lemma itoa_digits (n : Z) : no_byte "G" (itoa n) = true.
Proof.
  unfold itoa, NilZero.string_of_int.
  assert (forall d, no_byte "G" (NilZero.string_of_uint d) = true) as Hd.
  { intros d. destruct d; [reflexivity | exact (string_of_uint_digits _) ..]. }
  destruct (Z.to_int n) as [d|d]; [apply Hd |].
  unfold no_byte. cbn [all_bytes]. apply Hd.
Qed.

(** The script carries the marker only if the project id does. *)
Lemma ClientScript_lacks_marker (m : Manager) (projectID : string) :
  no_byte "G" projectID = true ->
  no_byte "G" (ClientScript m projectID) = true.
Proof.
  intros Hid. unfold ClientScript, EndpointURL, no_byte.
  rewrite !all_bytes_append.
  fold (no_byte "G" (itoa (port m))). fold (no_byte "G" projectID).
  rewrite itoa_digits, Hid. reflexivity.
Qed.

Section ClosedPHP.
Context (U : GoUnicode).

(** For a project whose id has no capital G, as every id the project
    manager makes, the branch of a PHP file whose last block is closed
    leaves a file without the marker: when no [f.tmp] is in the way,
    [TryInjectScript] returns nil, the entry file then holds the content
    followed by the script, and the marker is not in it. *)
Theorem TryInjectScript_closed_php_unmarked (p : Project) (f : string)
    (rest : list string) (w : World) (data : string) :
  no_byte "G" (ID p) = true ->
  ReadFile (fsys w) f = Some data ->
  Contains data marker = false ->
  injectIntoHTML U f data (ClientScript (mgr w) (ID p)) marker
  = Some (data +:+ nl +:+ ClientScript (mgr w) (ID p) +:+ nl, true) ->
  ends_in_name f = true ->
  Stat (fsys w) (f +:+ ".tmp") = None ->
  exists w',
    TryInjectScript U (Some p) (f :: rest) w = Ok err_nil w' /\
    ReadFile (fsys w') f
    = Some (data +:+ nl +:+ ClientScript (mgr w) (ID p) +:+ nl) /\
    Contains (data +:+ nl +:+ ClientScript (mgr w) (ID p) +:+ nl) marker = false /\
    mgr w' = mgr w.
Proof.
  intros Hid Hr Hm Hinj Hs Htmp.
  destruct (write_back_result f data
              (data +:+ nl +:+ ClientScript (mgr w) (ID p) +:+ nl)
              (fsys w) Hr Hs Htmp)
    as (fs1 & fs2 & Hw & Hren & Hread & _).
  unfold TryInjectScript, bind at 1, get at 1. cbn [inject_candidates].
  unfold bind at 1, get at 1. rewrite Hr, Hm, Hinj, Hw.
  unfold bind at 1, modify at 1. rewrite Hren.
  unfold bind, modify, ret. eexists. split; [done |]. simpl.
  split; [exact Hread |]. split; [| done].
  destruct (Contains (data +:+ nl +:+ ClientScript (mgr w) (ID p) +:+ nl) marker)
    eqn:Hc; [| done].
  apply Contains_across_byte in Hc as [Hc|Hc]; [congruence | | reflexivity].
  rewrite (Contains_needs_byte _ marker "G") in Hc; [done | | reflexivity].
  unfold no_byte. rewrite all_bytes_append.
  fold (no_byte "G" (ClientScript (mgr w) (ID p))).
  by rewrite ClientScript_lacks_marker.
Qed.
End ClosedPHP.

Lemma TryInjectScript_closed_php_unmarked_witness :
  exists w',
    TryInjectScript sample_unicode (Some demo_project) ("/site/index.php" :: [])
      demo_world = Ok err_nil w' /\
    ReadFile (fsys w') "/site/index.php"
    = Some ("<?php echo 1; ?>" +:+ nl
            +:+ ClientScript (mgr demo_world) (ID demo_project) +:+ nl) /\
    Contains ("<?php echo 1; ?>" +:+ nl
              +:+ ClientScript (mgr demo_world) (ID demo_project) +:+ nl) marker
    = false /\
    mgr w' = mgr demo_world.
Proof.
  apply (TryInjectScript_closed_php_unmarked sample_unicode demo_project
           "/site/index.php" [] demo_world "<?php echo 1; ?>").
  - reflexivity.
  - reflexivity.
  - vm_compute. reflexivity.
  - vm_compute. reflexivity.
  - reflexivity.
  - reflexivity.
Defined.

(** * The address the script points at *)

(** A manager made for port 0 uses the default port; the server [Start]
    makes listens on 127.0.0.1 at the manager's port, and the URL in the
    client script is that address followed by the events route and the
    project id. *)
Theorem script_points_at_server (port0 : Z) (projectID : string) (w : World) :
  mgr w = NewManager port0 ->
  exists w' s sv,
    Start w = Ok err_nil w' /\ srv (mgr w') = Some s /\
    servers w' !! s = Some sv /\
    Addr sv = "127.0.0.1:" +:+ itoa (if (port0 =? 0)%Z then DefaultPort else port0) /\
    EndpointURL (mgr w') projectID
    = "http://" +:+ Addr sv +:+ "/events?project=" +:+ projectID /\
    exists pre post,
      ClientScript (mgr w') projectID
      = pre +:+ EndpointURL (mgr w') projectID +:+ post.
Proof.
  intros Hm.
  assert (srv (mgr w) = None) as Hs by (by rewrite Hm).
  rewrite (Start_lazy w Hs). eexists _, _, _. split; [done |]. simpl.
  split; [done |]. rewrite lookup_insert_eq. split; [done |]. simpl.
  rewrite Hm. unfold NewManager. simpl. split; [done |]. split; [done |].
  exists ("<script>" +:+ nl +:+ "(function(){" +:+ nl +:+ "  try {" +:+ nl
          +:+ "    var es = new EventSource('"),
         ("');" +:+ nl
          +:+ "    es.onmessage = function(){ location.reload(); };" +:+ nl
          +:+ "    es.onerror = function(){};" +:+ nl
          +:+ "  } catch (e) {}" +:+ nl +:+ "})();" +:+ nl +:+ "</script>").
  reflexivity.
Qed.

Lemma script_points_at_server_witness :
  exists w' s sv,
    Start (with_mgr (fun _ => NewManager 0) demo_world) = Ok err_nil w' /\
    srv (mgr w') = Some s /\
    servers w' !! s = Some sv /\
    Addr sv = "127.0.0.1:" +:+ itoa (if (0 =? 0)%Z then DefaultPort else 0) /\
    EndpointURL (mgr w') "demo"
    = "http://" +:+ Addr sv +:+ "/events?project=" +:+ "demo" /\
    exists pre post,
      ClientScript (mgr w') "demo" = pre +:+ EndpointURL (mgr w') "demo" +:+ post.
Proof.
  apply (script_points_at_server 0 "demo" (with_mgr (fun _ => NewManager 0) demo_world)).
  reflexivity.
Defined.
